(** * crawler_tool: the Snowflake identifier generator and the slug retry loop

    A shallow embedding of [src/utils/snowflake.ts], [src/utils/slugify.ts]
    and of the slug-resolution fragments of [src/services/CrawlSite.service.ts],
    followed by the rest of the service that surrounds them: the creation
    and modification of a task, the choice of category titles, the listing
    of sites, the request validator and the error handler.

    JavaScript [bigint] values are [Z] (both are unbounded two's-complement
    integers, so [<<], [|] and [&] are [Z.shiftl], [Z.lor] and [Z.land]);
    integral [number]s are [Z] as well.  A string is held as the UTF-8
    encoding of its text: [length] counts the UTF-16 code units of that
    text and [trim] strips the white space of ECMAScript.  Everything
    outside the repository (the wall clock, the npm [slugify] package, the
    SQL store with its [pool.execute]) is gathered in an environment
    record; the mutable state of the process is a heap record threaded
    through a small state-and-exception monad. *)

From Stdlib Require Import ZArith String Ascii List Lia Bool Sorted.
From Stdlib Require Import DecimalString DecimalZ DecimalPos DecimalFacts.
From Equations Require Import Equations.
Import ListNotations.

Local Open Scope string_scope.
Local Open Scope list_scope.
Local Open Scope Z_scope.

(* ===================================================================== *)
(** ** JavaScript primitives used by the sources *)
(* ===================================================================== *)

Module Js.

(** [BigInt.prototype.toString()]: decimal digits, a leading [-] for
    negative values. *)
Definition bigint_toString (z : Z) : string :=
  NilZero.string_of_int (Z.to_int z).

(** Reading a decimal identifier back as an integer ([BigInt(s)]). *)
Definition parseBigInt (s : string) : option Z :=
  option_map Z.of_int (NilZero.int_of_string s).

(** One digit of [Number.prototype.toString(36)]: [0-9] then [a-z]. *)
Definition digit36 (d : Z) : ascii :=
  if d <? 10 then ascii_of_nat (48 + Z.to_nat d)
  else ascii_of_nat (87 + Z.to_nat d).

(** Digits of a non-negative integer, most significant first; [n] counts
    the digits that may still follow the one emitted. *)
Fixpoint digits36 (n : nat) (x : Z) (acc : string) : string :=
  let acc' := String (digit36 (x mod 36)) acc in
  match n with
  | O => acc'
  | S n' => if x / 36 =? 0 then acc' else digits36 n' (x / 36) acc'
  end.

(** [Number.prototype.toString(36)] on an integral number. *)
Definition toString36 (x : Z) : string :=
  if x <? 0
  then String "-" (digits36 (Z.to_nat (Z.log2 (- x))) (- x) "")
  else digits36 (Z.to_nat (Z.log2 x)) x "".

(** Value of a base-36 digit and of a digit string (the inverse reading,
    used to state that [toString36] is a base-36 numeral). *)
Definition value36_digit (c : ascii) : Z :=
  let k := Z.of_nat (nat_of_ascii c) in
  if k <? 58 then k - 48 else k - 87.

Fixpoint value36 (acc : Z) (s : string) : Z :=
  match s with
  | EmptyString => acc
  | String c s' => value36 (acc * 36 + value36_digit c) s'
  end.

(** Strings are held as the UTF-8 encoding of their text.  [s.length]
    counts UTF-16 code units: a byte below 0x80 and the lead byte of a
    two- or three-byte sequence (0xC0-0xEF) begin a character of one
    unit, the lead byte of a four-byte sequence (0xF0 and above) one of
    two units, and a continuation byte (0x80-0xBF) begins none. *)
Fixpoint length (s : string) : nat :=
  match s with
  | EmptyString => 0%nat
  | String c s' =>
      let b := nat_of_ascii c in
      ((if Nat.ltb b 128 then 1
        else if Nat.ltb b 192 then 0
             else if Nat.ltb b 240 then 1 else 2) + length s')%nat
  end.

(** Truthiness of an optional string argument: [undefined] and [''] are
    falsy, every other string is truthy. *)
Definition truthy (s : option string) : bool :=
  match s with
  | None => false
  | Some EmptyString => false
  | Some (String _ _) => true
  end.

End Js.

(* ===================================================================== *)
(** ** The environment and the process state *)
(* ===================================================================== *)

(** Which existence query of the repositories is asked. *)
Inductive Scope : Type :=
| SlugExists                                            (* slugExists(slug) *)
| SlugExistsExcludingId (excludeId : string)            (* slugExistsExcludingId(slug, id) *)
| SlugExistsForSite (siteId : string)                   (* slugExistsForSite(siteId, slug) *)
| SlugExistsForSiteExcludingId (siteId categoryId : string).

(** An error with which [pool.execute] rejects: its [code] and its
    [message]. *)
Record SqlError : Type := {
  sql_code : string;
  sql_message : string
}.

(** A row handed to [categoryRepository.createBatch]
    ([Omit<ICategoryEntity, 'created_at' | 'updated_at'>]); the rows the
    store hands back are read through the same six fields. *)
Record Category : Type := {
  cat_id : string;
  cat_site_id : string;
  cat_title : string;
  cat_slug : string;
  cat_title_selector : string;
  cat_link_selector : string
}.

(** Everything the code calls that is not code of the repository: the
    clock, the npm [slugify] package applied with the options of
    [generateSlug], and the store.  [store] answers the [COUNT( * ) > 0] of
    an existence query; the clock and [store] are indexed by the number of
    calls made so far, so that each call may see a different world (other
    processes write to the store).  [execute_insert] answers the
    [INSERT INTO categories ... VALUES ...] of [createBatch]: [None] when
    the statement went through, the error otherwise.  [execute_select]
    answers its [SELECT * FROM categories WHERE id IN (...)]: the rows, in
    the order the store chooses, or the error.  Both are given the rows
    this process has inserted before. *)
Record Env : Type := {
  Date_now : nat -> Z;
  slugify : string -> string;
  store : nat -> Scope -> string -> bool;
  execute_insert : list Category -> list Category -> option SqlError;
  execute_select : list Category -> list string -> SqlError + list Category
}.

(** Fields of a [SnowflakeIdGenerator] instance. *)
Record SnowflakeIdGenerator : Type := {
  datacenterId : Z;
  workerId : Z;
  sequence : Z;
  lastTimestamp : Z
}.

(** Mutable state of the process: how often the clock was read, the
    existence queries sent so far (oldest first), the lines written with
    [console.warn], the singleton generator, and the rows of the [INSERT]
    statements of this process that went through. *)
Record Heap : Type := {
  clockReads : nat;
  queries : list (Scope * string);
  warnings : list string;
  snowflakeGenerator : SnowflakeIdGenerator;
  inserted : list Category
}.

(** How a call ends: with a value, with a thrown [Error], or not at all. *)
Inductive outcome (A : Type) : Type :=
| Returned (a : A)
| Thrown (message : string)
| Diverged.

Arguments Returned {A} a.
Arguments Thrown {A} message.
Arguments Diverged {A}.

Definition M (A : Type) : Type := Heap -> outcome A * Heap.

Definition ret {A} (a : A) : M A := fun h => (Returned a, h).

Definition bind {A B} (m : M A) (k : A -> M B) : M B :=
  fun h =>
    match m h with
    | (Returned a, h') => k a h'
    | (Thrown e, h') => (Thrown e, h')
    | (Diverged, h') => (Diverged, h')
    end.

Definition throw {A} (message : string) : M A := fun h => (Thrown message, h).

Definition diverge {A} : M A := fun h => (Diverged, h).

Declare Scope js_scope.
Delimit Scope js_scope with js.
Notation "x <- m ;; k" := (bind m (fun x => k))
  (at level 61, m at next level, right associativity) : js_scope.
Notation "m ;; k" := (bind m (fun _ => k))
  (at level 61, right associativity) : js_scope.
Local Open Scope js_scope.

Definition with_generator (g : SnowflakeIdGenerator) (h : Heap) : Heap :=
  {| clockReads := clockReads h; queries := queries h; warnings := warnings h;
     snowflakeGenerator := g; inserted := inserted h |}.

Definition this : M SnowflakeIdGenerator :=
  fun h => (Returned (snowflakeGenerator h), h).

Definition set_sequence (v : Z) : M unit :=
  fun h =>
    let g := snowflakeGenerator h in
    (Returned tt,
     with_generator {| datacenterId := datacenterId g; workerId := workerId g;
                       sequence := v; lastTimestamp := lastTimestamp g |} h).

Definition set_lastTimestamp (v : Z) : M unit :=
  fun h =>
    let g := snowflakeGenerator h in
    (Returned tt,
     with_generator {| datacenterId := datacenterId g; workerId := workerId g;
                       sequence := sequence g; lastTimestamp := v |} h).

(** Effects that always return are plain state transformers, lifted into
    [M] where they are sequenced with code that may throw. *)
Definition lift {A} (f : Heap -> A * Heap) : M A :=
  fun h => let '(a, h') := f h in (Returned a, h').

(** [Date.now()]: the next reading of the clock. *)
Definition now (E : Env) (h : Heap) : Z * Heap :=
  (Date_now E (clockReads h),
   {| clockReads := S (clockReads h); queries := queries h;
      warnings := warnings h; snowflakeGenerator := snowflakeGenerator h;
      inserted := inserted h |}).

(** [console.warn(line)]. *)
Definition console_warn (line : string) (h : Heap) : unit * Heap :=
  (tt,
   {| clockReads := clockReads h; queries := queries h;
      warnings := warnings h ++ [line];
      snowflakeGenerator := snowflakeGenerator h; inserted := inserted h |}).

(** One awaited existence query: a round-trip to the store. *)
Definition ask (E : Env) (sc : Scope) (slug : string) (h : Heap) : bool * Heap :=
  (store E (List.length (queries h)) sc slug,
   {| clockReads := clockReads h; queries := queries h ++ [(sc, slug)];
      warnings := warnings h; snowflakeGenerator := snowflakeGenerator h;
      inserted := inserted h |}).

(** The [catch] of [createBatch]: a duplicate key is reported in the
    repository's words, any other error is thrown again as it is. *)
Definition batchError (error : SqlError) : string :=
  if String.eqb (sql_code error) "ER_DUP_ENTRY" then
    "One or more category slugs already exist for this site. Please try again."
  else sql_message error.

(** [categoryRepository.createBatch(categories)] ([CategoryRepository],
    lines 487-523 of [app.ts]): nothing is sent for an empty batch;
    otherwise one [INSERT] of all rows, then one [SELECT] of the rows with
    their ids, both inside the [try]. *)
Definition createBatch (E : Env) (categories : list Category)
  : M (list Category) :=
  fun h =>
    if Nat.eqb (List.length categories) 0 then (Returned [], h)
    else
      match execute_insert E (inserted h) categories with
      | Some error => (Thrown (batchError error), h)
      | None =>
          let h1 :=
            {| clockReads := clockReads h; queries := queries h;
               warnings := warnings h;
               snowflakeGenerator := snowflakeGenerator h;
               inserted := inserted h ++ categories |} in
          match execute_select E (inserted h1) (map cat_id categories) with
          | inl error => (Thrown (batchError error), h1)
          | inr rows => (Returned rows, h1)
          end
      end.

(* ===================================================================== *)
(** ** [utils/snowflake.ts] *)
(* ===================================================================== *)

Module Snowflake.

Definition epoch : Z := 1609459200000.

Definition datacenterIdBits : Z := 5.
Definition workerIdBits : Z := 5.
Definition sequenceBits : Z := 12.

Definition maxDatacenterId : Z := Z.shiftl 1 datacenterIdBits - 1.
Definition maxWorkerId : Z := Z.shiftl 1 workerIdBits - 1.
Definition maxSequence : Z := Z.shiftl 1 sequenceBits - 1.

Definition workerIdShift : Z := sequenceBits.
Definition datacenterIdShift : Z := sequenceBits + workerIdBits.
Definition timestampLeftShift : Z :=
  sequenceBits + workerIdBits + datacenterIdBits.

(** [new SnowflakeIdGenerator(datacenterId, workerId)] on integral
    arguments. *)
Definition constructor (datacenterId workerId : Z)
  : outcome SnowflakeIdGenerator :=
  if (datacenterId <? 0) || (datacenterId >? maxDatacenterId) then
    Thrown ("Datacenter ID must be 0 - " ++ Js.bigint_toString maxDatacenterId)%string
  else if (workerId <? 0) || (workerId >? maxWorkerId) then
    Thrown ("Worker ID must be 0 - " ++ Js.bigint_toString maxWorkerId)%string
  else
    Returned {| datacenterId := datacenterId; workerId := workerId;
                sequence := 0; lastTimestamp := -1 |}.

Definition currentTimestamp (E : Env) : M Z := lift (now E).

(** The [while (ts <= lastTimestamp)] loop of [waitNextMillis], entered
    with the reading [ts]; [fuel] bounds the further readings taken. *)
Fixpoint waitLoop (E : Env) (fuel : nat) (lastTimestamp ts : Z) : M Z :=
  if ts <=? lastTimestamp then
    match fuel with
    | O => diverge
    | S fuel' =>
        ts' <- currentTimestamp E ;;
        waitLoop E fuel' lastTimestamp ts'
    end
  else ret ts.

Definition waitNextMillis (E : Env) (fuel : nat) (lastTimestamp : Z) : M Z :=
  ts <- currentTimestamp E ;;
  waitLoop E fuel lastTimestamp ts.

(** The value assembled in [const id = ...]. *)
Definition assemble (g : SnowflakeIdGenerator) (timestamp : Z) : Z :=
  Z.lor
    (Z.lor
       (Z.lor (Z.shiftl (timestamp - epoch) timestampLeftShift)
              (Z.shiftl (datacenterId g) datacenterIdShift))
       (Z.shiftl (workerId g) workerIdShift))
    (sequence g).

Definition generate (E : Env) (fuel : nat) : M string :=
  timestamp <- currentTimestamp E ;;
  g <- this ;;
  if timestamp <? lastTimestamp g then throw "Clock moved backwards"
  else
    timestamp <-
      (if timestamp =? lastTimestamp g then
         set_sequence (Z.land (sequence g + 1) maxSequence) ;;
         g1 <- this ;;
         if sequence g1 =? 0
         then waitNextMillis E fuel (lastTimestamp g1)
         else ret timestamp
       else
         set_sequence 0 ;;
         ret timestamp) ;;
    set_lastTimestamp timestamp ;;
    g2 <- this ;;
    ret (Js.bigint_toString (assemble g2 timestamp)).

(** [n] successive calls on the same instance: a caller that catches a
    thrown error goes on calling; after a call that never returns there
    is no next call. *)
Fixpoint generateMany (E : Env) (fuel : nat) (n : nat) (h : Heap)
  : list (outcome string) * Heap :=
  match n with
  | O => ([], h)
  | S n' =>
      match generate E fuel h with
      | (Diverged, h') => ([Diverged], h')
      | (r, h') =>
          let '(rs, h'') := generateMany E fuel n' h' in (r :: rs, h'')
      end
  end.

(** The identifiers among the outcomes of a run, in issuance order. *)
Fixpoint issued (rs : list (outcome string)) : list string :=
  match rs with
  | [] => []
  | Returned s :: rs' => s :: issued rs'
  | _ :: rs' => issued rs'
  end.

(** Decoding an identifier into its fields. *)
Definition timestampField (id : Z) : Z := Z.shiftr id timestampLeftShift.
Definition datacenterField (id : Z) : Z :=
  Z.land (Z.shiftr id datacenterIdShift) maxDatacenterId.
Definition workerField (id : Z) : Z :=
  Z.land (Z.shiftr id workerIdShift) maxWorkerId.
Definition sequenceField (id : Z) : Z := Z.land id maxSequence.

(** The identifier a generator issued last, once it has issued one: the
    fields it holds, assembled. *)
Definition lastId (g : SnowflakeIdGenerator) : Z :=
  assemble g (lastTimestamp g).

(** What the constructor guarantees and [generate] keeps. *)
Definition inRange (g : SnowflakeIdGenerator) : Prop :=
  0 <= datacenterId g <= maxDatacenterId /\
  0 <= workerId g <= maxWorkerId /\
  0 <= sequence g <= maxSequence.

End Snowflake.

(* ===================================================================== *)
(** ** [utils/slugify.ts] *)
(* ===================================================================== *)

(** [generateSlug(title, suffix?)]; [slugify E] is the package called with
    [{lower, strict, locale: 'en', trim, replacement: '-'}]. *)
Definition generateSlug (E : Env) (title : string) (suffix : option string)
  : string :=
  let baseSlug := slugify E title in
  match suffix with
  | Some sfx =>
      if Js.truthy suffix then (baseSlug ++ "-" ++ sfx)%string else baseSlug
  | None => baseSlug
  end.

(** [generateUniqueSlug(title)]: one reading of the clock per call. *)
Definition generateUniqueSlug (E : Env) (title : string) (h : Heap)
  : string * Heap :=
  let '(t, h') := now E h in
  (generateSlug E title (Some (Js.toString36 t)), h').

(** The npm [slugify] package is not part of the repository; the code is
    verified for any [slugify E].  To run it, the transform the
    specification describes is written out here for ASCII titles; it is
    used on titles made of letters, digits and spaces only. *)
Module Transform.

Definition code (c : ascii) : nat := nat_of_ascii c.

Definition isSpace (c : ascii) : bool :=
  (Nat.eqb (code c) 32 || (Nat.leb 9 (code c) && Nat.leb (code c) 13))%bool.

Definition isUpper (c : ascii) : bool :=
  (Nat.leb 65 (code c) && Nat.leb (code c) 90)%bool.

Definition isLowerOrDigit (c : ascii) : bool :=
  ((Nat.leb 97 (code c) && Nat.leb (code c) 122)
   || (Nat.leb 48 (code c) && Nat.leb (code c) 57))%bool.

Definition lower (c : ascii) : ascii :=
  if isUpper c then ascii_of_nat (code c + 32) else c.

(** ASCII punctuation: the printable characters that are neither a
    letter, a digit nor the space. *)
Definition isPunctuation (c : ascii) : bool :=
  (Nat.leb 33 (code c) && Nat.leb (code c) 126
   && negb (isUpper c) && negb (isLowerOrDigit c))%bool.

(** [pending]: a separator is owed before the next kept character.  A
    run of white space and punctuation owes one separator; any other
    character outside the restricted set is stripped. *)
Fixpoint go (pending : bool) (s : string) : string :=
  match s with
  | EmptyString => EmptyString
  | String c s' =>
      if (isSpace c || isPunctuation c)%bool then go true s'
      else if (isUpper c || isLowerOrDigit c)%bool then
        let rest := String (lower c) (go false s') in
        if pending then String "-" rest else rest
      else go pending s'
  end.

(** Leading separators are dropped, so [go] starts with nothing owed;
    after them something is owed only once a character was kept. *)
Fixpoint dropLeading (s : string) : string :=
  match s with
  | String c s' =>
      if (isSpace c || isPunctuation c)%bool then dropLeading s' else s
  | EmptyString => EmptyString
  end.

(** Modelled from the spec: the text transform of the npm [slugify]
    package, which is missing from the sources: "lowercase,
    transliterate/strip to a restricted character set, collapse
    whitespace/punctuation runs to a single separator, trim
    leading/trailing separators". *)
Definition transform (title : string) : string := go false (dropLeading title).

End Transform.

(* ===================================================================== *)
(** ** More JavaScript string primitives *)
(* ===================================================================== *)

Definition bytes (l : list nat) : string :=
  string_of_list_ascii (map ascii_of_nat l).

(** The characters [trim] strips, UTF-8 encoded: the WhiteSpace and
    LineTerminator code points of ECMAScript, U+0009 to U+000D, U+0020,
    U+00A0, U+1680, U+2000 to U+200A, U+2028, U+2029, U+202F, U+205F,
    U+3000 and U+FEFF. *)
Definition whiteSpace : list string :=
  map bytes
      [[9]; [10]; [11]; [12]; [13]; [32]; [194; 160]; [225; 154; 128];
       [226; 128; 128]; [226; 128; 129]; [226; 128; 130]; [226; 128; 131];
       [226; 128; 132]; [226; 128; 133]; [226; 128; 134]; [226; 128; 135];
       [226; 128; 136]; [226; 128; 137]; [226; 128; 138];
       [226; 128; 168]; [226; 128; 169]; [226; 128; 175];
       [226; 129; 159]; [227; 128; 128]; [239; 187; 191]]%nat.

(** [s] without the first [n] bytes. *)
Fixpoint drop (n : nat) (s : string) : string :=
  match n, s with
  | S n', String _ s' => drop n' s'
  | _, _ => s
  end.

(** Characters of [ws] are taken off the front of [s] for as long as it
    starts with one; [fuel] bounds their number. *)
Fixpoint strip (fuel : nat) (ws : list string) (s : string) : string :=
  match fuel with
  | O => s
  | S fuel' =>
      match find (fun w => String.prefix w s) ws with
      | Some w => strip fuel' ws (drop (String.length w) s)
      | None => s
      end
  end.

Definition reverse (s : string) : string :=
  string_of_list_ascii (rev (list_ascii_of_string s)).

Definition trimStart (s : string) : string :=
  strip (String.length s) whiteSpace s.

Definition trimEnd (s : string) : string :=
  reverse (strip (String.length s) (map reverse whiteSpace) (reverse s)).

(** [String.prototype.trim]. *)
Definition trim (s : string) : string := trimEnd (trimStart s).

(** U+00A0, and [s.repeat(n)]. *)
Definition noBreakSpace : string := bytes [194; 160]%nat.

Fixpoint times (n : nat) (s : string) : string :=
  match n with
  | O => EmptyString
  | S n' => (s ++ times n' s)%string
  end.

(** [s.includes(k)]. *)
Fixpoint includes (s k : string) : bool :=
  (String.prefix k s
   || match s with
      | EmptyString => false
      | String _ s' => includes s' k
      end)%bool.

(** [s.endsWith(k)] for a one-character [k]. *)
Fixpoint endsWithChar (s : string) (k : ascii) : bool :=
  match s with
  | EmptyString => false
  | String c EmptyString => Ascii.eqb c k
  | String _ s' => endsWithChar s' k
  end.

(** [s.split(sep)] for a one-character separator: never empty, [""]
    gives [[""]]. *)
Fixpoint split (sep : ascii) (s : string) : list string :=
  match s with
  | EmptyString => [EmptyString]
  | String c s' =>
      if Ascii.eqb c sep then EmptyString :: split sep s'
      else match split sep s' with
           | piece :: pieces => String c piece :: pieces
           | [] => [String c EmptyString]
           end
  end.

(** [Boolean(s)] on a string. *)
Definition nonEmpty (s : string) : bool :=
  match s with
  | EmptyString => false
  | String _ _ => true
  end.

(* ===================================================================== *)
(** ** [services/CrawlSite.service.ts]: slug resolution *)
(* ===================================================================== *)

Module CrawlSiteService.

Definition maxSlugAttempts : nat := 5.

(** The loop
    [while (await exists(slug) && slugAttempts < maxSlugAttempts)
       { slug = generateUniqueSlug(title); slugAttempts++; }]
    entered with the current [slug] and [slugAttempts]; it returns their
    final values.  The existence query is the left operand of [&&], so
    it is awaited on every evaluation of the condition. *)
Equations? slugLoop (E : Env) (sc : Scope) (title : string)
           (slug : string) (slugAttempts : nat) (h : Heap)
  : (string * nat) * Heap
  by wf (maxSlugAttempts - slugAttempts)%nat lt :=
  slugLoop E sc title slug slugAttempts h with ask E sc slug h => {
    | (true, h1) with lt_dec slugAttempts maxSlugAttempts => {
        | left _ with generateUniqueSlug E title h1 => {
            | (slug', h2) := slugLoop E sc title slug' (S slugAttempts) h2 };
        | right _ := ((slug, slugAttempts), h1) };
    | (false, h1) := ((slug, slugAttempts), h1) }.
Proof.
  unfold maxSlugAttempts in l.
  do 5 (destruct slugAttempts as [|slugAttempts]; [lia|]).
  lia.
Qed.

(** Lines 52-64 of [initializeCrawl], 232-247 of [modifyCrawl] and
    757-771 of [updateCategory]: first candidate, retry loop, and the
    [throw] when the attempts are used up.  The three differ in the
    query asked and in the message thrown. *)
Definition resolveSlug (E : Env) (sc : Scope) (message : string)
           (title : string) : M string :=
  slug <- lift (generateUniqueSlug E title) ;;
  r <- lift (slugLoop E sc title slug 0) ;;
  let '(slug, slugAttempts) := r in
  if (maxSlugAttempts <=? slugAttempts)%nat then throw message
  else ret slug.

Definition initializeCrawl_slug (E : Env) (title : string) : M string :=
  resolveSlug E SlugExists
    "Failed to generate unique slug. Please try a different title." title.

Definition modifyCrawl_slug (E : Env) (siteId title : string) : M string :=
  resolveSlug E (SlugExistsExcludingId siteId)
    "Failed to generate unique slug. Please try a different title." title.

Definition updateCategory_slug (E : Env) (siteId categoryId title : string)
  : M string :=
  resolveSlug E (SlugExistsForSiteExcludingId siteId categoryId)
    "Failed to generate unique slug. Please try again." title.

Record ICreateCategoryDTO : Type := {
  title_selector : string;
  link_selector : string
}.

(** One entry of [ICreateCategoryResponse.categories]. *)
Record ICategoryItem : Type := {
  item_id : string;
  item_title : string;
  item_slug : string;
  item_title_selector : string;
  item_link_selector : string
}.

Record ICreateCategoryResponse : Type := {
  site_id : string;
  total_created : nat;
  categories : list ICategoryItem
}.

(** The [cat => ({ id, title, slug, title_selector, link_selector })] of
    the response. *)
Definition categoryItem (cat : Category) : ICategoryItem :=
  {| item_id := cat_id cat; item_title := cat_title cat;
     item_slug := cat_slug cat;
     item_title_selector := cat_title_selector cat;
     item_link_selector := cat_link_selector cat |}.

Definition dquote : string := String (ascii_of_nat 34) EmptyString.

(** The [for (const title of categoryTitles)] loop of [crawlCategory]
    (lines 578-610), with the batch collected so far. *)
Fixpoint crawlCategory_loop (E : Env) (fuel : nat) (siteId : string)
         (data : ICreateCategoryDTO) (categoryTitles : list string)
         (categoriesToCreate : list Category) : M (list Category) :=
  match categoryTitles with
  | [] => ret categoriesToCreate
  | title :: rest =>
      slug <- lift (generateUniqueSlug E title) ;;
      r <- lift (slugLoop E (SlugExistsForSite siteId) title slug 0) ;;
      let '(slug, slugAttempts) := r in
      if (maxSlugAttempts <=? slugAttempts)%nat then
        lift (console_warn
                ("Failed to generate unique slug for " ++ dquote ++ title
                 ++ dquote ++ ". Skipping...")%string) ;;
        crawlCategory_loop E fuel siteId data rest categoriesToCreate
      else
        categoryId <- Snowflake.generate E fuel ;;
        crawlCategory_loop E fuel siteId data rest
          (categoriesToCreate ++
           [{| cat_id := categoryId; cat_site_id := siteId;
               cat_title := title; cat_slug := slug;
               cat_title_selector := trim (title_selector data);
               cat_link_selector := trim (link_selector data) |}])
  end.

(** [crawlCategory] from step 4 on (lines 575-631), given the titles
    scraped from the page. *)
Definition crawlCategory_batch (E : Env) (fuel : nat) (siteId : string)
           (data : ICreateCategoryDTO) (categoryTitles : list string)
  : M ICreateCategoryResponse :=
  categoriesToCreate <- crawlCategory_loop E fuel siteId data categoryTitles [] ;;
  if Nat.eqb (List.length categoriesToCreate) 0 then
    throw "Failed to generate slugs for any category. Please try again."
  else
    createdCategories <- createBatch E categoriesToCreate ;;
    ret {| site_id := siteId;
           total_created := List.length createdCategories;
           categories := map categoryItem createdCategories |}.

(** The candidate produced by the [k]-th reading of the clock. *)
Definition candidate (E : Env) (title : string) (k : nat) : string :=
  (slugify E title ++ "-" ++ Js.toString36 (Date_now E k))%string.

(** The slug of the [i]-th evaluation of the loop condition, for a loop
    entered with [slug] when the clock had been read [c] times. *)
Definition checked (E : Env) (title slug : string) (c i : nat) : string :=
  match i with
  | O => slug
  | S j => candidate E title (c + j)
  end.

(** What the store answers to the [i]-th existence query of a
    resolution started in heap [h]; its [i]-th candidate comes from the
    [i]-th reading of the clock after [h]. *)
Definition answer (E : Env) (sc : Scope) (title : string) (h : Heap)
           (i : nat) : bool :=
  store E (List.length (queries h) + i) sc
        (candidate E title (clockReads h + i)).

(** The store was asked about [slug] and answered that no row has it. *)
Definition foundFree (E : Env) (sc : Scope) (slug : string) (h : Heap)
  : Prop :=
  exists q, nth_error (queries h) q = Some (sc, slug) /\
            store E q sc slug = false.


(** The existence queries a call added to the heap. *)
Definition roundTrips (h h' : Heap) : nat :=
  (List.length (queries h') - List.length (queries h))%nat.

End CrawlSiteService.

(* ===================================================================== *)
(** ** Worlds used to run the code on concrete inputs *)
(* ===================================================================== *)

(** A heap holding a given generator and nothing else yet. *)
Definition freshHeap (g : SnowflakeIdGenerator) : Heap :=
  {| clockReads := 0; queries := []; warnings := [];
     snowflakeGenerator := g; inserted := [] |}.

(** The generator of the exported singleton with the default ids. *)
Definition generator11 : SnowflakeIdGenerator :=
  {| datacenterId := 1; workerId := 1; sequence := 0; lastTimestamp := -1 |}.

(** A clock that shows [t0] forever. *)
Definition frozenClock (t0 : Z) : nat -> Z := fun _ => t0.

(** A clock that starts at [t0] and advances one millisecond per reading. *)
Definition tickingClock (t0 : Z) : nat -> Z := fun k => t0 + Z.of_nat k.

(** A store in which the first [n] queries find the slug taken and every
    later one finds it free. *)
Definition takenFirst (n : nat) : nat -> Scope -> string -> bool :=
  fun k _ _ => Nat.ltb k n.

(** A store holding no row at all. *)
Definition emptyStore : nat -> Scope -> string -> bool := fun _ _ _ => false.

(** The two keys of the [categories] table ([database/schema.sql]): [id]
    is the primary key, and [unique_slug_per_site] forbids two rows with
    the same [(site_id, slug)]. *)
Definition sameKey (a b : Category) : bool :=
  (String.eqb (cat_id a) (cat_id b)
   || (String.eqb (cat_site_id a) (cat_site_id b)
       && String.eqb (cat_slug a) (cat_slug b)))%bool.

Fixpoint keysClash (rows : list Category) : bool :=
  match rows with
  | [] => false
  | r :: rest => (existsb (sameKey r) rest || keysClash rest)%bool
  end.

(** A table that holds what this process inserted and keeps its keys: an
    [INSERT] that would break one is refused with [ER_DUP_ENTRY], and
    the [SELECT] returns the rows with the ids asked for, in table order. *)
Definition tableInsert (table rows : list Category) : option SqlError :=
  if keysClash (table ++ rows) then
    Some {| sql_code := "ER_DUP_ENTRY";
            sql_message := "Duplicate entry for key 'unique_slug_per_site'" |}
  else None.

Definition tableSelect (table : list Category) (ids : list string)
  : SqlError + list Category :=
  inr (filter (fun r => existsb (String.eqb (cat_id r)) ids) table).

(** A store whose connection drops after the [INSERT] went through. *)
Definition connectionLost : SqlError :=
  {| sql_code := "PROTOCOL_CONNECTION_LOST";
     sql_message := "Connection lost: The server closed the connection." |}.

Definition droppedSelect (table : list Category) (ids : list string)
  : SqlError + list Category := inl connectionLost.

Definition world (clock : nat -> Z) (st : nat -> Scope -> string -> bool) : Env :=
  {| Date_now := clock; slugify := Transform.transform; store := st;
     execute_insert := tableInsert; execute_select := tableSelect |}.

(** The same world with a connection that drops before the rows are read
    back. *)
Definition droppingWorld (clock : nat -> Z)
           (st : nat -> Scope -> string -> bool) : Env :=
  {| Date_now := clock; slugify := Transform.transform; store := st;
     execute_insert := tableInsert; execute_select := droppedSelect |}.

(** The store keeps [unique_slug_per_site]: it refuses with
    [ER_DUP_ENTRY] every [INSERT] in which two rows have the same site and
    the same slug. *)
Definition keepsUniqueSlugPerSite (E : Env) : Prop :=
  forall table pre a mid b post,
    cat_site_id a = cat_site_id b -> cat_slug a = cat_slug b ->
    exists error,
      execute_insert E table (pre ++ a :: mid ++ b :: post) = Some error /\
      sql_code error = "ER_DUP_ENTRY".

(** A crawl of site 7 that scraped two category titles, run against a
    store in which the first six existence queries find the slug taken. *)
Definition crowdedWorld : Env :=
  world (tickingClock 1700000000000) (takenFirst 6).

Definition selectors : CrawlSiteService.ICreateCategoryDTO :=
  {| CrawlSiteService.title_selector := "h2.category-title";
     CrawlSiteService.link_selector := "a.category-link" |}.

Definition scrapedTitles : list string := ["News"; "Sport"].

(** A generator with its two mutable fields overwritten. *)
Definition reseq (g : SnowflakeIdGenerator) (sq ts : Z) : SnowflakeIdGenerator :=
  {| datacenterId := datacenterId g; workerId := workerId g;
     sequence := sq; lastTimestamp := ts |}.

(* ===================================================================== *)
(** ** [middlewares/errorHandler.ts] *)
(* ===================================================================== *)

Record IErrorResponse : Type := {
  success : bool;
  error : string;
  message : string;
  statusCode : Z
}.

(** [errorHandler(error, _req, res, _next)], as the response it sends for
    an error with the given message; the two [console.error] lines are
    not part of it. *)
Definition errorHandler (error_message : string) : IErrorResponse :=
  let '(statusCode, errorType) :=
    if (includes error_message "not found"
        || includes error_message "Not Found")%bool then
      (404, "Not Found")
    else if (includes error_message "required"
             || includes error_message "Invalid"
             || includes error_message "must be"
             || includes error_message "Validation")%bool then
      (400, "Bad Request")
    else if (includes error_message "already exists"
             || includes error_message "duplicate")%bool then
      (409, "Conflict")
    else (500, "Internal Server Error") in
  {| success := false;
     error := errorType;
     message := if nonEmpty error_message then error_message
                else "An unexpected error occurred";
     statusCode := statusCode |}.

(* ===================================================================== *)
(** ** [services/CrawlSite.service.ts]: creating and modifying a task *)
(* ===================================================================== *)

Inductive CrawlStatus : Type := INIT | RUNNING | DONE | ERROR.

(** [Omit<ICrawlSite, 'created_at' | 'updated_at'>]: the row written.
    [link_type] is the string that arrived, which need not be one of the
    two values of the enum. *)
Record CrawlSiteData : Type := {
  cs_id : string;
  cs_link_type : string;
  cs_title : string;
  cs_crawl_link : string;
  cs_slug : string;
  cs_status : CrawlStatus;
  cs_categories : option string;
  cs_sub_categories : option string
}.

(** [CrawlSiteModel]: a row as read back, with its two dates in
    milliseconds. *)
Record CrawlSiteModel : Type := {
  row : CrawlSiteData;
  created_at : Z;
  updated_at : Z
}.

Record ICreateCrawlDTO : Type := {
  c_link_type : string;
  c_title : string;
  c_crawl_link : string
}.

(** All three fields optional; [None] is [undefined]. *)
Record IModifyCrawlDTO : Type := {
  m_link_type : option string;
  m_title : option string;
  m_crawl_link : option string
}.

(** What the service calls for persistence and for parsing a URL, as it
    answers during one call: [findById], [create] and [update] of
    [CrawlSiteRepository], and whether [new URL(s)] succeeds with protocol
    [http:] or [https:]. *)
Record Backend : Type := {
  sites_findById : string -> option CrawlSiteModel;
  sites_create : CrawlSiteData -> outcome CrawlSiteModel;
  sites_update : string -> CrawlSiteData -> outcome CrawlSiteModel;
  isHttpUrl : string -> bool
}.

(** [Object.values(LinkType).includes(x)]. *)
Definition isLinkType (x : string) : bool :=
  existsb (String.eqb x) ["URL"; "API"].

(** [validateCreateCrawlData(data)]. *)
Definition validateCreateCrawlData (data : ICreateCrawlDTO) : outcome unit :=
  if (negb (nonEmpty (c_link_type data)) || negb (isLinkType (c_link_type data)))%bool
  then Thrown "Invalid link_type. Must be either URL or API."
  else if (negb (nonEmpty (c_title data))
           || Nat.eqb (Js.length (trim (c_title data))) 0)%bool
  then Thrown "Title is required and must be a non-empty string."
  else if Nat.ltb 255 (Js.length (trim (c_title data)))
  then Thrown "Title must not exceed 255 characters."
  else if (negb (nonEmpty (c_crawl_link data))
           || Nat.eqb (Js.length (trim (c_crawl_link data))) 0)%bool
  then Thrown "Crawl link is required and must be a non-empty string."
  else Returned tt.

(** [validateModifyCrawlData(data)]: the same four checks on optional
    fields. *)
Definition validateModifyCrawlData (data : IModifyCrawlDTO) : outcome unit :=
  if (negb (Js.truthy (m_link_type data))
      || negb (match m_link_type data with
               | Some x => isLinkType x
               | None => false
               end))%bool
  then Thrown "Invalid link_type. Must be either URL or API."
  else if (negb (Js.truthy (m_title data))
           || match m_title data with
              | Some x => Nat.eqb (Js.length (trim x)) 0
              | None => true
              end)%bool
  then Thrown "Title is required and must be a non-empty string."
  else if match m_title data with
          | Some x => Nat.ltb 255 (Js.length (trim x))
          | None => false
          end
  then Thrown "Title must not exceed 255 characters."
  else if (negb (Js.truthy (m_crawl_link data))
           || match m_crawl_link data with
              | Some x => Nat.eqb (Js.length (trim x)) 0
              | None => true
              end)%bool
  then Thrown "Crawl link is required and must be a non-empty string."
  else Returned tt.

(** [CrawlSiteModel.isValidCrawlLink]; [isValidUrl] and
    [isValidApiEndpoint] are the same test. *)
Definition isValidCrawlLink (B : Backend) (link_type crawl_link : string)
  : bool :=
  if String.eqb link_type "URL" then isHttpUrl B crawl_link
  else if String.eqb link_type "API" then isHttpUrl B crawl_link
  else false.

(** A finished computation placed in [M]. *)
Definition of_outcome {A : Type} (o : outcome A) : M A := fun h => (o, h).

(** [initializeCrawl(data)]. *)
Definition initializeCrawl (E : Env) (B : Backend) (fuel : nat)
           (data : ICreateCrawlDTO) : M CrawlSiteModel :=
  of_outcome (validateCreateCrawlData data) ;;
  taskId <- Snowflake.generate E fuel ;;
  slug <- CrawlSiteService.initializeCrawl_slug E (c_title data) ;;
  let crawlSiteData :=
    {| cs_id := taskId;
       cs_link_type := c_link_type data;
       cs_title := trim (c_title data);
       cs_crawl_link := trim (c_crawl_link data);
       cs_slug := slug;
       cs_status := INIT;
       cs_categories := None;
       cs_sub_categories := None |} in
  if negb (isValidCrawlLink B (cs_link_type crawlSiteData)
                            (cs_crawl_link crawlSiteData))
  then throw ("Invalid " ++ c_link_type data
              ++ " format. Please provide a valid URL.")%string
  else of_outcome (sites_create B crawlSiteData).

(** [`${x}`] for an optional string. *)
Definition template (x : option string) : string :=
  match x with
  | Some s => s
  | None => "undefined"
  end.

(** [a ?? b]. *)
Definition orElse {A : Type} (a : option A) (b : A) : A :=
  match a with
  | Some x => x
  | None => b
  end.

(** [modifyCrawl(siteId, data)]. *)
Definition modifyCrawl (E : Env) (B : Backend) (siteId : string)
           (data : IModifyCrawlDTO) : M CrawlSiteModel :=
  match sites_findById B siteId with
  | None => throw "Crawl task not found."
  | Some existingTask =>
      let update_link_type := m_link_type data in
      titleAndSlug <-
        match m_title data with
        | Some title =>
            of_outcome
              (validateModifyCrawlData
                 {| m_link_type := None; m_title := Some title;
                    m_crawl_link := None |}) ;;
            slug <- CrawlSiteService.modifyCrawl_slug E siteId title ;;
            ret (Some (trim title), Some slug)
        | None => ret (None, None)
        end ;;
      let '(update_title, update_slug) := titleAndSlug in
      let update_crawl_link := option_map trim (m_crawl_link data) in
      let updatedCrawlSiteData :=
        {| cs_id := siteId;
           cs_link_type :=
             orElse update_link_type (cs_link_type (row existingTask));
           cs_title := orElse update_title (cs_title (row existingTask));
           cs_crawl_link :=
             orElse update_crawl_link (cs_crawl_link (row existingTask));
           cs_slug := orElse update_slug (cs_slug (row existingTask));
           cs_status := INIT;
           cs_categories := None;
           cs_sub_categories := None |} in
      if negb (isValidCrawlLink B (cs_link_type updatedCrawlSiteData)
                                (cs_crawl_link updatedCrawlSiteData))
      then throw ("Invalid " ++ template (m_link_type data)
                  ++ " format. Please provide a valid URL.")%string
      else of_outcome (sites_update B siteId updatedCrawlSiteData)
  end.

(* ===================================================================== *)
(** ** [services/CrawlSite.service.ts]: listing the sites *)
(* ===================================================================== *)






(* ===================================================================== *)
(** ** [validators/CrawlSite.validator.ts] *)
(* ===================================================================== *)

(** [validateInitializeCrawl(req, res, next)] on a body whose three
    fields are strings or absent: the response sent, or [None] when
    [next()] is called. *)
Definition validateInitializeCrawl (link_type title crawl_link : option string)
  : option IErrorResponse :=
  let errors :=
    (match link_type with
     | Some x =>
         if negb (Js.truthy link_type) then ["link_type is required"]
         else if negb (isLinkType x) then
                [("link_type must be either " ++ CrawlSiteService.dquote ++ "URL"
                  ++ CrawlSiteService.dquote ++ " or " ++ CrawlSiteService.dquote
                  ++ "API" ++ CrawlSiteService.dquote)%string]
              else []
     | None => ["link_type is required"]
     end)
    ++ (match title with
        | Some x =>
            if negb (Js.truthy title) then ["title is required"]
            else if Nat.eqb (Js.length (trim x)) 0 then
                   ["title cannot be empty"]
                 else if Nat.ltb 255 (Js.length (trim x)) then
                        ["title must not exceed 255 characters"]
                      else []
        | None => ["title is required"]
        end)
    ++ (match crawl_link with
        | Some x =>
            if negb (Js.truthy crawl_link) then ["crawl_link is required"]
            else if Nat.eqb (Js.length (trim x)) 0 then
                   ["crawl_link cannot be empty"]
                 else []
        | None => ["crawl_link is required"]
        end) in
  if Nat.ltb 0 (List.length errors) then
    Some {| success := false;
            error := "Validation Error";
            message := String.concat "; " errors;
            statusCode := 400 |}
  else None.

(* ===================================================================== *)
(** ** [services/CrawlSite.service.ts]: picking the category titles *)
(* ===================================================================== *)

(** What [page.evaluate] hands back for one matched element: its trimmed
    text content and its [href] attribute, [""] when there is none. *)
Record ElementData : Type := {
  el_text : string;
  el_href : string
}.

Definition homeKeywords : list string :=
  ["home"; "homepage"; "home page"; "trang chủ"; "trangchu"; "trang-chu";
   "index"; "🏠"; "⌂"].

Definition isHomeKeyword (textLower : string) : bool :=
  existsb (fun keyword =>
             (String.eqb textLower keyword || includes textLower keyword)%bool)
          homeKeywords.

Definition isRootPath (href : string) : bool :=
  (String.eqb href "/" || String.eqb href "#" || String.eqb href ""
   || (endsWithChar href "/"
       && Nat.eqb (List.length (filter nonEmpty (split "/" href))) 0))%bool.

(** The [for] loop of [crawlCategory] over the matched elements, with the
    titles pushed so far; [toLowerCase] is the string method.  The lines
    written with [console.log] for skipped elements are left out. *)
Fixpoint collectTitles (toLowerCase : string -> string)
         (elements : list ElementData) (categoryTitles : list string)
  : list string :=
  match elements with
  | [] => categoryTitles
  | elementData :: rest =>
      let textLower := toLowerCase (el_text elementData) in
      let href := toLowerCase (el_href elementData) in
      if negb (nonEmpty (el_text elementData)) then
        collectTitles toLowerCase rest categoryTitles
      else if (isHomeKeyword textLower || isRootPath href)%bool then
        collectTitles toLowerCase rest categoryTitles
      else
        collectTitles toLowerCase rest (categoryTitles ++ [el_text elementData])
  end.

(** The [catch] of both crawls: whatever was thrown inside is thrown
    again behind a prefix. *)
Definition crawlFailed {A : Type} (o : outcome A) : outcome A :=
  match o with
  | Thrown m => Thrown ("Crawl failed: " ++ m)%string
  | other => other
  end.

(** [crawlCategory], from the matched elements to the titles (the body
    of its [try], after the page was loaded). *)
Definition crawlCategory_titles (toLowerCase : string -> string)
           (title_selector : string) (elements : list ElementData)
  : outcome (list string) :=
  crawlFailed
    (if Nat.eqb (List.length elements) 0 then
       Thrown ("No element found for selector: " ++ title_selector)%string
     else
       let categoryTitles := collectTitles toLowerCase elements [] in
       if Nat.eqb (List.length categoryTitles) 0 then
         Thrown "No valid category found - all elements are home page links or empty"
       else Returned categoryTitles).

(** The [for] loop of [updateCategory]: the text of the first element
    that is neither empty nor a home link, [""] when there is none. *)
Fixpoint firstValidTitle (toLowerCase : string -> string)
         (elements : list ElementData) : string :=
  match elements with
  | [] => EmptyString
  | elementData :: rest =>
      let textLower := toLowerCase (el_text elementData) in
      let href := toLowerCase (el_href elementData) in
      if negb (nonEmpty (el_text elementData)) then
        firstValidTitle toLowerCase rest
      else if (isHomeKeyword textLower || isRootPath href)%bool then
        firstValidTitle toLowerCase rest
      else el_text elementData
  end.

(** [updateCategory], from the matched elements to the title. *)
Definition updateCategory_title (toLowerCase : string -> string)
           (title_selector : string) (elements : list ElementData)
  : outcome string :=
  crawlFailed
    (if Nat.eqb (List.length elements) 0 then
       Thrown ("No element found for selector: " ++ title_selector)%string
     else
       let validCategoryTitle := firstValidTitle toLowerCase elements in
       if negb (nonEmpty validCategoryTitle) then
         Thrown "No valid category found - all elements are home page links or empty"
       else Returned validCategoryTitle).

(** The string is made of slashes only (the empty string included). *)
Fixpoint onlySlashes (s : string) : bool :=
  match s with
  | EmptyString => true
  | String c s' => (Ascii.eqb c "/" && onlySlashes s')%bool
  end.

(** The elements both loops let through: a text that is not empty and
    contains none of the keywords once lower-cased, and a lower-cased
    [href] that is neither ["#"] nor made of slashes only. *)
Definition keepsElement (toLowerCase : string -> string) (e : ElementData)
  : bool :=
  (nonEmpty (el_text e)
   && negb (existsb (includes (toLowerCase (el_text e))) homeKeywords)
   && negb (String.eqb (toLowerCase (el_href e)) "#")
   && negb (onlySlashes (toLowerCase (el_href e))))%bool.

(** ASCII lower-casing, to run the code on ASCII texts. *)
Definition asciiLower (s : string) : string :=
  string_of_list_ascii (map Transform.lower (list_ascii_of_string s)).

(** A backend with one task stored, in which every link that starts with
    [http] parses. *)
Definition storedTask : CrawlSiteModel :=
  {| row := {| cs_id := "42"; cs_link_type := "URL";
               cs_title := "Example Site";
               cs_crawl_link := "https://example.com";
               cs_slug := "example-site-loyw3v28"; cs_status := DONE;
               cs_categories := Some "[]"; cs_sub_categories := None |};
     created_at := 1700000000000; updated_at := 1700000000000 |}.

Definition oneTaskBackend : Backend :=
  {| sites_findById := fun id => if String.eqb id "42" then Some storedTask else None;
     sites_create := fun d =>
       Returned {| row := d; created_at := 1700000000001;
                   updated_at := 1700000000001 |};
     sites_update := fun _ d =>
       Returned {| row := d; created_at := 1700000000000;
                   updated_at := 1700000000002 |};
     isHttpUrl := String.prefix "http" |}.

(** [l] is [l'] with some elements left out, the order kept. *)
Inductive subsequence {A : Type} : list A -> list A -> Prop :=
| subsequence_nil : subsequence [] []
| subsequence_skip (x : A) (l l' : list A) :
    subsequence l l' -> subsequence l (x :: l')
| subsequence_keep (x : A) (l l' : list A) :
    subsequence l l' -> subsequence (x :: l) (x :: l').

(** [l] is [a] and [b] shuffled together, each in its order. *)
Inductive interleave {A : Type} : list A -> list A -> list A -> Prop :=
| interleave_nil : interleave [] [] []
| interleave_left (x : A) (l a b : list A) :
    interleave l a b -> interleave (x :: l) (x :: a) b
| interleave_right (x : A) (l a b : list A) :
    interleave l a b -> interleave (x :: l) a (x :: b).

(** The line [crawlCategory] writes for a title it gives up on. *)
Definition skipWarning (title : string) : string :=
  ("Failed to generate unique slug for " ++ CrawlSiteService.dquote ++ title
   ++ CrawlSiteService.dquote ++ ". Skipping...")%string.

(** A clock that steps back once: its second reading lies 7 ms before
    the first, the later ones advance again. *)
Definition jumpyClock (t0 : Z) : nat -> Z :=
  fun k => match k with
           | 1%nat => t0 - 7
           | _ => t0 + Z.of_nat k
           end.

(** The sampled clock never decreases. *)
Definition monotoneClock (E : Env) : Prop :=
  forall i j, (i <= j)%nat -> Date_now E i <= Date_now E j.

(** Milliseconds from 1970-01-01T00:00:00Z to midnight UTC of a civil
    date ([Date.UTC(y, m - 1, d)]), by the usual era arithmetic. *)
Definition utcMidnight (y m d : Z) : Z :=
  let y' := if m <=? 2 then y - 1 else y in
  let era := y' / 400 in
  let yoe := y' - era * 400 in
  let doy := (153 * (if m >? 2 then m - 3 else m + 9) + 2) / 5 + d - 1 in
  let doe := yoe * 365 + yoe / 4 - yoe / 100 + doy in
  (era * 146097 + doe - 719468) * 86400000.

(** A generator that has issued 4095 identifiers in millisecond [t]. *)
Definition nearlyFull (t : Z) : SnowflakeIdGenerator :=
  {| datacenterId := 1; workerId := 1; sequence := 4094; lastTimestamp := t |}.

(** A clock that shows [t0] for the first [n] readings and [t0 + 1] from
    then on. *)
Definition stuckClock (n : nat) (t0 : Z) : nat -> Z :=
  fun k => if Nat.ltb k n then t0 else t0 + 1.

(* ===================================================================== *)
(** ** Facts about the JavaScript primitives *)
(* ===================================================================== *)

Lemma parseBigInt_toString (z : Z) :
  Js.parseBigInt (Js.bigint_toString z) = Some z.
Proof.
  unfold Js.parseBigInt, Js.bigint_toString.
  rewrite NilZero.isi.
  - simpl. now rewrite DecimalZ.of_to.
  - destruct z; simpl; try discriminate.
    intros [= H]. now apply (Unsigned.to_uint_nonnil p).
  - destruct z; simpl; try discriminate.
    intros [= H]. now apply (Unsigned.to_uint_nonnil p).
Qed.

Lemma bigint_toString_inj (a b : Z) :
  Js.bigint_toString a = Js.bigint_toString b -> a = b.
Proof.
  intros H.
  pose proof (parseBigInt_toString a) as Ha.
  rewrite H, parseBigInt_toString in Ha. congruence.
Qed.

Lemma digits36_nonempty n x acc : Js.digits36 n x acc <> EmptyString.
Proof.
  revert x acc. induction n as [|n IH]; intros x acc; simpl.
  - discriminate.
  - destruct (x / 36 =? 0); [discriminate | apply IH].
Qed.

Lemma toString36_truthy (x : Z) : Js.truthy (Some (Js.toString36 x)) = true.
Proof.
  unfold Js.toString36.
  destruct (x <? 0); simpl; [reflexivity|].
  destruct (Js.digits36 _ x "") eqn:D; [|reflexivity].
  now apply digits36_nonempty in D.
Qed.

Lemma value36_digit36 (d : Z) :
  0 <= d < 36 -> Js.value36_digit (Js.digit36 d) = d.
Proof.
  intros Hd. unfold Js.value36_digit, Js.digit36.
  destruct (Z.ltb_spec d 10).
  - rewrite nat_ascii_embedding by lia.
    destruct (Z.ltb_spec (Z.of_nat (48 + Z.to_nat d)) 58); lia.
  - rewrite nat_ascii_embedding by lia.
    destruct (Z.ltb_spec (Z.of_nat (87 + Z.to_nat d)) 58); lia.
Qed.

Lemma value36_digits36 n :
  forall x acc,
    0 <= x < 36 ^ Z.of_nat (S n) ->
    Js.value36 0 (Js.digits36 n x acc) = Js.value36 x acc.
Proof.
  induction n as [|n IH]; intros x acc Hx.
  - change (36 ^ Z.of_nat 1) with 36 in Hx. simpl.
    rewrite value36_digit36 by (apply Z.mod_pos_bound; lia).
    now rewrite Z.mod_small by lia.
  - simpl Js.digits36.
    pose proof (Z.div_mod x 36 ltac:(lia)) as Hdm.
    pose proof (Z.mod_pos_bound x 36 ltac:(lia)) as Hm.
    destruct (Z.eqb_spec (x / 36) 0) as [Z0|Nz].
    + simpl. rewrite value36_digit36 by assumption. f_equal. lia.
    + rewrite IH.
      * simpl. rewrite value36_digit36 by assumption. f_equal. lia.
      * split; [apply Z.div_pos; lia|].
        apply Z.div_lt_upper_bound; [lia|].
        replace (Z.of_nat (S (S n))) with (Z.succ (Z.of_nat (S n))) in Hx by lia.
        rewrite Z.pow_succ_r in Hx by lia. lia.
Qed.

(** [toString36] writes a non-negative integer in base 36. *)
Lemma value36_toString36 (x : Z) :
  0 <= x -> Js.value36 0 (Js.toString36 x) = x.
Proof.
  intros Hx. unfold Js.toString36.
  destruct (Z.ltb_spec x 0); [lia|].
  rewrite value36_digits36; [reflexivity|].
  split; [assumption|].
  pose proof (Z.log2_nonneg x) as Hl.
  replace (Z.of_nat (S (Z.to_nat (Z.log2 x)))) with (Z.succ (Z.log2 x)) by lia.
  apply Z.lt_le_trans with (2 ^ Z.succ (Z.log2 x)).
  - destruct (Z.eq_dec x 0) as [->|Nz]; [reflexivity|].
    apply Z.log2_spec; lia.
  - apply Z.pow_le_mono_l; lia.
Qed.

Lemma prefix_append (s t : string) : String.prefix s (s ++ t)%string = true.
Proof.
  induction s as [|c s IH]; simpl.
  - now destruct t.
  - destruct (ascii_dec c c); [exact IH | congruence].
Qed.

(* ===================================================================== *)
(** ** Bit fields of an identifier *)
(* ===================================================================== *)

Section Bits.

(** OR-ing a value below [2^n] into a multiple of [2^n] adds it. *)
Lemma lor_low (a b n : Z) :
  0 <= n -> 0 <= b < 2 ^ n -> Z.lor (a * 2 ^ n) b = a * 2 ^ n + b.
Proof.
  intros Hn Hb.
  rewrite <- (Z.add_lor_land (a * 2 ^ n) b).
  assert (Z.land (a * 2 ^ n) b = 0) as ->; [|lia].
  apply Z.bits_inj'. intros i Hi.
  rewrite Z.land_spec, Z.bits_0.
  destruct (Z.lt_ge_cases i n) as [Lt|Ge].
  - now rewrite Z.mul_pow2_bits_low.
  - rewrite andb_comm.
    assert (Z.testbit b i = false) as ->; [|reflexivity].
    destruct (Z.eq_dec b 0) as [->|Nz]; [apply Z.bits_0|].
    apply Z.bits_above_log2; [lia|].
    apply Z.log2_lt_pow2; [lia|].
    pose proof (Z.pow_le_mono_r 2 n i ltac:(lia) Ge). lia.
Qed.

End Bits.

Lemma assemble_sum (g : SnowflakeIdGenerator) (timestamp : Z) :
  Snowflake.inRange g ->
  Snowflake.assemble g timestamp =
  (timestamp - Snowflake.epoch) * 4194304
  + datacenterId g * 131072 + workerId g * 4096 + sequence g.
Proof.
  intros (Hd & Hw & Hs).
  unfold Snowflake.maxDatacenterId, Snowflake.maxWorkerId,
    Snowflake.maxSequence in *.
  unfold Snowflake.datacenterIdBits, Snowflake.workerIdBits,
    Snowflake.sequenceBits in *.
  change (Z.shiftl 1 5 - 1) with 31 in *.
  change (Z.shiftl 1 12 - 1) with 4095 in *.
  unfold Snowflake.assemble, Snowflake.timestampLeftShift,
    Snowflake.datacenterIdShift, Snowflake.workerIdShift,
    Snowflake.datacenterIdBits, Snowflake.workerIdBits, Snowflake.sequenceBits.
  change (12 + 5 + 5) with 22. change (12 + 5) with 17.
  rewrite !Z.shiftl_mul_pow2 by lia.
  set (d := timestamp - Snowflake.epoch).
  rewrite (lor_low d (datacenterId g * 2 ^ 17) 22)
    by (change (2 ^ 17) with 131072; change (2 ^ 22) with 4194304; lia).
  replace (d * 2 ^ 22 + datacenterId g * 2 ^ 17)
    with ((d * 32 + datacenterId g) * 2 ^ 17)
    by (change (2 ^ 22) with (32 * 2 ^ 17); ring).
  rewrite (lor_low _ (workerId g * 2 ^ 12) 17)
    by (change (2 ^ 12) with 4096; change (2 ^ 17) with 131072; lia).
  replace ((d * 32 + datacenterId g) * 2 ^ 17 + workerId g * 2 ^ 12)
    with ((d * 1024 + datacenterId g * 32 + workerId g) * 2 ^ 12)
    by (change (2 ^ 17) with (32 * 2 ^ 12); ring).
  rewrite (lor_low _ (sequence g) 12)
    by (change (2 ^ 12) with 4096; lia).
  change (2 ^ 12) with 4096. ring.
Qed.

Lemma fields_of_sum (d dc w sq : Z) :
  0 <= dc <= 31 -> 0 <= w <= 31 -> 0 <= sq <= 4095 ->
  let id := d * 4194304 + dc * 131072 + w * 4096 + sq in
  Snowflake.timestampField id = d /\
  Snowflake.datacenterField id = dc /\
  Snowflake.workerField id = w /\
  Snowflake.sequenceField id = sq.
Proof.
  intros Hdc Hw Hsq id.
  unfold Snowflake.timestampField, Snowflake.datacenterField,
    Snowflake.workerField, Snowflake.sequenceField.
  change Snowflake.timestampLeftShift with 22.
  change Snowflake.datacenterIdShift with 17.
  change Snowflake.workerIdShift with 12.
  change Snowflake.maxDatacenterId with (Z.ones 5).
  change Snowflake.maxWorkerId with (Z.ones 5).
  change Snowflake.maxSequence with (Z.ones 12).
  rewrite !Z.land_ones, !Z.shiftr_div_pow2 by lia.
  change (2 ^ 22) with 4194304. change (2 ^ 17) with 131072.
  change (2 ^ 12) with 4096. change (2 ^ 5) with 32.
  assert (id / 4194304 = d) as E22
    by (symmetry; apply (Z.div_unique id 4194304 d (dc * 131072 + w * 4096 + sq));
        [left|unfold id]; lia).
  assert (id / 131072 = d * 32 + dc) as E17
    by (symmetry; apply (Z.div_unique id 131072 _ (w * 4096 + sq));
        [left|unfold id]; lia).
  assert (id / 4096 = d * 1024 + dc * 32 + w) as E12
    by (symmetry; apply (Z.div_unique id 4096 _ sq); [left|unfold id]; lia).
  rewrite E22, E17, E12. repeat split.
  - symmetry. apply (Z.mod_unique _ 32 d dc); [left|]; lia.
  - symmetry. apply (Z.mod_unique _ 32 (d * 32 + dc) w); [left|]; lia.
  - symmetry.
    apply (Z.mod_unique id 4096 (d * 1024 + dc * 32 + w) sq);
      [left|unfold id]; lia.
Qed.

(* ===================================================================== *)
(** ** One call of [generate], case by case *)
(* ===================================================================== *)

Ltac run :=
  unfold Snowflake.generate, Snowflake.waitNextMillis,
    Snowflake.currentTimestamp, bind, lift, now, this, set_sequence,
    set_lastTimestamp, throw, ret, diverge, with_generator;
  simpl.

Lemma generate_regressed E fuel h :
  Date_now E (clockReads h) < lastTimestamp (snowflakeGenerator h) ->
  Snowflake.generate E fuel h = (Thrown "Clock moved backwards", snd (now E h)).
Proof.
  intros H. run.
  apply Z.ltb_lt in H. now rewrite H.
Qed.

Lemma generate_later E fuel h :
  let ts := Date_now E (clockReads h) in
  lastTimestamp (snowflakeGenerator h) < ts ->
  let g' := reseq (snowflakeGenerator h) 0 ts in
  Snowflake.generate E fuel h =
  (Returned (Js.bigint_toString (Snowflake.assemble g' ts)),
   with_generator g' (snd (now E h))).
Proof.
  intros ts H g'. run. fold ts.
  assert ((ts <? lastTimestamp (snowflakeGenerator h)) = false) as ->
    by (apply Z.ltb_ge; lia).
  assert ((ts =? lastTimestamp (snowflakeGenerator h)) = false) as ->
    by (apply Z.eqb_neq; lia).
  reflexivity.
Qed.

Lemma generate_same E fuel h :
  let ts := Date_now E (clockReads h) in
  let g := snowflakeGenerator h in
  ts = lastTimestamp g ->
  Z.land (sequence g + 1) Snowflake.maxSequence <> 0 ->
  let g' := reseq g (Z.land (sequence g + 1) Snowflake.maxSequence) ts in
  Snowflake.generate E fuel h =
  (Returned (Js.bigint_toString (Snowflake.assemble g' ts)),
   with_generator g' (snd (now E h))).
Proof.
  intros ts g H Nz g'. run. fold ts. fold g.
  assert ((ts <? lastTimestamp g) = false) as -> by (apply Z.ltb_ge; lia).
  assert ((ts =? lastTimestamp g) = true) as -> by (apply Z.eqb_eq; lia).
  simpl.
  apply Z.eqb_neq in Nz. rewrite Nz. simpl.
  unfold g', reseq. now rewrite H.
Qed.

Lemma generate_wrap E fuel h :
  let ts := Date_now E (clockReads h) in
  let g := snowflakeGenerator h in
  ts = lastTimestamp g ->
  Z.land (sequence g + 1) Snowflake.maxSequence = 0 ->
  Snowflake.generate E fuel h =
  match Snowflake.waitNextMillis E fuel (lastTimestamp g)
          (with_generator (reseq g 0 (lastTimestamp g)) (snd (now E h))) with
  | (Returned ts', h') =>
      let g' := reseq (snowflakeGenerator h') (sequence (snowflakeGenerator h')) ts' in
      (Returned (Js.bigint_toString (Snowflake.assemble g' ts')),
       with_generator g' h')
  | (Thrown e, h') => (Thrown e, h')
  | (Diverged, h') => (Diverged, h')
  end.
Proof.
  intros ts g H Z0. run. fold ts. fold g.
  assert ((ts <? lastTimestamp g) = false) as -> by (apply Z.ltb_ge; lia).
  assert ((ts =? lastTimestamp g) = true) as -> by (apply Z.eqb_eq; lia).
  simpl. rewrite Z0. simpl.
  unfold reseq.
  reflexivity.
Qed.

(** The spin of [waitNextMillis] touches nothing but the clock, never
    throws, and hands back a reading later than [lastTimestamp]. *)
Lemma waitLoop_spec E fuel last :
  forall ts h,
    let '(r, h') := Snowflake.waitLoop E fuel last ts h in
    snowflakeGenerator h' = snowflakeGenerator h /\
    queries h' = queries h /\ warnings h' = warnings h /\
    inserted h' = inserted h /\
    (clockReads h <= clockReads h')%nat /\
    match r with
    | Returned ts' =>
        last < ts' /\
        (ts' = ts \/
         exists k, (clockReads h <= k < clockReads h')%nat /\ ts' = Date_now E k)
    | Thrown _ => False
    | Diverged => True
    end.
Proof.
  induction fuel as [|fuel IH]; intros ts h; simpl.
  - destruct (ts <=? last) eqn:C; run; [repeat split; auto|].
    apply Z.leb_gt in C. repeat split; auto.
  - destruct (ts <=? last) eqn:C; run.
    + specialize (IH (Date_now E (clockReads h)) (snd (now E h))).
      unfold now in IH. simpl in IH.
      destruct (Snowflake.waitLoop E fuel last _ _) as [r h'].
      destruct IH as (G & Q & W & I & R & P).
      repeat split; auto; try lia.
      destruct r as [ts'|e|]; auto.
      destruct P as (L & P). split; [exact L|].
      right. destruct P as [->|(k & Hk & ->)].
      * exists (clockReads h). split; [lia|reflexivity].
      * exists k. split; [lia|reflexivity].
    + apply Z.leb_gt in C. repeat split; auto.
Qed.

(** The spin ends as soon as the clock shows a later millisecond. *)
Lemma waitLoop_total E last :
  forall k fuel ts h,
    (k < fuel)%nat ->
    last < Date_now E (clockReads h + k) ->
    exists ts' h', Snowflake.waitLoop E fuel last ts h = (Returned ts', h').
Proof.
  induction k as [|k IH]; intros fuel ts h Hk Hlate;
    (destruct fuel as [|fuel]; [lia|]); simpl.
  - destruct (ts <=? last); run; [|eauto].
    rewrite Nat.add_0_r in Hlate.
    destruct fuel; simpl;
      (assert ((Date_now E (clockReads h) <=? last) = false) as ->
          by (apply Z.leb_gt; lia)); run; eauto.
  - destruct (ts <=? last); run; [|eauto].
    apply IH; [lia|]. simpl.
    now replace (S (clockReads h + k)) with (clockReads h + S k)%nat by lia.
Qed.

Lemma waitNextMillis_total E last k fuel h :
  (k <= fuel)%nat ->
  last < Date_now E (clockReads h + k) ->
  exists ts' h', Snowflake.waitNextMillis E fuel last h = (Returned ts', h').
Proof.
  intros Hk Hlate.
  unfold Snowflake.waitNextMillis, Snowflake.currentTimestamp, bind, lift.
  simpl.
  destruct k as [|k].
  - rewrite Nat.add_0_r in Hlate.
    assert ((Date_now E (clockReads h) <=? last) = false) as C
        by (apply Z.leb_gt; lia).
    destruct fuel; simpl; rewrite C; run; eauto.
  - apply (waitLoop_total E last k); [lia|]. simpl.
    now replace (S (clockReads h + k)) with (clockReads h + S k)%nat by lia.
Qed.

(** The spin reads the clock until a reading is later than
    [lastTimestamp], and hands back that reading: the first one. *)
Lemma waitLoop_first_later E last :
  forall k fuel ts h,
    (k <= fuel)%nat ->
    match k with
    | O => last < ts
    | S k' =>
        ts <= last /\
        (forall j, (j < k')%nat -> Date_now E (clockReads h + j) <= last) /\
        last < Date_now E (clockReads h + k')
    end ->
    exists h',
      Snowflake.waitLoop E fuel last ts h
      = (Returned match k with
                  | O => ts
                  | S k' => Date_now E (clockReads h + k')
                  end, h') /\
      clockReads h' = (clockReads h + k)%nat.
Proof.
  induction k as [|k IH]; intros fuel ts h Hk Hyp.
  - exists h. split; [|lia].
    assert ((ts <=? last) = false) as C by (apply Z.leb_gt; exact Hyp).
    destruct fuel; simpl; rewrite C; reflexivity.
  - destruct Hyp as (Hts & Hbefore & Hlate).
    destruct fuel as [|fuel]; [lia|]. simpl.
    assert ((ts <=? last) = true) as -> by (apply Z.leb_le; exact Hts).
    run.
    match goal with
    | |- context [Snowflake.waitLoop E fuel last ?ts1 ?h1] =>
        destruct (IH fuel ts1 h1 ltac:(lia)) as (h' & -> & Hc)
    end.
    + destruct k as [|k'].
      * now rewrite Nat.add_0_r in Hlate.
      * split; [specialize (Hbefore 0%nat ltac:(lia));
                now rewrite Nat.add_0_r in Hbefore|].
        cbn [clockReads]. split.
        -- intros j Hj. specialize (Hbefore (S j) ltac:(lia)).
           now replace (S (clockReads h) + j)%nat
             with (clockReads h + S j)%nat by lia.
        -- now replace (S (clockReads h) + k')%nat
             with (clockReads h + S k')%nat by lia.
    + exists h'. cbn [clockReads] in Hc. split; [|lia].
      destruct k as [|k']; [now rewrite Nat.add_0_r|].
      cbn [clockReads].
      now replace (S (clockReads h) + k')%nat
        with (clockReads h + S k')%nat by lia.
Qed.

(** As long as no reading is later, the spin goes on: a bound on the
    readings that lies before the first later one is used up. *)
Lemma waitLoop_short E last :
  forall fuel ts h,
    ts <= last ->
    (forall j, (j < fuel)%nat -> Date_now E (clockReads h + j) <= last) ->
    fst (Snowflake.waitLoop E fuel last ts h) = Diverged.
Proof.
  induction fuel as [|fuel IH]; intros ts h Hts Hall; simpl;
    (assert ((ts <=? last) = true) as -> by (apply Z.leb_le; exact Hts)).
  - reflexivity.
  - run. apply IH.
    + specialize (Hall 0%nat ltac:(lia)). now rewrite Nat.add_0_r in Hall.
    + intros j Hj. cbn [clockReads]. specialize (Hall (S j) ltac:(lia)).
      now replace (S (clockReads h) + j)%nat
        with (clockReads h + S j)%nat by lia.
Qed.

(** A reading handed back by the spin is the entry reading when that
    is later, and otherwise the first later one among those it took. *)
Lemma waitLoop_first_reading E last :
  forall fuel ts h,
    match Snowflake.waitLoop E fuel last ts h with
    | (Returned ts', h') =>
        last < ts /\ ts' = ts /\ h' = h
        \/ ts <= last /\
           exists i, (clockReads h <= i < clockReads h')%nat /\
                     ts' = Date_now E i /\ last < Date_now E i /\
                     forall j, (clockReads h <= j < i)%nat ->
                               Date_now E j <= last
    | _ => True
    end.
Proof.
  induction fuel as [|fuel IH]; intros ts h; simpl.
  - destruct (ts <=? last) eqn:C; run; [exact I|].
    apply Z.leb_gt in C. left. auto.
  - destruct (ts <=? last) eqn:C; run; [|apply Z.leb_gt in C; left; auto].
    apply Z.leb_le in C.
    pose proof (IH (Date_now E (clockReads h)) (snd (now E h))) as W.
    unfold now in W. simpl in W.
    destruct (Snowflake.waitLoop E fuel last _ _) as [[ts'|e|] h']; auto.
    right. split; [exact C|].
    destruct W as [(Hl & -> & ->)|(Hle & i & Hi & -> & Hl & Hfirst)].
    + exists (clockReads h). cbn [clockReads].
      split; [lia|]. split; [reflexivity|]. split; [exact Hl|].
      intros j Hj. lia.
    + cbn [clockReads] in Hi, Hfirst.
      exists i. split; [lia|]. split; [reflexivity|]. split; [exact Hl|].
      intros j Hj. destruct (Nat.eq_dec j (clockReads h)) as [->|Ne];
        [exact Hle | apply Hfirst; lia].
Qed.

(** A spin that used up its bound saw no later reading. *)
Lemma waitLoop_diverged E last :
  forall fuel ts h,
    match Snowflake.waitLoop E fuel last ts h with
    | (Diverged, _) =>
        ts <= last /\
        forall j, (j < fuel)%nat -> Date_now E (clockReads h + j) <= last
    | _ => True
    end.
Proof.
  induction fuel as [|fuel IH]; intros ts h; simpl.
  - destruct (ts <=? last) eqn:C; run; [|exact I].
    apply Z.leb_le in C. split; [exact C|]. intros; lia.
  - destruct (ts <=? last) eqn:C; run; [|exact I].
    apply Z.leb_le in C.
    pose proof (IH (Date_now E (clockReads h)) (snd (now E h))) as W.
    unfold now in W. simpl in W.
    destruct (Snowflake.waitLoop E fuel last _ _) as [[ts'|e|] h']; auto.
    destruct W as (W0 & W). split; [exact C|].
    intros [|j] Hj; [now rewrite Nat.add_0_r|].
    specialize (W j ltac:(lia)).
    now replace (clockReads h + S j)%nat with (S (clockReads h) + j)%nat by lia.
Qed.

Lemma next_sequence (sq : Z) :
  0 <= sq <= Snowflake.maxSequence ->
  let sq' := Z.land (sq + 1) Snowflake.maxSequence in
  0 <= sq' <= Snowflake.maxSequence /\
  (sq' <> 0 -> sq' = sq + 1) /\
  (sq' = 0 <-> sq = Snowflake.maxSequence).
Proof.
  change Snowflake.maxSequence with (Z.ones 12). intros H sq'. unfold sq'.
  rewrite Z.land_ones by lia.
  change (Z.ones 12) with 4095 in *. change (2 ^ 12) with 4096.
  destruct (Z.eq_dec sq 4095) as [->|Ne].
  - change ((4095 + 1) mod 4096) with 0. lia.
  - rewrite Z.mod_small by lia. lia.
Qed.

(** What one call does to an in-range generator. *)
Lemma generate_step E fuel h :
  Snowflake.inRange (snowflakeGenerator h) ->
  let g := snowflakeGenerator h in
  match Snowflake.generate E fuel h with
  | (Returned s, h') =>
      let g' := snowflakeGenerator h' in
      s = Js.bigint_toString (Snowflake.lastId g') /\
      Snowflake.inRange g' /\
      datacenterId g' = datacenterId g /\ workerId g' = workerId g /\
      (lastTimestamp g < lastTimestamp g' /\ sequence g' = 0 \/
       lastTimestamp g' = lastTimestamp g /\ sequence g' = sequence g + 1) /\
      (exists k, (clockReads h <= k < clockReads h')%nat /\
                 lastTimestamp g' = Date_now E k) /\
      queries h' = queries h /\ warnings h' = warnings h /\
      inserted h' = inserted h
  | (Thrown e, h') =>
      e = "Clock moved backwards" /\
      Date_now E (clockReads h) < lastTimestamp g /\
      snowflakeGenerator h' = g /\
      queries h' = queries h /\ warnings h' = warnings h /\
      inserted h' = inserted h
  | (Diverged, h') =>
      Date_now E (clockReads h) = lastTimestamp g /\
      sequence g = Snowflake.maxSequence /\
      queries h' = queries h /\ warnings h' = warnings h /\
      inserted h' = inserted h
  end.
Proof.
  intros R g.
  pose proof R as (Hd & Hw & Hs). fold g in Hd, Hw, Hs.
  destruct (Z.lt_trichotomy (Date_now E (clockReads h)) (lastTimestamp g))
    as [Lt|[Eq|Gt]].
  - rewrite generate_regressed by exact Lt. simpl. repeat split; auto.
  - destruct (next_sequence (sequence g) Hs) as (B & Inc & Wrap).
    destruct (Z.eq_dec (Z.land (sequence g + 1) Snowflake.maxSequence) 0)
      as [Z0|Nz].
    + rewrite generate_wrap by assumption. fold g.
      pose proof (waitLoop_spec E fuel (lastTimestamp g)
                    (Date_now E (S (clockReads h)))
                    (snd (now E (with_generator (reseq g 0 (lastTimestamp g))
                                   (snd (now E h)))))) as W.
      unfold Snowflake.waitNextMillis, Snowflake.currentTimestamp, bind, lift.
      simpl in *.
      destruct (Snowflake.waitLoop E fuel (lastTimestamp g) _ _)
        as [[ts'|e|] h']; simpl; destruct W as (G & Q & Wn & I & Rd & P);
        [| contradiction | ].
      * destruct P as (L & P).
        simpl in *. rewrite G. simpl.
        repeat split; simpl; auto; try lia.
        destruct P as [->|(k & Hk & ->)].
        -- exists (S (clockReads h)). split; [lia|reflexivity].
        -- exists k. split; [lia|reflexivity].
      * split; [exact Eq|]. split; [now apply Wrap|]. auto.
    + rewrite generate_same by assumption. fold g. simpl.
      specialize (Inc Nz).
      repeat split; simpl; auto; try lia.
      exists (clockReads h). split; [lia|reflexivity].
  - rewrite generate_later by exact Gt. fold g. simpl.
    repeat split; simpl; auto; try lia; try discriminate.
    exists (clockReads h). split; [lia|reflexivity].
Qed.

(** Later state, larger identifier. *)
Lemma lastId_lt g g' :
  Snowflake.inRange g -> Snowflake.inRange g' ->
  datacenterId g' = datacenterId g -> workerId g' = workerId g ->
  (lastTimestamp g < lastTimestamp g' /\ sequence g' = 0 \/
   lastTimestamp g' = lastTimestamp g /\ sequence g' = sequence g + 1) ->
  Snowflake.lastId g < Snowflake.lastId g'.
Proof.
  intros R R' Hd Hw Hstep. unfold Snowflake.lastId.
  rewrite !assemble_sum by assumption.
  destruct R as (_ & _ & Hs), R' as (_ & _ & Hs').
  change Snowflake.maxSequence with 4095 in *.
  rewrite Hd, Hw. lia.
Qed.

Lemma lastId_fields g :
  Snowflake.inRange g ->
  Snowflake.timestampField (Snowflake.lastId g) = lastTimestamp g - Snowflake.epoch /\
  Snowflake.datacenterField (Snowflake.lastId g) = datacenterId g /\
  Snowflake.workerField (Snowflake.lastId g) = workerId g /\
  Snowflake.sequenceField (Snowflake.lastId g) = sequence g.
Proof.
  intros R. unfold Snowflake.lastId. rewrite assemble_sum by assumption.
  destruct R as (Hd & Hw & Hs).
  apply fields_of_sum; assumption.
Qed.

Lemma constructor_inRange dc w g :
  Snowflake.constructor dc w = Returned g ->
  Snowflake.inRange g /\ datacenterId g = dc /\ workerId g = w /\
  sequence g = 0 /\ lastTimestamp g = -1.
Proof.
  unfold Snowflake.constructor.
  destruct ((dc <? 0) || (dc >? Snowflake.maxDatacenterId))%bool eqn:Cd;
    [discriminate|].
  destruct ((w <? 0) || (w >? Snowflake.maxWorkerId))%bool eqn:Cw;
    [discriminate|].
  intros [= <-]. simpl.
  apply orb_false_iff in Cd, Cw. destruct Cd as [Cd1 Cd2], Cw as [Cw1 Cw2].
  apply Z.ltb_ge in Cd1, Cw1. rewrite Z.gtb_ltb in Cd2, Cw2.
  apply Z.ltb_ge in Cd2, Cw2.
  repeat split; simpl; auto; discriminate.
Qed.

(** Every identifier of a run decodes to the node identity of the
    generator, they come out in increasing order, and all are above what
    the generator had issued before the run. *)
Lemma generateMany_issued E fuel n :
  forall h,
    Snowflake.inRange (snowflakeGenerator h) ->
    exists ids,
      Snowflake.issued (fst (Snowflake.generateMany E fuel n h))
      = map Js.bigint_toString ids /\
      StronglySorted Z.lt ids /\
      Forall (fun id =>
                Snowflake.lastId (snowflakeGenerator h) < id /\
                Snowflake.datacenterField id = datacenterId (snowflakeGenerator h) /\
                Snowflake.workerField id = workerId (snowflakeGenerator h)) ids.
Proof.
  induction n as [|n IH]; intros h R; simpl.
  - exists []. repeat constructor.
  - pose proof (generate_step E fuel h R) as St.
    destruct (Snowflake.generate E fuel h) as [[s|e|] h1].
    + destruct St as (-> & R1 & Hd & Hw & Hstep & _).
      destruct (IH h1 R1) as (ids & Hi & Hsorted & Hall).
      destruct (Snowflake.generateMany E fuel n h1) as [rs h2]. simpl in *.
      pose proof (lastId_lt _ _ R R1 Hd Hw Hstep) as Lt.
      exists (Snowflake.lastId (snowflakeGenerator h1) :: ids).
      split; [simpl; now rewrite Hi|]. split.
      * constructor; [assumption|].
        eapply Forall_impl; [|exact Hall]. simpl. tauto.
      * constructor.
        -- destruct (lastId_fields _ R1) as (_ & Fd & Fw & _).
           rewrite Fd, Fw. auto.
        -- eapply Forall_impl; [|exact Hall]. simpl.
           intros id (L & Fd & Fw). rewrite Fd, Fw. repeat split; auto. lia.
    + destruct St as (_ & _ & G & _).
      assert (Snowflake.inRange (snowflakeGenerator h1)) as R1
          by now rewrite G.
      destruct (IH h1 R1) as (ids & Hi & Hsorted & Hall).
      destruct (Snowflake.generateMany E fuel n h1) as [rs h2]. simpl in *.
      exists ids. rewrite G in Hall. auto.
    + exists []. repeat constructor.
Qed.

(** With a clock that never decreases and is not behind the generator,
    no call of a run is refused. *)
Lemma generateMany_no_throw E fuel n :
  monotoneClock E ->
  forall h,
    Snowflake.inRange (snowflakeGenerator h) ->
    lastTimestamp (snowflakeGenerator h) <= Date_now E (clockReads h) ->
    Forall (fun r => forall e, r <> Thrown e)
           (fst (Snowflake.generateMany E fuel n h)).
Proof.
  intros Mono. induction n as [|n IH]; intros h R Hnow; simpl.
  - constructor.
  - pose proof (generate_step E fuel h R) as St.
    destruct (Snowflake.generate E fuel h) as [[s|e|] h1].
    + destruct St as (_ & R1 & _ & _ & _ & (k & Hk & Hlast) & _).
      assert (lastTimestamp (snowflakeGenerator h1)
              <= Date_now E (clockReads h1)) as Hnow1
          by (rewrite Hlast; apply Mono; lia).
      specialize (IH h1 R1 Hnow1).
      destruct (Snowflake.generateMany E fuel n h1) as [rs h2]. simpl in *.
      constructor; [discriminate | assumption].
    + destruct St as (_ & Lt & _). lia.
    + simpl. constructor; [discriminate | constructor].
Qed.

(* ===================================================================== *)
(** ** The identifier generator: claims *)
(* ===================================================================== *)

(** C1.  Successive calls of [generate] on one instance, under a clock
    that never decreases: the identifiers returned, read as integers, are
    strictly increasing in issuance order; and when the clock is not
    behind the generator to begin with, no call is refused. *)
Theorem generate_strictly_increasing (E : Env) (fuel n : nat) (h : Heap) :
  Snowflake.inRange (snowflakeGenerator h) ->
  monotoneClock E ->
  let rs := fst (Snowflake.generateMany E fuel n h) in
  (exists ids,
      map Js.parseBigInt (Snowflake.issued rs) = map Some ids /\
      StronglySorted Z.lt ids) /\
  (lastTimestamp (snowflakeGenerator h) <= Date_now E (clockReads h) ->
   Forall (fun r => forall e, r <> Thrown e) rs).
Proof.
  intros R Mono rs. split.
  - destruct (generateMany_issued E fuel n h R) as (ids & Hi & Hs & _).
    exists ids. split; [|assumption].
    unfold rs. rewrite Hi, map_map.
    apply map_ext. intros id. apply parseBigInt_toString.
  - intros Hnow. now apply generateMany_no_throw.
Qed.

Lemma generate_strictly_increasing_witness :
  (exists ids,
      map Js.parseBigInt
        (Snowflake.issued
           (fst (Snowflake.generateMany
                   (world (frozenClock (Snowflake.epoch + 10)) emptyStore)
                   0 4 (freshHeap generator11))))
      = map Some ids /\
      StronglySorted Z.lt ids).
Proof.
  apply (generate_strictly_increasing
           (world (frozenClock (Snowflake.epoch + 10)) emptyStore)
           0 4 (freshHeap generator11)).
  - repeat split; vm_compute; discriminate.
  - intros i j _. unfold frozenClock. simpl. lia.
Defined.

(** C2.  A call that samples a time strictly earlier than the recorded
    last timestamp throws the clock-regression error, returns no
    identifier and leaves the generator as it was. *)
Theorem generate_clock_regressed (E : Env) (fuel : nat) (h : Heap) :
  Date_now E (clockReads h) < lastTimestamp (snowflakeGenerator h) ->
  exists h',
    Snowflake.generate E fuel h = (Thrown "Clock moved backwards", h') /\
    snowflakeGenerator h' = snowflakeGenerator h.
Proof.
  intros Lt. exists (snd (now E h)).
  split; [now apply generate_regressed | reflexivity].
Qed.

Lemma generate_clock_regressed_witness :
  exists h',
    Snowflake.generate (world (frozenClock 1700000000000) emptyStore) 0
      (freshHeap (nearlyFull 1700000000001))
    = (Thrown "Clock moved backwards", h') /\
    snowflakeGenerator h' = nearlyFull 1700000000001.
Proof.
  apply (generate_clock_regressed
           (world (frozenClock 1700000000000) emptyStore) 0
           (freshHeap (nearlyFull 1700000000001))).
  simpl. unfold frozenClock. lia.
Defined.

(** C6.  A call in the millisecond of the previous call whose sequence
    counter wraps to zero waits for a strictly later millisecond: it
    goes on reading the clock for as long as the readings are not later
    than the recorded millisecond, and does not return meanwhile; it
    returns at the first later reading, and that reading is the
    timestamp of the identifier it issues, whose timestamp field
    therefore strictly exceeds that of the previous identifier and whose
    sequence field is zero.  It is never refused.  [k] is the number of
    readings, after the one that opened the call, taken before the later
    one; a bound [fuel] on these readings that is below [k] is used up,
    and any bound from [k] on gives the same identifier. *)
Theorem generate_overflow_waits (E : Env) (fuel0 : nat) (h0 h1 : Heap)
        (s1 : string) (k : nat) :
  Snowflake.inRange (snowflakeGenerator h0) ->
  Snowflake.generate E fuel0 h0 = (Returned s1, h1) ->
  Date_now E (clockReads h1) = lastTimestamp (snowflakeGenerator h1) ->
  Z.land (sequence (snowflakeGenerator h1) + 1) Snowflake.maxSequence = 0 ->
  (forall j, (j < k)%nat ->
             Date_now E (S (clockReads h1) + j)
             <= lastTimestamp (snowflakeGenerator h1)) ->
  (forall fuel, (fuel < k)%nat ->
                fst (Snowflake.generate E fuel h1) = Diverged) /\
  (lastTimestamp (snowflakeGenerator h1) < Date_now E (S (clockReads h1) + k) ->
   forall fuel,
     (k <= fuel)%nat ->
     exists s2 h2 id1 id2,
       Snowflake.generate E fuel h1 = (Returned s2, h2) /\
       Js.parseBigInt s1 = Some id1 /\ Js.parseBigInt s2 = Some id2 /\
       Snowflake.timestampField id2
       = Date_now E (S (clockReads h1) + k) - Snowflake.epoch /\
       Snowflake.timestampField id1 < Snowflake.timestampField id2 /\
       Snowflake.sequenceField id2 = 0 /\
       lastTimestamp (snowflakeGenerator h2)
       = Date_now E (S (clockReads h1) + k) /\
       clockReads h2 = (clockReads h1 + k + 2)%nat) /\
  (forall fuel,
      match Snowflake.generate E fuel h1 with
      | (Returned s2, h2) =>
          exists id1 id2 i,
            Js.parseBigInt s1 = Some id1 /\ Js.parseBigInt s2 = Some id2 /\
            Snowflake.timestampField id1 < Snowflake.timestampField id2 /\
            Snowflake.sequenceField id2 = 0 /\
            (clockReads h1 < i < clockReads h2)%nat /\
            lastTimestamp (snowflakeGenerator h2) = Date_now E i /\
            lastTimestamp (snowflakeGenerator h1) < Date_now E i /\
            forall j, (clockReads h1 < j < i)%nat ->
                      Date_now E j <= lastTimestamp (snowflakeGenerator h1)
      | (Thrown _, _) => False
      | (Diverged, _) =>
          forall j, (clockReads h1 < j <= S (clockReads h1) + fuel)%nat ->
                    Date_now E j <= lastTimestamp (snowflakeGenerator h1)
      end).
Proof.
  intros R0 G1 Same Wrap Before.
  pose proof (generate_step E fuel0 h0 R0) as St0. rewrite G1 in St0.
  destruct St0 as (-> & R1 & _).
  set (g := snowflakeGenerator h1) in *.
  set (last := lastTimestamp g) in *.
  destruct (lastId_fields _ R1) as (T1 & _). fold g in T1.
  (* the call, once the sequence has wrapped *)
  assert (forall fuel,
             Snowflake.generate E fuel h1 =
             match Snowflake.waitLoop E fuel last (Date_now E (S (clockReads h1)))
                     (snd (now E (with_generator (reseq g 0 last)
                                    (snd (now E h1))))) with
             | (Returned ts', h') =>
                 let g' := reseq (snowflakeGenerator h')
                                 (sequence (snowflakeGenerator h')) ts' in
                 (Returned (Js.bigint_toString (Snowflake.assemble g' ts')),
                  with_generator g' h')
             | (Thrown e, h') => (Thrown e, h')
             | (Diverged, h') => (Diverged, h')
             end) as Unfold.
  { intros fuel. rewrite generate_wrap by assumption. fold g. fold last.
    unfold Snowflake.waitNextMillis, Snowflake.currentTimestamp, bind, lift.
    reflexivity. }
  (* what a returned identifier looks like *)
  assert (forall fuel s2 h2,
             Snowflake.generate E fuel h1 = (Returned s2, h2) ->
             exists id2,
               Js.parseBigInt s2 = Some id2 /\
               Snowflake.timestampField id2
               = lastTimestamp (snowflakeGenerator h2) - Snowflake.epoch /\
               Snowflake.sequenceField id2 = sequence (snowflakeGenerator h2))
    as Shape.
  { intros fuel s2 h2 G.
    pose proof (generate_step E fuel h1 R1) as St. rewrite G in St.
    destruct St as (-> & R2 & _).
    exists (Snowflake.lastId (snowflakeGenerator h2)).
    rewrite parseBigInt_toString.
    destruct (lastId_fields _ R2) as (T2 & _ & _ & S2). auto. }
  split; [|split].
  - intros fuel Hf. rewrite Unfold.
    pose proof (waitLoop_short E last fuel (Date_now E (S (clockReads h1)))
                  (snd (now E (with_generator (reseq g 0 last)
                                 (snd (now E h1)))))) as W.
    cbn [now snd clockReads with_generator] in W.
    destruct (Snowflake.waitLoop E fuel last _ _) as [r h'].
    cbn [fst] in W. rewrite W; [reflexivity| |].
    + specialize (Before 0%nat ltac:(lia)).
      now rewrite Nat.add_0_r in Before.
    + intros j Hj. specialize (Before (S j) ltac:(lia)).
      now replace (S (S (clockReads h1)) + j)%nat
        with (S (clockReads h1) + S j)%nat by lia.
  - intros Late fuel Hf.
    pose proof (waitLoop_first_later E last k fuel
                  (Date_now E (S (clockReads h1)))
                  (snd (now E (with_generator (reseq g 0 last)
                                 (snd (now E h1))))) Hf) as W.
    cbn [now snd clockReads with_generator] in W.
    destruct W as (h' & Wl & Wc).
    { destruct k as [|k'].
      - now rewrite Nat.add_0_r in Late.
      - split; [specialize (Before 0%nat ltac:(lia));
                now rewrite Nat.add_0_r in Before|].
        split.
        + intros j Hj. specialize (Before (S j) ltac:(lia)).
          now replace (S (S (clockReads h1)) + j)%nat
            with (S (clockReads h1) + S j)%nat by lia.
        + now replace (S (S (clockReads h1)) + k')%nat
            with (S (clockReads h1) + S k')%nat by lia. }
    assert (match k with
            | O => Date_now E (S (clockReads h1))
            | S k' => Date_now E (S (S (clockReads h1)) + k')
            end = Date_now E (S (clockReads h1) + k)) as Hts.
    { destruct k as [|k']; f_equal; lia. }
    rewrite Hts in Wl.
    pose proof (Unfold fuel) as G. cbn [now snd clockReads with_generator] in G.
    rewrite Wl in G. cbv zeta in G.
    destruct (Shape fuel _ _ G) as (id2 & P2 & F2 & S2).
    cbn [snowflakeGenerator with_generator lastTimestamp sequence reseq] in F2, S2.
    pose proof (generate_step E fuel h1 R1) as St. rewrite G in St.
    destruct St as (_ & _ & _ & _ & Hstep & _).
    cbn [snowflakeGenerator with_generator lastTimestamp sequence reseq] in Hstep.
    fold g in Hstep. fold last in Hstep.
    eexists _, _, (Snowflake.lastId g), id2.
    split; [exact G|]. split; [apply parseBigInt_toString|].
    split; [exact P2|]. split; [exact F2|].
    split; [rewrite T1, F2; fold last; lia|].
    split.
    { rewrite S2. destruct Hstep as [(_ & Z2)|(Eq & _)]; [exact Z2|].
      fold last in Late. lia. }
    split; [reflexivity|].
    cbn [clockReads with_generator]. lia.
  - intros fuel.
    pose proof (generate_step E fuel h1 R1) as St.
    pose proof (Shape fuel) as Sh.
    pose proof (Unfold fuel) as G.
    cbn [now snd clockReads with_generator] in G.
    destruct (next_sequence (sequence g)) as (_ & _ & Wfull); [apply R1|].
    apply Wfull in Wrap.
    destruct (Snowflake.generate E fuel h1) as [[s2|e|] h2].
    + destruct (Sh s2 h2 eq_refl) as (id2 & P2 & F2 & S2).
      destruct St as (_ & R2 & _ & _ & Hstep & _).
      fold g in Hstep. fold last in Hstep.
      destruct R2 as (_ & _ & B2).
      assert (last < lastTimestamp (snowflakeGenerator h2) /\
              sequence (snowflakeGenerator h2) = 0) as (Lt & Z2).
      { destruct Hstep as [H|(_ & Inc)]; [exact H|].
        change Snowflake.maxSequence with 4095 in *. lia. }
      (* the reading handed back is the first later one *)
      clear Sh.
      pose proof (waitLoop_first_reading E last fuel
                    (Date_now E (S (clockReads h1)))
                    (snd (now E (with_generator (reseq g 0 last)
                                   (snd (now E h1)))))) as W.
      cbn [now snd clockReads with_generator] in W.
      destruct (Snowflake.waitLoop E fuel last _ _) as [[ts'|e'|] hw];
        try discriminate G.
      injection G as _ ->.
      cbn [snowflakeGenerator with_generator lastTimestamp reseq clockReads]
        in *.
      destruct W as [(Hlate & -> & ->)|(Hle & i & Hi & -> & Hlate & Hfirst)].
      * exists (Snowflake.lastId g), id2, (S (clockReads h1)).
        split; [apply parseBigInt_toString|]. split; [exact P2|].
        split; [rewrite T1, F2; fold last; lia|].
        split; [now rewrite S2|].
        cbn [clockReads].
        split; [lia|]. split; [reflexivity|]. split; [exact Hlate|].
        intros j Hj. lia.
      * exists (Snowflake.lastId g), id2, i.
        split; [apply parseBigInt_toString|]. split; [exact P2|].
        split; [rewrite T1, F2; fold last; lia|].
        split; [now rewrite S2|].
        split; [lia|]. split; [reflexivity|]. split; [exact Hlate|].
        intros j Hj.
        destruct (Nat.eq_dec j (S (clockReads h1))) as [->|Ne];
          [exact Hle | apply Hfirst; lia].
    + destruct St as (_ & Lt & _). fold g in Lt. fold last in Lt. lia.
    + clear St Sh.
      pose proof (waitLoop_diverged E last fuel
                    (Date_now E (S (clockReads h1)))
                    (snd (now E (with_generator (reseq g 0 last)
                                   (snd (now E h1)))))) as W.
      cbn [now snd clockReads with_generator] in W.
      destruct (Snowflake.waitLoop E fuel last _ _) as [[ts'|e'|] hw];
        try discriminate G.
      intros j Hj.
      destruct (Nat.eq_dec j (S (clockReads h1))) as [->|Ne].
      * apply (proj1 W).
      * destruct W as (_ & W).
        replace j with (S (S (clockReads h1)) + (j - S (S (clockReads h1))))%nat
          by lia.
        apply W. lia.
Qed.

Lemma generate_overflow_waits_witness :
  exists s2 h2,
    Snowflake.generate (world (stuckClock 5 1700000000000) emptyStore) 3
      (snd (Snowflake.generate (world (stuckClock 5 1700000000000) emptyStore)
              0 (freshHeap (nearlyFull 1700000000000))))
    = (Returned s2, h2) /\
    lastTimestamp (snowflakeGenerator h2) = 1700000000001 /\
    clockReads h2 = 6%nat /\
    fst (Snowflake.generate (world (stuckClock 5 1700000000000) emptyStore) 2
           (snd (Snowflake.generate
                   (world (stuckClock 5 1700000000000) emptyStore)
                   0 (freshHeap (nearlyFull 1700000000000)))))
    = Diverged.
Proof.
  destruct (generate_overflow_waits
              (world (stuckClock 5 1700000000000) emptyStore) 0
              (freshHeap (nearlyFull 1700000000000))
              (snd (Snowflake.generate
                      (world (stuckClock 5 1700000000000) emptyStore)
                      0 (freshHeap (nearlyFull 1700000000000))))
              "379755639603339263" 3)
    as (Hspin & Hret & _).
  - repeat split; vm_compute; discriminate.
  - vm_compute. reflexivity.
  - reflexivity.
  - reflexivity.
  - intros j Hj.
    do 3 (destruct j as [|j]; [vm_compute; discriminate|]). lia.
  - destruct (Hret ltac:(vm_compute; reflexivity) 3%nat ltac:(lia))
      as (s2 & h2 & id1 & id2 & G & _ & _ & _ & _ & _ & Hl & Hc).
    exists s2, h2. split; [exact G|].
    split; [exact Hl|]. split; [exact Hc|].
    apply Hspin. lia.
Defined.

(** The run of the witness: with the clock standing for four more
    readings, the call after the 4096th identifier of the millisecond
    reads the clock five times and issues the first identifier of the
    next millisecond. *)
Example generate_overflow_run :
  Snowflake.generate (world (stuckClock 5 1700000000000) emptyStore) 3
    (snd (Snowflake.generate (world (stuckClock 5 1700000000000) emptyStore)
            0 (freshHeap (nearlyFull 1700000000000))))
  = (Returned "379755639607529472",
     {| clockReads := 6; queries := []; warnings := [];
        snowflakeGenerator :=
          {| datacenterId := 1; workerId := 1; sequence := 0;
             lastTimestamp := 1700000000001 |};
        inserted := [] |}).
Proof. vm_compute. reflexivity. Qed.

(** C7.  Epoch 2021-01-01T00:00:00Z, datacenter 1, worker 1, first call at
    10 ms after the epoch: the value returned has low 12 bits 0, the next
    5 bits 1, the next 5 bits 1 and the remaining top bits 10. *)
Theorem generate_concrete_scenario (E : Env) (fuel : nat)
        (g : SnowflakeIdGenerator) :
  Snowflake.constructor 1 1 = Returned g ->
  Date_now E 0 = Snowflake.epoch + 10 ->
  Snowflake.epoch = utcMidnight 2021 1 1 /\
  exists id h',
    Snowflake.generate E fuel (freshHeap g) = (Returned (Js.bigint_toString id), h') /\
    Js.parseBigInt (Js.bigint_toString id) = Some id /\
    Snowflake.sequenceField id = 0 /\
    Snowflake.workerField id = 1 /\
    Snowflake.datacenterField id = 1 /\
    Snowflake.timestampField id = 10.
Proof.
  intros [= <-] Hnow. split; [reflexivity|].
  pose proof (generate_later E fuel
                (freshHeap
                   {| datacenterId := 1; workerId := 1; sequence := 0;
                      lastTimestamp := -1 |})) as G.
  simpl in G. rewrite Hnow in G.
  specialize (G ltac:(vm_compute; reflexivity)).
  eexists. eexists. split; [exact G|].
  split; [apply parseBigInt_toString|].
  vm_compute. repeat split; reflexivity.
Qed.

Lemma generate_concrete_scenario_witness :
  exists id h',
    Snowflake.generate (world (frozenClock 1609459200010) emptyStore) 0
      (freshHeap generator11) = (Returned (Js.bigint_toString id), h') /\
    Js.parseBigInt (Js.bigint_toString id) = Some id /\
    Snowflake.sequenceField id = 0 /\
    Snowflake.workerField id = 1 /\
    Snowflake.datacenterField id = 1 /\
    Snowflake.timestampField id = 10.
Proof.
  apply (generate_concrete_scenario
           (world (frozenClock 1609459200010) emptyStore) 0 generator11);
    reflexivity.
Defined.

(** C8.  Every identifier returned by a generator built with in-range
    ids, at any point of its life, decodes (bits 17-21 and bits 12-16) to
    the datacenter id and the worker id given at construction. *)
Theorem decode_recovers_node_identity (E : Env) (fuel n : nat)
        (dc w : Z) (g : SnowflakeIdGenerator) (h : Heap) :
  Snowflake.constructor dc w = Returned g ->
  snowflakeGenerator h = g ->
  Forall (fun s =>
            exists id,
              Js.parseBigInt s = Some id /\
              Z.land (Z.shiftr id 17) 31 = dc /\
              Z.land (Z.shiftr id 12) 31 = w /\
              Snowflake.datacenterField id = dc /\
              Snowflake.workerField id = w)
         (Snowflake.issued (fst (Snowflake.generateMany E fuel n h))).
Proof.
  intros C <-.
  destruct (constructor_inRange _ _ _ C) as (R & Hd & Hw & _).
  destruct (generateMany_issued E fuel n h R) as (ids & -> & _ & Hall).
  apply Forall_map.
  eapply Forall_impl; [|exact Hall]. simpl.
  intros id (_ & Fd & Fw). exists id.
  rewrite parseBigInt_toString, <- Hd, <- Hw.
  repeat split; assumption.
Qed.

Lemma decode_recovers_node_identity_witness :
  Forall (fun s =>
            exists id,
              Js.parseBigInt s = Some id /\
              Z.land (Z.shiftr id 17) 31 = 3 /\
              Z.land (Z.shiftr id 12) 31 = 30 /\
              Snowflake.datacenterField id = 3 /\
              Snowflake.workerField id = 30)
         (Snowflake.issued
            (fst (Snowflake.generateMany
                    (world (tickingClock 1700000000000) emptyStore) 0 3
                    (freshHeap {| datacenterId := 3; workerId := 30;
                                  sequence := 0; lastTimestamp := -1 |})))).
Proof.
  apply (decode_recovers_node_identity
           (world (tickingClock 1700000000000) emptyStore) 0 3 3 30
           {| datacenterId := 3; workerId := 30;
              sequence := 0; lastTimestamp := -1 |}); reflexivity.
Defined.

(** C9.  Construction succeeds exactly when both ids lie in 0..31; a
    negative id or one above 31 makes the constructor throw at once. *)
Theorem constructor_range_check (dc w : Z) :
  (0 <= dc <= 31 /\ 0 <= w <= 31 ->
   Snowflake.constructor dc w =
   Returned {| datacenterId := dc; workerId := w;
               sequence := 0; lastTimestamp := -1 |}) /\
  (dc < 0 \/ 31 < dc ->
   Snowflake.constructor dc w = Thrown "Datacenter ID must be 0 - 31") /\
  (0 <= dc <= 31 -> w < 0 \/ 31 < w ->
   Snowflake.constructor dc w = Thrown "Worker ID must be 0 - 31") /\
  Snowflake.maxDatacenterId = 2 ^ 5 - 1 /\ Snowflake.maxWorkerId = 2 ^ 5 - 1.
Proof.
  unfold Snowflake.constructor.
  change Snowflake.maxDatacenterId with 31.
  change Snowflake.maxWorkerId with 31.
  change (Js.bigint_toString 31) with "31". simpl append.
  rewrite !Z.gtb_ltb.
  destruct (Z.ltb_spec dc 0), (Z.ltb_spec 31 dc),
    (Z.ltb_spec w 0), (Z.ltb_spec 31 w); simpl;
    repeat split; intros; try reflexivity; lia.
Qed.

Lemma constructor_range_check_witness :
  Snowflake.constructor 0 31 =
  Returned {| datacenterId := 0; workerId := 31;
              sequence := 0; lastTimestamp := -1 |} /\
  Snowflake.constructor 32 1 = Thrown "Datacenter ID must be 0 - 31" /\
  Snowflake.constructor (-1) 1 = Thrown "Datacenter ID must be 0 - 31" /\
  Snowflake.constructor 1 32 = Thrown "Worker ID must be 0 - 31" /\
  Snowflake.constructor 1 (-1) = Thrown "Worker ID must be 0 - 31".
Proof.
  split; [apply (proj1 (constructor_range_check 0 31)); lia|].
  split; [apply (proj1 (proj2 (constructor_range_check 32 1))); lia|].
  split; [apply (proj1 (proj2 (constructor_range_check (-1) 1))); lia|].
  split; [apply (proj1 (proj2 (proj2 (constructor_range_check 1 32)))); lia|].
  apply (proj1 (proj2 (proj2 (constructor_range_check 1 (-1))))); lia.
Defined.

(* ===================================================================== *)
(** ** The slug retry loop *)
(* ===================================================================== *)

Import CrawlSiteService.

Lemma slugLoop_unfold E sc title slug n h :
  slugLoop E sc title slug n h =
  let '(taken, h1) := ask E sc slug h in
  if taken then
    if lt_dec n maxSlugAttempts then
      let '(slug', h2) := generateUniqueSlug E title h1 in
      slugLoop E sc title slug' (S n) h2
    else ((slug, n), h1)
  else ((slug, n), h1).
Proof.
  simp slugLoop.
  destruct (ask E sc slug h) as [[|] h1]; simpl; [|reflexivity].
  destruct (lt_dec n maxSlugAttempts); simpl; [|reflexivity].
  destruct (generateUniqueSlug E title h1); reflexivity.
Qed.

Lemma generateUniqueSlug_eq E title h :
  generateUniqueSlug E title h = (candidate E title (clockReads h), snd (now E h)).
Proof.
  unfold generateUniqueSlug, now, generateSlug, candidate. simpl.
  fold (Js.truthy (Some (Js.toString36 (Date_now E (clockReads h))))).
  now rewrite toString36_truthy.
Qed.

Lemma checked_shift E title slug c i :
  checked E title (candidate E title c) (S c) i = checked E title slug c (S i).
Proof.
  destruct i as [|i]; simpl; f_equal; lia.
Qed.

(** The loop runs [k] rounds, [k] at most the attempts left: the first
    [k] queries found the slug taken, and the next one either found it
    free or was sent when no attempt was left.  [k + 1] queries went out. *)
Lemma slugLoop_spec E sc title :
  forall m n slug h,
    (n + m = maxSlugAttempts)%nat ->
    exists k h',
      (k <= m)%nat /\
      slugLoop E sc title slug n h
      = ((checked E title slug (clockReads h) k, (n + k)%nat), h') /\
      clockReads h' = (clockReads h + k)%nat /\
      queries h' =
      queries h ++
        map (fun i => (sc, checked E title slug (clockReads h) i)) (seq 0 (S k)) /\
      (forall i, (i < k)%nat ->
                 store E (List.length (queries h) + i) sc
                       (checked E title slug (clockReads h) i) = true) /\
      ((k < m)%nat ->
       store E (List.length (queries h) + k) sc
             (checked E title slug (clockReads h) k) = false) /\
      warnings h' = warnings h /\
      snowflakeGenerator h' = snowflakeGenerator h /\
      inserted h' = inserted h.
Proof.
  induction m as [|m IH]; intros n slug h Hm; rewrite slugLoop_unfold;
    unfold ask.
  - exists 0%nat. eexists.
    destruct (store E (List.length (queries h)) sc slug);
      [destruct (lt_dec n maxSlugAttempts); [lia|] |];
      (split; [lia|]); rewrite !Nat.add_0_r;
      repeat split; simpl; auto; intros; lia.
  - destruct (store E (List.length (queries h)) sc slug) eqn:A.
    + destruct (lt_dec n maxSlugAttempts) as [_|]; [|lia].
      rewrite generateUniqueSlug_eq.
      cbn [now snd clockReads queries warnings snowflakeGenerator inserted].
      match goal with
      | |- context [slugLoop E sc title ?s' (S n) ?h2] =>
          destruct (IH (S n) s' h2 ltac:(lia))
            as (k & h' & Hk & -> & Hc & Hq & Ht & Hf & Hw & Hg & Hi)
      end.
      cbn [clockReads queries warnings snowflakeGenerator inserted] in *.
      rewrite length_app in Ht, Hf. cbn [List.length] in Ht, Hf.
      exists (S k), h'.
      split; [lia|]. split.
      { rewrite checked_shift with (slug := slug). do 2 f_equal. lia. }
      split; [lia|]. split.
      { rewrite Hq, <- app_assoc. f_equal.
        change (seq 0 (S (S k))) with (0%nat :: seq 1 (S k)).
        rewrite <- (seq_shift (S k) 0).
        cbn [map app checked]. f_equal.
        rewrite map_map. apply map_ext. intros i.
        now rewrite checked_shift with (slug := slug). }
      split.
      { intros [|i] Hi'; [now rewrite Nat.add_0_r|].
        specialize (Ht i ltac:(lia)).
        rewrite checked_shift with (slug := slug) in Ht.
        now replace (List.length (queries h) + S i)%nat
          with (List.length (queries h) + 1 + i)%nat by lia. }
      split; [|auto].
      intros Hlt. specialize (Hf ltac:(lia)).
      rewrite checked_shift with (slug := slug) in Hf.
      now replace (List.length (queries h) + S k)%nat
        with (List.length (queries h) + 1 + k)%nat by lia.
    + exists 0%nat. eexists. split; [lia|]. rewrite !Nat.add_0_r.
      repeat split; simpl; auto; intros; lia.
Qed.

Lemma checked_candidate E title c i :
  checked E title (candidate E title c) (S c) i = candidate E title (c + i).
Proof. destruct i as [|i]; simpl; f_equal; lia. Qed.

(** What a resolution does, whatever the store answers: it stops at the
    first candidate found free, among the first five, and throws when all
    five were found taken, after a sixth query whose answer is not used. *)
Lemma resolveSlug_spec E sc message title h :
  exists k h',
    (k <= 5)%nat /\
    resolveSlug E sc message title h
    = ((if (k <? 5)%nat then Returned (candidate E title (clockReads h + k))
        else Thrown message), h') /\
    clockReads h' = (clockReads h + S k)%nat /\
    queries h' =
    queries h ++
      map (fun i => (sc, candidate E title (clockReads h + i))) (seq 0 (S k)) /\
    (forall i, (i < k)%nat -> answer E sc title h i = true) /\
    ((k < 5)%nat -> answer E sc title h k = false) /\
    warnings h' = warnings h /\
    snowflakeGenerator h' = snowflakeGenerator h /\
    inserted h' = inserted h.
Proof.
  unfold resolveSlug, bind, lift. rewrite generateUniqueSlug_eq.
  destruct (slugLoop_spec E sc title 5 0 (candidate E title (clockReads h))
              (snd (now E h)) eq_refl)
    as (k & h' & Hk & -> & Hc & Hq & Ht & Hf & Hw & Hg & Hi).
  cbn [now snd clockReads queries warnings snowflakeGenerator inserted] in *.
  exists k, h'. split; [exact Hk|].
  rewrite checked_candidate. split.
  { change (0 + k)%nat with k. unfold maxSlugAttempts.
    destruct (Nat.leb_spec 5 k), (Nat.ltb_spec k 5); try lia; reflexivity. }
  split; [lia|]. split.
  { rewrite Hq. f_equal. apply map_ext. intros i.
    now rewrite checked_candidate. }
  unfold answer. split.
  { intros i Hi'. rewrite <- checked_candidate. auto. }
  split; [|auto].
  intros Hlt. rewrite <- checked_candidate. auto.
Qed.

Lemma resolveSlug_round_trips E sc message title h k h' r :
  resolveSlug E sc message title h = (r, h') ->
  queries h' =
  queries h ++
    map (fun i => (sc, candidate E title (clockReads h + i))) (seq 0 (S k)) ->
  roundTrips h h' = S k.
Proof.
  intros _ Hq. unfold roundTrips.
  rewrite Hq, length_app, length_map, length_seq. lia.
Qed.

(** Four candidates taken and the fifth free: the fifth is returned. *)
Lemma resolveSlug_fifth E sc message title h :
  (forall i, (i < 4)%nat -> answer E sc title h i = true) ->
  answer E sc title h 4 = false ->
  exists h',
    resolveSlug E sc message title h
    = (Returned (candidate E title (clockReads h + 4)), h') /\
    roundTrips h h' = 5%nat.
Proof.
  intros Ht Hf.
  destruct (resolveSlug_spec E sc message title h)
    as (k & h' & Hk & Hr & _ & Hq & Hkt & Hkf & _).
  assert (k = 4)%nat as ->.
  { destruct (Nat.lt_trichotomy k 4) as [Lt|[Eq|Gt]]; [|exact Eq|].
    - specialize (Ht k Lt). specialize (Hkf ltac:(lia)). congruence.
    - specialize (Hkt 4%nat Gt). congruence. }
  exists h'. split; [exact Hr|].
  eapply resolveSlug_round_trips; eassumption.
Qed.

(** Five candidates taken: the call throws, after six queries. *)
Lemma resolveSlug_exhausted E sc message title h :
  (forall i, (i < 5)%nat -> answer E sc title h i = true) ->
  exists h',
    resolveSlug E sc message title h = (Thrown message, h') /\
    roundTrips h h' = 6%nat /\
    warnings h' = warnings h /\ inserted h' = inserted h.
Proof.
  intros Ht.
  destruct (resolveSlug_spec E sc message title h)
    as (k & h' & Hk & Hr & _ & Hq & _ & Hkf & Hw & _ & Hi).
  assert (k = 5)%nat as ->.
  { destruct (Nat.eq_dec k 5) as [|Ne]; [assumption|].
    specialize (Ht k ltac:(lia)). specialize (Hkf ltac:(lia)). congruence. }
  exists h'. split; [exact Hr|]. split; [|auto].
  eapply resolveSlug_round_trips; eassumption.
Qed.

(* ===================================================================== *)
(** ** Slug resolution: claims *)
(* ===================================================================== *)

(** C3.  In [initializeCrawl] and in [modifyCrawl]: when the existence
    check reports true for the first four candidates and false for the
    fifth, the fifth candidate is returned; when it reports true for the
    first five, the call throws the exhaustion error and returns no slug. *)
Theorem slug_resolution_fifth_or_exhausted (E : Env) (title siteId : string)
        (h : Heap) :
  ((forall i, (i < 4)%nat -> answer E SlugExists title h i = true) ->
   answer E SlugExists title h 4 = false ->
   exists h',
     initializeCrawl_slug E title h
     = (Returned (candidate E title (clockReads h + 4)), h')) /\
  ((forall i, (i < 5)%nat -> answer E SlugExists title h i = true) ->
   exists h',
     initializeCrawl_slug E title h
     = (Thrown "Failed to generate unique slug. Please try a different title.",
        h')) /\
  ((forall i, (i < 4)%nat ->
              answer E (SlugExistsExcludingId siteId) title h i = true) ->
   answer E (SlugExistsExcludingId siteId) title h 4 = false ->
   exists h',
     modifyCrawl_slug E siteId title h
     = (Returned (candidate E title (clockReads h + 4)), h')) /\
  ((forall i, (i < 5)%nat ->
              answer E (SlugExistsExcludingId siteId) title h i = true) ->
   exists h',
     modifyCrawl_slug E siteId title h
     = (Thrown "Failed to generate unique slug. Please try a different title.",
        h')).
Proof.
  unfold initializeCrawl_slug, modifyCrawl_slug.
  repeat split.
  - intros Ht Hf.
    edestruct resolveSlug_fifth as (h' & Hr & _);
      [exact Ht | exact Hf | eexists; exact Hr].
  - intros Ht.
    edestruct resolveSlug_exhausted as (h' & Hr & _);
      [exact Ht | eexists; exact Hr].
  - intros Ht Hf.
    edestruct resolveSlug_fifth as (h' & Hr & _);
      [exact Ht | exact Hf | eexists; exact Hr].
  - intros Ht.
    edestruct resolveSlug_exhausted as (h' & Hr & _);
      [exact Ht | eexists; exact Hr].
Qed.

Lemma slug_resolution_fifth_or_exhausted_witness :
  (exists h',
      initializeCrawl_slug (world (tickingClock 1700000000000) (takenFirst 4))
        "Example Site" (freshHeap generator11)
      = (Returned "example-site-loyw3v2c", h')) /\
  (exists h',
      initializeCrawl_slug (world (tickingClock 1700000000000) (takenFirst 5))
        "Example Site" (freshHeap generator11)
      = (Thrown "Failed to generate unique slug. Please try a different title.",
         h')) /\
  (exists h',
      modifyCrawl_slug (world (tickingClock 1700000000000) (takenFirst 4))
        "42" "Example Site" (freshHeap generator11)
      = (Returned "example-site-loyw3v2c", h')) /\
  (exists h',
      modifyCrawl_slug (world (tickingClock 1700000000000) (takenFirst 5))
        "42" "Example Site" (freshHeap generator11)
      = (Thrown "Failed to generate unique slug. Please try a different title.",
         h')).
Proof.
  pose proof (slug_resolution_fifth_or_exhausted
                (world (tickingClock 1700000000000) (takenFirst 4))
                "Example Site" "42" (freshHeap generator11))
    as (I4 & _ & M4 & _).
  pose proof (slug_resolution_fifth_or_exhausted
                (world (tickingClock 1700000000000) (takenFirst 5))
                "Example Site" "42" (freshHeap generator11))
    as (_ & I5 & _ & M5).
  repeat split.
  - apply I4; [|reflexivity].
    intros i Hi. unfold answer, takenFirst. simpl. apply Nat.ltb_lt. exact Hi.
  - apply I5.
    intros i Hi. unfold answer, takenFirst. simpl. apply Nat.ltb_lt. exact Hi.
  - apply M4; [|reflexivity].
    intros i Hi. unfold answer, takenFirst. simpl. apply Nat.ltb_lt. exact Hi.
  - apply M5.
    intros i Hi. unfold answer, takenFirst. simpl. apply Nat.ltb_lt. exact Hi.
Defined.

(** C4 (where the code departs from the claim).  When the first five
    candidates are found taken, [initializeCrawl] sends a sixth existence
    query, for a sixth candidate, before it throws: six round-trips, not
    at most five.  The answer to the sixth query is not used. *)
Theorem initializeCrawl_sixth_round_trip (E : Env) (title : string) (h : Heap) :
  (forall i, (i < 5)%nat -> answer E SlugExists title h i = true) ->
  exists h',
    initializeCrawl_slug E title h
    = (Thrown "Failed to generate unique slug. Please try a different title.",
       h') /\
    roundTrips h h' = 6%nat /\
    nth_error (queries h') (List.length (queries h) + 5)
    = Some (SlugExists, candidate E title (clockReads h + 5)).
Proof.
  intros Ht. unfold initializeCrawl_slug.
  destruct (resolveSlug_spec E SlugExists
              "Failed to generate unique slug. Please try a different title."
              title h)
    as (k & h' & Hk & Hr & _ & Hq & _ & Hkf & _).
  assert (k = 5)%nat as ->.
  { destruct (Nat.eq_dec k 5) as [|Ne]; [assumption|].
    specialize (Ht k ltac:(lia)). specialize (Hkf ltac:(lia)). congruence. }
  exists h'. split; [exact Hr|]. split.
  - eapply resolveSlug_round_trips; eassumption.
  - rewrite Hq, nth_error_app2 by lia.
    replace (List.length (queries h) + 5 - List.length (queries h))%nat
      with 5%nat by lia.
    reflexivity.
Qed.

Lemma initializeCrawl_sixth_round_trip_witness :
  exists h',
    initializeCrawl_slug (world (tickingClock 1700000000000) (takenFirst 5))
      "Example Site" (freshHeap generator11)
    = (Thrown "Failed to generate unique slug. Please try a different title.",
       h') /\
    roundTrips (freshHeap generator11) h' = 6%nat /\
    nth_error (queries h') 5 = Some (SlugExists, "example-site-loyw3v2d").
Proof.
  apply (initializeCrawl_sixth_round_trip
           (world (tickingClock 1700000000000) (takenFirst 5))
           "Example Site" (freshHeap generator11)).
  intros i Hi. unfold answer, takenFirst. simpl. apply Nat.ltb_lt. exact Hi.
Defined.

(** The transform on two titles with punctuation. *)
Example transform_collapses_punctuation :
  Transform.transform "E-commerce" = "e-commerce" /\
  Transform.transform "  Hello,   World! " = "hello-world".
Proof. vm_compute. split; reflexivity. Qed.

(** C10.  [generateUniqueSlug(title)] is [slugify(title)], a hyphen, and
    the current millisecond timestamp written in base 36; for the title
    "Example Site", which [slugify] turns into "example-site", it begins
    with "example-site-"; and with an empty store the first candidate is
    what the resolution returns, after a single existence query. *)
Theorem generateUniqueSlug_shape (E : Env) (title : string) (h : Heap) :
  let t := Date_now E (clockReads h) in
  let slug := fst (generateUniqueSlug E title h) in
  slug = (slugify E title ++ "-" ++ Js.toString36 t)%string /\
  (0 <= t -> Js.value36 0 (Js.toString36 t) = t) /\
  (title = "Example Site" -> slugify E title = "example-site" ->
   String.prefix "example-site-" slug = true) /\
  ((forall k sc s, store E k sc s = false) ->
   exists h',
     initializeCrawl_slug E title h = (Returned slug, h') /\
     roundTrips h h' = 1%nat).
Proof.
  intros t slug. unfold slug. rewrite generateUniqueSlug_eq. simpl.
  split; [reflexivity|].
  split; [apply value36_toString36|].
  split.
  - intros _ Hs. unfold candidate. rewrite Hs.
    change ("example-site" ++ "-" ++ Js.toString36 (Date_now E (clockReads h)))%string
      with ("example-site-" ++ Js.toString36 (Date_now E (clockReads h)))%string.
    apply prefix_append.
  - intros Hempty. unfold initializeCrawl_slug.
    destruct (resolveSlug_spec E SlugExists
                "Failed to generate unique slug. Please try a different title."
                title h)
      as (k & h' & Hk & Hr & _ & Hq & Hkt & _).
    assert (k = 0)%nat as ->.
    { destruct k as [|k]; [reflexivity|].
      specialize (Hkt 0%nat ltac:(lia)). unfold answer in Hkt.
      rewrite Hempty in Hkt. discriminate. }
    exists h'. rewrite Nat.add_0_r in Hr. split; [exact Hr|].
    eapply resolveSlug_round_trips; eassumption.
Qed.

Lemma generateUniqueSlug_shape_witness :
  String.prefix "example-site-"
    (fst (generateUniqueSlug (world (tickingClock 1700000000000) emptyStore)
            "Example Site" (freshHeap generator11))) = true /\
  exists h',
    initializeCrawl_slug (world (tickingClock 1700000000000) emptyStore)
      "Example Site" (freshHeap generator11)
    = (Returned "example-site-loyw3v28", h') /\
    roundTrips (freshHeap generator11) h' = 1%nat.
Proof.
  pose proof (generateUniqueSlug_shape
                (world (tickingClock 1700000000000) emptyStore)
                "Example Site" (freshHeap generator11))
    as (_ & _ & Hp & He).
  split.
  - apply Hp; reflexivity.
  - apply He. reflexivity.
Defined.

(* ===================================================================== *)
(** ** The batch of [crawlCategory] *)
(* ===================================================================== *)

Lemma foundFree_later E sc slug h h' extra :
  foundFree E sc slug h -> queries h' = queries h ++ extra ->
  foundFree E sc slug h'.
Proof.
  intros (q & Hq & Hs) Hext. exists q. split; [|exact Hs].
  rewrite Hext, nth_error_app1; [exact Hq|].
  apply nth_error_Some. congruence.
Qed.

(** The loop over the scraped titles: a title whose attempts are used up
    costs a warning and is left out; every row collected carries a slug
    the store found free; nothing is inserted yet. *)
Lemma crawlCategory_loop_spec E fuel siteId data :
  forall titles acc h,
    Snowflake.inRange (snowflakeGenerator h) ->
    let '(r, h') := crawlCategory_loop E fuel siteId data titles acc h in
    inserted h' = inserted h /\
    (exists extra, queries h' = queries h ++ extra) /\
    match r with
    | Returned cats =>
        exists new logged,
          cats = acc ++ new /\
          warnings h' = warnings h ++ logged /\
          (List.length new + List.length logged = List.length titles)%nat /\
          Forall (fun c => foundFree E (SlugExistsForSite siteId) (cat_slug c) h')
                 new
    | Thrown e => e = "Clock moved backwards"
    | Diverged => True
    end.
Proof.
  induction titles as [|title rest IH]; intros acc h R.
  - simpl. unfold ret. split; [reflexivity|]. split.
    + exists []. now rewrite List.app_nil_r.
    + exists [], []. rewrite !List.app_nil_r. repeat split; auto.
  - cbn [crawlCategory_loop]. unfold bind at 1, lift at 1.
    rewrite generateUniqueSlug_eq. unfold bind at 1, lift at 1.
    destruct (slugLoop_spec E (SlugExistsForSite siteId) title 5 0
                (candidate E title (clockReads h)) (snd (now E h)) eq_refl)
      as (k & h2 & Hk & -> & Hc & Hq & _ & Hf & Hw & Hg & Hi).
    cbn [now snd clockReads queries warnings snowflakeGenerator inserted] in *.
    change (0 + k)%nat with k. unfold maxSlugAttempts.
    destruct (Nat.leb_spec 5 k) as [Full|Free].
    + unfold bind at 1, lift at 1, console_warn at 1.
      match goal with
      | |- context [crawlCategory_loop E fuel siteId data rest acc ?h3] =>
          set (hw := h3)
      end.
      assert (Snowflake.inRange (snowflakeGenerator hw)) as Rw
          by (unfold hw; cbn [snowflakeGenerator]; now rewrite Hg).
      pose proof (IH acc hw Rw) as St.
      destruct (crawlCategory_loop E fuel siteId data rest acc hw) as [r h'].
      unfold hw in St. cbn [inserted queries warnings] in St.
      destruct St as (Hi' & (extra & Hq') & Hr).
      split; [congruence|]. split.
      { eexists. rewrite Hq', Hq, <- app_assoc. reflexivity. }
      destruct r as [cats|e|]; auto.
      destruct Hr as (new & logged & -> & Hw' & Hlen & Hall).
      exists new. eexists. split; [reflexivity|]. split.
      { rewrite Hw', Hw, <- app_assoc. reflexivity. }
      split; [|exact Hall].
      rewrite length_app. simpl. lia.
    + assert (Snowflake.inRange (snowflakeGenerator h2)) as R2
          by now rewrite Hg.
      pose proof (generate_step E fuel h2 R2) as Sg.
      unfold bind at 1.
      destruct (Snowflake.generate E fuel h2) as [[id|e|] h3].
      * destruct Sg as (_ & R3 & _ & _ & _ & _ & Hq3 & Hw3 & Hi3).
        match goal with
        | |- context [crawlCategory_loop E fuel siteId data rest ?acc' h3] =>
            pose proof (IH acc' h3 R3) as St;
              destruct (crawlCategory_loop E fuel siteId data rest acc' h3)
              as [r h']
        end.
        destruct St as (Hi' & (extra & Hq') & Hr).
        split; [congruence|]. split.
        { eexists. rewrite Hq', Hq3, Hq, <- app_assoc. reflexivity. }
        destruct r as [cats|e|]; auto.
        destruct Hr as (new & logged & -> & Hw' & Hlen & Hall).
        eexists. exists logged. split; [now rewrite <- app_assoc|]. split.
        { congruence. }
        split; [simpl; lia|].
        constructor; [|exact Hall]. simpl.
        apply foundFree_later with (h := h2) (extra := extra);
          [|congruence].
        exists (List.length (queries h) + k)%nat. split.
        { rewrite Hq, nth_error_app2 by lia.
          replace (List.length (queries h) + k - List.length (queries h))%nat
            with k by lia.
          rewrite nth_error_map, nth_error_seq.
          destruct (Nat.ltb_spec k (S k)); [reflexivity|lia]. }
        apply Hf. exact Free.
      * destruct Sg as (-> & _ & _ & Hq3 & _ & Hi3).
        split; [congruence|]. split; [|reflexivity].
        eexists. rewrite Hq3, Hq. reflexivity.
      * destruct Sg as (_ & _ & Hq3 & _ & Hi3).
        split; [congruence|]. split; [|exact I].
        eexists. rewrite Hq3, Hq. reflexivity.
Qed.



Lemma interleave_all_left {A : Type} (l a : list A) :
  interleave l a [] -> a = l.
Proof.
  intros H. remember [] as b eqn:Eb.
  induction H as [|x l a b H IH|x l a b H IH]; [reflexivity| |discriminate].
  f_equal. auto.
Qed.

Lemma interleave_length {A : Type} (l a b : list A) :
  interleave l a b -> (List.length a + List.length b = List.length l)%nat.
Proof. induction 1; simpl; lia. Qed.

Lemma interleave_subsequence {A : Type} (l a b : list A) :
  interleave l a b -> subsequence a l.
Proof. induction 1; now constructor. Qed.



(** What [createBatch] does with a batch that is not empty. *)
Lemma createBatch_spec E rows h :
  rows <> [] ->
  match execute_insert E (inserted h) rows with
  | Some error => createBatch E rows h = (Thrown (batchError error), h)
  | None =>
      exists h1,
        clockReads h1 = clockReads h /\ queries h1 = queries h /\
        warnings h1 = warnings h /\
        snowflakeGenerator h1 = snowflakeGenerator h /\
        inserted h1 = inserted h ++ rows /\
        createBatch E rows h =
        (match execute_select E (inserted h ++ rows) (map cat_id rows) with
         | inl error => Thrown (batchError error)
         | inr created => Returned created
         end, h1)
  end.
Proof.
  intros Hne. unfold createBatch.
  destruct rows as [|c rows]; [congruence|]. cbn [List.length Nat.eqb].
  destruct (execute_insert E (inserted h) (c :: rows)); [reflexivity|].
  exists {| clockReads := clockReads h; queries := queries h;
            warnings := warnings h;
            snowflakeGenerator := snowflakeGenerator h;
            inserted := inserted h ++ c :: rows |}.
  do 5 (split; [reflexivity|]).
  cbn [inserted].
  destruct (execute_select E (inserted h ++ c :: rows) (map cat_id (c :: rows)));
    reflexivity.
Qed.



(** The same crawl against a store whose connection drops after the
    [INSERT]: the call throws, "Sport" is in the table all the same, and
    "News" was logged and left out. *)
Example crawlCategory_throws_after_insert :
  crawlCategory_batch
    (droppingWorld (tickingClock 1700000000000) (takenFirst 6))
    0 "7" selectors scrapedTitles (freshHeap generator11)
  = (Thrown "Connection lost: The server closed the connection.",
     {| clockReads := 8; 
        queries :=
          [(SlugExistsForSite "7", "news-loyw3v28");
           (SlugExistsForSite "7", "news-loyw3v29");
           (SlugExistsForSite "7", "news-loyw3v2a");
           (SlugExistsForSite "7", "news-loyw3v2b");
           (SlugExistsForSite "7", "news-loyw3v2c");
           (SlugExistsForSite "7", "news-loyw3v2d");
           (SlugExistsForSite "7", "sport-loyw3v2e")];
        warnings := [skipWarning "News"];
        snowflakeGenerator :=
          {| datacenterId := 1; workerId := 1; sequence := 0;
             lastTimestamp := 1700000000007 |};
        inserted :=
          [{| cat_id := "379755639632695296"; cat_site_id := "7";
              cat_title := "Sport"; cat_slug := "sport-loyw3v2e";
              cat_title_selector := "h2.category-title";
              cat_link_selector := "a.category-link" |}] |}).
Proof. vm_compute. reflexivity. Qed.



(* ===================================================================== *)
(** ** The identifier generator: further properties *)
(* ===================================================================== *)

Lemma StronglySorted_lt_NoDup (l : list Z) : StronglySorted Z.lt l -> NoDup l.
Proof.
  induction 1 as [|a l _ IH Ha]; constructor; [|exact IH].
  intros In. rewrite Forall_forall in Ha. specialize (Ha a In). lia.
Qed.

Lemma NoDup_map_injective {A B : Type} (f : A -> B) (l : list A) :
  (forall a b, f a = f b -> a = b) -> NoDup l -> NoDup (map f l).
Proof.
  intros Inj. induction 1 as [|a l Ha _ IH]; simpl; constructor; [|exact IH].
  intros In. apply in_map_iff in In. destruct In as (b & Hb & Hin).
  apply Inj in Hb. now subst b.
Qed.

(** X1.  Whatever the clock does, and also across calls that were
    refused, one instance never returns the same identifier twice: the
    identifiers of a run are strictly increasing. *)
Theorem issued_identifiers_never_repeat (E : Env) (fuel n : nat) (h : Heap) :
  Snowflake.inRange (snowflakeGenerator h) ->
  NoDup (Snowflake.issued (fst (Snowflake.generateMany E fuel n h))) /\
  exists ids,
    Snowflake.issued (fst (Snowflake.generateMany E fuel n h))
    = map Js.bigint_toString ids /\
    StronglySorted Z.lt ids.
Proof.
  intros R.
  destruct (generateMany_issued E fuel n h R) as (ids & Hi & Hs & _).
  split; [|eauto].
  rewrite Hi. apply NoDup_map_injective.
  - apply bigint_toString_inj.
  - now apply StronglySorted_lt_NoDup.
Qed.

Lemma issued_identifiers_never_repeat_witness :
  NoDup (Snowflake.issued
           (fst (Snowflake.generateMany
                   (world (jumpyClock 1700000000000) emptyStore) 0 4
                   (freshHeap generator11)))).
Proof.
  apply (issued_identifiers_never_repeat
           (world (jumpyClock 1700000000000) emptyStore) 0 4
           (freshHeap generator11)).
  repeat split; vm_compute; discriminate.
Defined.

(** X2.  A call in the millisecond of the previous call, with the
    sequence counter not yet at its maximum, returns the previous
    identifier plus one: the sequence field grows by exactly one and the
    other three fields stay as they were; one clock reading is taken. *)
Theorem generate_same_millisecond_successor (E : Env) (fuel0 fuel : nat)
        (h0 h1 : Heap) (s1 : string) :
  Snowflake.inRange (snowflakeGenerator h0) ->
  Snowflake.generate E fuel0 h0 = (Returned s1, h1) ->
  Date_now E (clockReads h1) = lastTimestamp (snowflakeGenerator h1) ->
  sequence (snowflakeGenerator h1) < Snowflake.maxSequence ->
  exists id1 h2,
    s1 = Js.bigint_toString id1 /\
    Snowflake.generate E fuel h1 = (Returned (Js.bigint_toString (id1 + 1)), h2) /\
    clockReads h2 = S (clockReads h1) /\
    Snowflake.sequenceField (id1 + 1) = Snowflake.sequenceField id1 + 1 /\
    Snowflake.timestampField (id1 + 1) = Snowflake.timestampField id1 /\
    Snowflake.datacenterField (id1 + 1) = Snowflake.datacenterField id1 /\
    Snowflake.workerField (id1 + 1) = Snowflake.workerField id1.
Proof.
  intros R0 G1 Same Room.
  pose proof (generate_step E fuel0 h0 R0) as St0. rewrite G1 in St0.
  destruct St0 as (-> & R1 & _).
  set (g1 := snowflakeGenerator h1) in *.
  pose proof R1 as (Hd & Hw & Hs).
  destruct (next_sequence (sequence g1) Hs) as (B & Inc & Wrap).
  assert (Z.land (sequence g1 + 1) Snowflake.maxSequence <> 0) as Nz
      by (intros Z0; apply Wrap in Z0; lia).
  specialize (Inc Nz).
  exists (Snowflake.lastId g1). eexists.
  split; [reflexivity|].
  rewrite generate_same by assumption. fold g1. rewrite Same, Inc.
  set (g2 := reseq g1 (sequence g1 + 1) (lastTimestamp g1)).
  assert (Snowflake.inRange g2) as R2 by (repeat split; simpl; lia).
  assert (Snowflake.assemble g2 (lastTimestamp g1) = Snowflake.lastId g1 + 1)
    as Hid.
  { unfold Snowflake.lastId. rewrite !assemble_sum by assumption.
    simpl. ring. }
  rewrite Hid. split; [reflexivity|]. split; [reflexivity|].
  destruct (lastId_fields g1 R1) as (T1 & D1 & W1 & S1).
  destruct (lastId_fields g2 R2) as (T2 & D2 & W2 & S2).
  unfold Snowflake.lastId in T2, D2, W2, S2. simpl lastTimestamp in *.
  rewrite Hid in T2, D2, W2, S2.
  rewrite T1, D1, W1, S1, T2, D2, W2, S2. simpl. auto.
Qed.

Lemma generate_same_millisecond_successor_witness :
  exists id1 h2,
    "379755639603335168" = Js.bigint_toString id1 /\
    Snowflake.generate (world (frozenClock 1700000000000) emptyStore) 0
      (snd (Snowflake.generate (world (frozenClock 1700000000000) emptyStore)
              0 (freshHeap generator11)))
    = (Returned (Js.bigint_toString (id1 + 1)), h2).
Proof.
  destruct (generate_same_millisecond_successor
              (world (frozenClock 1700000000000) emptyStore) 0 0
              (freshHeap generator11)
              (snd (Snowflake.generate
                      (world (frozenClock 1700000000000) emptyStore)
                      0 (freshHeap generator11)))
              "379755639603335168")
    as (id1 & h2 & H1 & H2 & _).
  - repeat split; vm_compute; discriminate.
  - vm_compute. reflexivity.
  - vm_compute. reflexivity.
  - vm_compute. reflexivity.
  - exists id1, h2. split; assumption.
Defined.

(** X3.  Decoding a returned identifier gives back everything that went
    into it: the timestamp field plus the epoch is the millisecond the
    generator recorded, which is a clock reading of this very call; the
    sequence field is the counter; the node fields are the ids; and the
    four fields put together again are the identifier. *)
Theorem decode_recovers_all_fields (E : Env) (fuel : nat) (h h' : Heap)
        (s : string) :
  Snowflake.inRange (snowflakeGenerator h) ->
  Snowflake.generate E fuel h = (Returned s, h') ->
  exists id,
    Js.parseBigInt s = Some id /\
    Snowflake.timestampField id + Snowflake.epoch
    = lastTimestamp (snowflakeGenerator h') /\
    (exists k, (clockReads h <= k < clockReads h')%nat /\
               Snowflake.timestampField id + Snowflake.epoch = Date_now E k) /\
    Snowflake.sequenceField id = sequence (snowflakeGenerator h') /\
    Snowflake.datacenterField id = datacenterId (snowflakeGenerator h) /\
    Snowflake.workerField id = workerId (snowflakeGenerator h) /\
    id = Z.lor (Z.lor (Z.lor (Z.shiftl (Snowflake.timestampField id) 22)
                             (Z.shiftl (Snowflake.datacenterField id) 17))
                      (Z.shiftl (Snowflake.workerField id) 12))
               (Snowflake.sequenceField id).
Proof.
  intros R G.
  pose proof (generate_step E fuel h R) as St. rewrite G in St.
  destruct St as (-> & R' & Hd & Hw & _ & (k & Hk & Hlast) & _).
  exists (Snowflake.lastId (snowflakeGenerator h')).
  destruct (lastId_fields _ R') as (T & D & W & S).
  rewrite parseBigInt_toString, T, D, W, S.
  split; [reflexivity|]. split; [lia|]. split.
  { exists k. split; [exact Hk|]. lia. }
  split; [reflexivity|]. split; [exact Hd|]. split; [exact Hw|].
  reflexivity.
Qed.

Lemma decode_recovers_all_fields_witness :
  exists id,
    Js.parseBigInt "379755639603335168" = Some id /\
    Snowflake.timestampField id + Snowflake.epoch = 1700000000000.
Proof.
  destruct (decode_recovers_all_fields
              (world (frozenClock 1700000000000) emptyStore) 0
              (freshHeap generator11)
              (snd (Snowflake.generate
                      (world (frozenClock 1700000000000) emptyStore)
                      0 (freshHeap generator11)))
              "379755639603335168")
    as (id & Hp & Ht & _).
  - repeat split; vm_compute; discriminate.
  - vm_compute. reflexivity.
  - exists id. split; [exact Hp | exact Ht].
Defined.

Lemma waitLoop_stuck E last :
  forall fuel ts h,
    ts <= last ->
    (forall k, (clockReads h <= k)%nat -> Date_now E k <= last) ->
    fst (Snowflake.waitLoop E fuel last ts h) = Diverged.
Proof.
  induction fuel as [|fuel IH]; intros ts h Hts Hall; simpl;
    (assert ((ts <=? last) = true) as -> by (apply Z.leb_le; exact Hts)).
  - reflexivity.
  - run. apply IH.
    + apply Hall. lia.
    + intros k Hk. apply Hall. simpl in Hk. lia.
Qed.

Lemma generate_stuck E fuel h :
  Date_now E (clockReads h) = lastTimestamp (snowflakeGenerator h) ->
  sequence (snowflakeGenerator h) = Snowflake.maxSequence ->
  (forall k, (clockReads h <= k)%nat ->
             Date_now E k <= lastTimestamp (snowflakeGenerator h)) ->
  fst (Snowflake.generate E fuel h) = Diverged.
Proof.
  intros Same Full Hall.
  rewrite generate_wrap; [|exact Same|now rewrite Full].
  unfold Snowflake.waitNextMillis, Snowflake.currentTimestamp, bind, lift.
  simpl.
  match goal with
  | |- context [Snowflake.waitLoop E fuel ?l ?ts ?h1] =>
      pose proof (waitLoop_stuck E l fuel ts h1) as W
  end.
  simpl in W.
  destruct (Snowflake.waitLoop E fuel _ _ _) as [r h'].
  simpl in W. rewrite W; [reflexivity| |].
  - apply Hall. lia.
  - intros k Hk. apply Hall. lia.
Qed.

(** X4.  When the sequence counter is at its maximum and the clock never
    again shows a millisecond later than the recorded one, a call in that
    millisecond does not return: for every bound on the number of
    readings the spin of [waitNextMillis] is still running, and no
    identifier and no error comes out. *)
Theorem generate_spins_while_clock_stands (E : Env) (h : Heap) :
  Date_now E (clockReads h) = lastTimestamp (snowflakeGenerator h) ->
  sequence (snowflakeGenerator h) = Snowflake.maxSequence ->
  (forall k, (clockReads h <= k)%nat ->
             Date_now E k <= lastTimestamp (snowflakeGenerator h)) ->
  forall fuel, fst (Snowflake.generate E fuel h) = Diverged.
Proof.
  intros Same Full Hall fuel. now apply generate_stuck.
Qed.

Lemma generate_spins_while_clock_stands_witness :
  fst (Snowflake.generate (world (frozenClock 1700000000000) emptyStore) 1000
         (freshHeap {| datacenterId := 1; workerId := 1; sequence := 4095;
                       lastTimestamp := 1700000000000 |})) = Diverged.
Proof.
  apply (generate_spins_while_clock_stands
           (world (frozenClock 1700000000000) emptyStore)
           (freshHeap {| datacenterId := 1; workerId := 1; sequence := 4095;
                         lastTimestamp := 1700000000000 |})).
  - reflexivity.
  - reflexivity.
  - intros k _. simpl. unfold frozenClock. lia.
Defined.

(** X5.  A returned identifier is non-negative exactly when the recorded
    millisecond is not before the epoch, in which case its decimal string
    has no sign; and it stays below 2^63 as long as the millisecond is
    less than 2^41 ms after the epoch. *)
Theorem identifier_sign_and_width (E : Env) (fuel : nat) (h h' : Heap)
        (s : string) :
  Snowflake.inRange (snowflakeGenerator h) ->
  Snowflake.generate E fuel h = (Returned s, h') ->
  exists id,
    s = Js.bigint_toString id /\
    (0 <= id <-> Snowflake.epoch <= lastTimestamp (snowflakeGenerator h')) /\
    (lastTimestamp (snowflakeGenerator h') < Snowflake.epoch + 2 ^ 41 ->
     id < 2 ^ 63) /\
    (Snowflake.epoch <= lastTimestamp (snowflakeGenerator h') ->
     String.prefix "-" s = false).
Proof.
  intros R G.
  pose proof (generate_step E fuel h R) as St. rewrite G in St.
  destruct St as (-> & R' & _).
  exists (Snowflake.lastId (snowflakeGenerator h')).
  split; [reflexivity|].
  assert (Snowflake.lastId (snowflakeGenerator h')
          = (lastTimestamp (snowflakeGenerator h') - Snowflake.epoch) * 4194304
            + datacenterId (snowflakeGenerator h') * 131072
            + workerId (snowflakeGenerator h') * 4096
            + sequence (snowflakeGenerator h')) as Hid
      by (unfold Snowflake.lastId; now rewrite assemble_sum).
  destruct R' as (Hd & Hw & Hs).
  change Snowflake.maxDatacenterId with 31 in Hd.
  change Snowflake.maxWorkerId with 31 in Hw.
  change Snowflake.maxSequence with 4095 in Hs.
  change (2 ^ 41) with 2199023255552. change (2 ^ 63) with 9223372036854775808.
  split; [lia|]. split; [lia|].
  intros Ge.
  assert (0 <= Snowflake.lastId (snowflakeGenerator h')) as Nn by lia.
  unfold Js.bigint_toString.
  destruct (Snowflake.lastId (snowflakeGenerator h')) as [|p|p]; [| |lia].
  - reflexivity.
  - simpl. unfold NilZero.string_of_uint.
    destruct (Pos.to_uint p); reflexivity.
Qed.

Lemma identifier_sign_and_width_witness :
  exists id,
    "379755639603335168" = Js.bigint_toString id /\
    (0 <= id <-> Snowflake.epoch <= 1700000000000) /\
    (1700000000000 < Snowflake.epoch + 2 ^ 41 -> id < 2 ^ 63).
Proof.
  destruct (identifier_sign_and_width
              (world (frozenClock 1700000000000) emptyStore) 0
              (freshHeap generator11)
              (snd (Snowflake.generate
                      (world (frozenClock 1700000000000) emptyStore)
                      0 (freshHeap generator11)))
              "379755639603335168")
    as (id & Hs & Hsign & Hw & _).
  - repeat split; vm_compute; discriminate.
  - vm_compute. reflexivity.
  - exists id. repeat split; try apply Hsign; auto.
Defined.

(** X6.  Two generators whose node identities differ, in the datacenter
    id or in the worker id, never return the same identifier, whatever
    their clocks and their histories are. *)
Theorem distinct_nodes_distinct_identifiers (E1 E2 : Env) (fuel1 fuel2 : nat)
        (h1 h2 h1' h2' : Heap) (s1 s2 : string) :
  Snowflake.inRange (snowflakeGenerator h1) ->
  Snowflake.inRange (snowflakeGenerator h2) ->
  datacenterId (snowflakeGenerator h1) <> datacenterId (snowflakeGenerator h2)
  \/ workerId (snowflakeGenerator h1) <> workerId (snowflakeGenerator h2) ->
  Snowflake.generate E1 fuel1 h1 = (Returned s1, h1') ->
  Snowflake.generate E2 fuel2 h2 = (Returned s2, h2') ->
  s1 <> s2.
Proof.
  intros R1 R2 Hne G1 G2 Heq.
  pose proof (generate_step E1 fuel1 h1 R1) as St1. rewrite G1 in St1.
  pose proof (generate_step E2 fuel2 h2 R2) as St2. rewrite G2 in St2.
  destruct St1 as (-> & R1' & Hd1 & Hw1 & _).
  destruct St2 as (-> & R2' & Hd2 & Hw2 & _).
  apply bigint_toString_inj in Heq.
  destruct (lastId_fields _ R1') as (_ & D1 & W1 & _).
  destruct (lastId_fields _ R2') as (_ & D2 & W2 & _).
  rewrite Heq in D1, W1.
  destruct Hne as [Hne|Hne]; apply Hne; congruence.
Qed.

Lemma distinct_nodes_distinct_identifiers_witness :
  "379755639603335168" <> "379755639603339264".
Proof.
  apply (distinct_nodes_distinct_identifiers
           (world (frozenClock 1700000000000) emptyStore)
           (world (frozenClock 1700000000000) emptyStore) 0 0
           (freshHeap generator11)
           (freshHeap {| datacenterId := 1; workerId := 2; sequence := 0;
                         lastTimestamp := -1 |})
           (snd (Snowflake.generate
                   (world (frozenClock 1700000000000) emptyStore) 0
                   (freshHeap generator11)))
           (snd (Snowflake.generate
                   (world (frozenClock 1700000000000) emptyStore) 0
                   (freshHeap {| datacenterId := 1; workerId := 2;
                                 sequence := 0; lastTimestamp := -1 |})))).
  - repeat split; vm_compute; discriminate.
  - repeat split; vm_compute; discriminate.
  - right. simpl. discriminate.
  - vm_compute. reflexivity.
  - vm_compute. reflexivity.
Defined.

Lemma generateMany_S E fuel n h :
  Snowflake.generateMany E fuel (S n) h =
  match Snowflake.generate E fuel h with
  | (Diverged, h') => ([Diverged], h')
  | (r, h') =>
      let '(rs, h'') := Snowflake.generateMany E fuel n h' in (r :: rs, h'')
  end.
Proof. reflexivity. Qed.

(** Under a clock that stands at the recorded millisecond, a generator
    whose counter is [n] short of its maximum returns [n] consecutive
    identifiers and then spins. *)
Lemma standing_clock_run E fuel t :
  (forall k, Date_now E k = t) ->
  forall n m h,
    Snowflake.inRange (snowflakeGenerator h) ->
    lastTimestamp (snowflakeGenerator h) = t ->
    sequence (snowflakeGenerator h) + Z.of_nat n = Snowflake.maxSequence ->
    fst (Snowflake.generateMany E fuel (n + S m) h)
    = map (fun i => Returned
                      (Js.bigint_toString
                         (Snowflake.lastId (snowflakeGenerator h) + 1 + Z.of_nat i)))
          (seq 0 n)
      ++ [Diverged].
Proof.
  intros Frozen. induction n as [|n IH]; intros m h R Hlast Hseq.
  - cbn [Nat.add seq map app]. rewrite generateMany_S.
    pose proof (generate_stuck E fuel h) as St.
    rewrite Frozen, Hlast in St.
    specialize (St eq_refl ltac:(lia) ltac:(intros; rewrite Frozen; lia)).
    destruct (Snowflake.generate E fuel h) as [r h']. simpl in St. now subst r.
  - cbn [Nat.add]. rewrite generateMany_S.
    set (g := snowflakeGenerator h) in *.
    pose proof R as (Hd & Hw & Hs).
    destruct (next_sequence (sequence g) Hs) as (B & Inc & Wrap).
    assert (Z.land (sequence g + 1) Snowflake.maxSequence <> 0) as Nz
        by (intros Z0; apply Wrap in Z0; lia).
    specialize (Inc Nz).
    rewrite generate_same; [|rewrite Frozen; symmetry; exact Hlast|exact Nz].
    fold g. rewrite Frozen, Inc.
    set (g' := reseq g (sequence g + 1) t).
    assert (Snowflake.inRange g') as R' by (repeat split; simpl; lia).
    assert (Snowflake.assemble g' t = Snowflake.lastId g + 1) as Hid.
    { unfold Snowflake.lastId. rewrite !assemble_sum by assumption.
      simpl. rewrite Hlast. ring. }
    specialize (IH m (with_generator g' (snd (now E h))) R' eq_refl
                   ltac:(simpl; lia)).
    destruct (Snowflake.generateMany E fuel (n + S m) _) as [rs h''].
    simpl fst in *. rewrite IH.
    change (seq 0 (S n)) with (0%nat :: seq 1 n).
    rewrite <- seq_shift. cbn [map app]. rewrite map_map.
    rewrite Hid, Z.add_0_r. f_equal.
    f_equal. apply map_ext. intros i.
    cbn [snowflakeGenerator with_generator].
    unfold Snowflake.lastId at 1. cbn [lastTimestamp g' reseq].
    fold g'. rewrite Hid. do 2 f_equal. lia.
Qed.

(** X7.  One millisecond holds exactly 4096 identifiers: under a clock
    standing at a millisecond later than the recorded one, 4096 calls in a
    row return consecutive identifiers, starting with sequence 0, and the
    next call does not return. *)
Theorem one_millisecond_holds_4096 (E : Env) (fuel m : nat) (t : Z) (h : Heap) :
  (forall k, Date_now E k = t) ->
  Snowflake.inRange (snowflakeGenerator h) ->
  lastTimestamp (snowflakeGenerator h) < t ->
  fst (Snowflake.generateMany E fuel (4096 + S m) h)
  = map (fun i => Returned
                    (Js.bigint_toString
                       (Snowflake.assemble (reseq (snowflakeGenerator h) 0 t) t
                        + Z.of_nat i)))
        (seq 0 4096)
    ++ [Diverged].
Proof.
  intros Frozen R Lt.
  change (4096 + S m)%nat with (S (4095 + S m)).
  rewrite generateMany_S.
  rewrite generate_later; [|now rewrite Frozen].
  rewrite Frozen.
  set (g' := reseq (snowflakeGenerator h) 0 t).
  assert (Snowflake.inRange g') as R'
      by (destruct R as (Hd & Hw & _); repeat split; simpl; try lia;
          discriminate).
  pose proof (standing_clock_run E fuel t Frozen 4095 m
                (with_generator g' (snd (now E h))) R' eq_refl eq_refl) as Run.
  destruct (Snowflake.generateMany E fuel (4095 + S m) _) as [rs h''].
  simpl fst in *. rewrite Run.
  change (seq 0 4096) with (0%nat :: seq 1 4095).
  rewrite <- seq_shift. cbn [map app]. rewrite map_map.
  rewrite Z.add_0_r. f_equal. f_equal. apply map_ext. intros i.
  cbn [snowflakeGenerator with_generator].
  unfold Snowflake.lastId. cbn [lastTimestamp g' reseq]. fold g'.
  do 2 f_equal. lia.
Qed.

Lemma one_millisecond_holds_4096_witness :
  fst (Snowflake.generateMany (world (frozenClock 1700000000000) emptyStore)
         3 (4096 + 1) (freshHeap generator11))
  = map (fun i => Returned
                    (Js.bigint_toString
                       (Snowflake.assemble
                          (reseq generator11 0 1700000000000) 1700000000000
                        + Z.of_nat i)))
        (seq 0 4096)
    ++ [Diverged].
Proof.
  apply (one_millisecond_holds_4096
           (world (frozenClock 1700000000000) emptyStore) 3 0 1700000000000
           (freshHeap generator11)).
  - intros k. reflexivity.
  - repeat split; vm_compute; discriminate.
  - simpl. lia.
Defined.

(* ===================================================================== *)
(** ** Slug resolution: further properties *)
(* ===================================================================== *)

Lemma append_cancel_l (a b c : string) :
  (a ++ b)%string = (a ++ c)%string -> b = c.
Proof. induction a as [|x a IH]; simpl; [auto|]. intros [= H]. auto. Qed.

Lemma toString36_inj (x y : Z) :
  0 <= x -> 0 <= y -> Js.toString36 x = Js.toString36 y -> x = y.
Proof.
  intros Hx Hy H.
  rewrite <- (value36_toString36 x Hx), <- (value36_toString36 y Hy).
  now rewrite H.
Qed.

(** X8.  For one title, [generateUniqueSlug] gives the same slug in two
    calls exactly when both read the same millisecond from the clock
    (readings not before 1970): within one millisecond the slug repeats,
    across milliseconds it never does. *)
Theorem unique_slug_repeats_within_millisecond (E : Env) (title : string)
        (h1 h2 : Heap) :
  0 <= Date_now E (clockReads h1) ->
  0 <= Date_now E (clockReads h2) ->
  (fst (generateUniqueSlug E title h1) = fst (generateUniqueSlug E title h2)
   <-> Date_now E (clockReads h1) = Date_now E (clockReads h2)).
Proof.
  intros H1 H2. rewrite !generateUniqueSlug_eq. simpl. unfold candidate.
  split.
  - intros H. apply append_cancel_l in H.
    change ("-" ++ Js.toString36 (Date_now E (clockReads h1)))%string
      with (String "-" (Js.toString36 (Date_now E (clockReads h1)))) in H.
    injection H as H. now apply toString36_inj.
  - now intros ->.
Qed.

Lemma unique_slug_repeats_within_millisecond_witness :
  fst (generateUniqueSlug (world (stuckClock 2 1700000000000) emptyStore)
         "Example Site" (freshHeap generator11))
  = fst (generateUniqueSlug (world (stuckClock 2 1700000000000) emptyStore)
           "Example Site"
           (snd (generateUniqueSlug
                   (world (stuckClock 2 1700000000000) emptyStore)
                   "Example Site" (freshHeap generator11)))).
Proof.
  apply (unique_slug_repeats_within_millisecond
           (world (stuckClock 2 1700000000000) emptyStore) "Example Site"
           (freshHeap generator11)
           (snd (generateUniqueSlug
                   (world (stuckClock 2 1700000000000) emptyStore)
                   "Example Site" (freshHeap generator11)))).
  - vm_compute. discriminate.
  - vm_compute. discriminate.
  - reflexivity.
Defined.

(** X9.  When the whole resolution falls into one millisecond and the
    store answers by the slug alone, retrying cannot help: either the
    first candidate is free and returned after one query, or it is taken
    and the call throws after asking six times about the very same
    slug. *)
Theorem retries_within_one_millisecond_are_futile (E : Env) (sc : Scope)
        (message title : string) (h : Heap) :
  (forall i, (i <= 5)%nat ->
             Date_now E (clockReads h + i) = Date_now E (clockReads h)) ->
  (forall k k' s, store E k sc s = store E k' sc s) ->
  let first := candidate E title (clockReads h) in
  exists h',
    resolveSlug E sc message title h
    = ((if store E 0 sc first then Thrown message else Returned first), h') /\
    queries h' =
    queries h ++ repeat (sc, first) (if store E 0 sc first then 6 else 1).
Proof.
  intros Frozen Static first.
  destruct (resolveSlug_spec E sc message title h)
    as (k & h' & Hk & Hr & _ & Hq & Hkt & Hkf & _).
  assert (forall i, (i <= 5)%nat -> candidate E title (clockReads h + i) = first)
    as Hcand by (intros i Hi; unfold first, candidate; now rewrite Frozen).
  assert (forall i, (i <= 5)%nat -> answer E sc title h i = store E 0 sc first)
    as Hans.
  { intros i Hi. unfold answer. rewrite Hcand by exact Hi. apply Static. }
  exists h'. destruct (store E 0 sc first) eqn:S0.
  - assert (k = 5)%nat as ->.
    { destruct (Nat.eq_dec k 5) as [|Ne]; [assumption|].
      specialize (Hkf ltac:(lia)). rewrite Hans in Hkf by lia. discriminate. }
    split; [exact Hr|]. rewrite Hq. f_equal.
    cbn [seq map repeat]. now rewrite !Hcand by lia.
  - assert (k = 0)%nat as ->.
    { destruct k as [|k]; [reflexivity|].
      specialize (Hkt 0%nat ltac:(lia)). rewrite Hans in Hkt by lia.
      discriminate. }
    rewrite Hr, Hq. cbn [seq map repeat Nat.ltb Nat.leb].
    now rewrite !Hcand by lia.
Qed.

Lemma retries_within_one_millisecond_are_futile_witness :
  exists h',
    resolveSlug (world (frozenClock 1700000000000)
                       (fun _ _ s => String.eqb s "example-site-loyw3v28"))
      SlugExists "taken" "Example Site" (freshHeap generator11)
    = (Thrown "taken", h') /\
    queries h' = repeat (SlugExists, "example-site-loyw3v28") 6.
Proof.
  apply (retries_within_one_millisecond_are_futile
           (world (frozenClock 1700000000000)
                  (fun _ _ s => String.eqb s "example-site-loyw3v28"))
           SlugExists "taken" "Example Site" (freshHeap generator11)).
  - intros i _. reflexivity.
  - intros k k' s. reflexivity.
Defined.

(** X10.  Every resolution, whatever the store answers, sends between one
    and six existence queries, reads the clock once per query, asks only
    in the scope it was given and only about candidates of its title, and
    leaves the generator, the log and the inserted rows alone. *)
Theorem resolution_cost_and_footprint (E : Env) (sc : Scope)
        (message title : string) (h : Heap) :
  let h' := snd (resolveSlug E sc message title h) in
  (1 <= roundTrips h h' <= 6)%nat /\
  clockReads h' = (clockReads h + roundTrips h h')%nat /\
  queries h' =
  queries h ++
    map (fun i => (sc, candidate E title (clockReads h + i)))
        (seq 0 (roundTrips h h')) /\
  snowflakeGenerator h' = snowflakeGenerator h /\
  warnings h' = warnings h /\
  inserted h' = inserted h.
Proof.
  destruct (resolveSlug_spec E sc message title h)
    as (k & h1 & Hk & Hr & Hc & Hq & _ & _ & Hw & Hg & Hi).
  rewrite Hr. cbn [snd].
  assert (roundTrips h h1 = S k) as ->
      by (unfold roundTrips; rewrite Hq, length_app, length_map, length_seq; lia).
  repeat split; auto; lia.
Qed.

(** X11.  [updateCategory] resolves its slug in the scope of the site
    with the category itself left out: when the first five candidates are
    found taken there, it throws its own exhaustion error after six
    queries, all in that scope; when the fifth is the first one found
    free, the fifth is the slug. *)
Theorem updateCategory_slug_exhaustion (E : Env)
        (siteId categoryId title : string) (h : Heap) :
  let sc := SlugExistsForSiteExcludingId siteId categoryId in
  ((forall i, (i < 5)%nat -> answer E sc title h i = true) ->
   exists h',
     updateCategory_slug E siteId categoryId title h
     = (Thrown "Failed to generate unique slug. Please try again.", h') /\
     queries h' =
     queries h ++
       map (fun i => (sc, candidate E title (clockReads h + i))) (seq 0 6)) /\
  ((forall i, (i < 4)%nat -> answer E sc title h i = true) ->
   answer E sc title h 4 = false ->
   exists h',
     updateCategory_slug E siteId categoryId title h
     = (Returned (candidate E title (clockReads h + 4)), h')).
Proof.
  intros sc. unfold updateCategory_slug. fold sc.
  destruct (resolveSlug_spec E sc
              "Failed to generate unique slug. Please try again." title h)
    as (k & h' & Hk & Hr & _ & Hq & Hkt & Hkf & _).
  split.
  - intros Ht.
    assert (k = 5)%nat as ->.
    { destruct (Nat.eq_dec k 5) as [|Ne]; [assumption|].
      specialize (Ht k ltac:(lia)). specialize (Hkf ltac:(lia)). congruence. }
    exists h'. split; [exact Hr | exact Hq].
  - intros Ht Hf.
    assert (k = 4)%nat as ->.
    { destruct (Nat.lt_trichotomy k 4) as [Lt|[Eq|Gt]]; [|exact Eq|].
      - specialize (Ht k Lt). specialize (Hkf ltac:(lia)). congruence.
      - specialize (Hkt 4%nat Gt). congruence. }
    exists h'. exact Hr.
Qed.

Lemma updateCategory_slug_exhaustion_witness :
  (exists h',
      updateCategory_slug (world (tickingClock 1700000000000) (takenFirst 5))
        "7" "99" "News" (freshHeap generator11)
      = (Thrown "Failed to generate unique slug. Please try again.", h') /\
      queries h' =
      map (fun i => (SlugExistsForSiteExcludingId "7" "99",
                     candidate (world (tickingClock 1700000000000) (takenFirst 5))
                               "News" i))
          (seq 0 6)) /\
  (exists h',
      updateCategory_slug (world (tickingClock 1700000000000) (takenFirst 4))
        "7" "99" "News" (freshHeap generator11)
      = (Returned "news-loyw3v2c", h')).
Proof.
  split.
  - apply (proj1 (updateCategory_slug_exhaustion
                    (world (tickingClock 1700000000000) (takenFirst 5))
                    "7" "99" "News" (freshHeap generator11))).
    intros i Hi. unfold answer, takenFirst. simpl. apply Nat.ltb_lt. exact Hi.
  - apply (proj2 (updateCategory_slug_exhaustion
                    (world (tickingClock 1700000000000) (takenFirst 4))
                    "7" "99" "News" (freshHeap generator11))).
    + intros i Hi. unfold answer, takenFirst. simpl. apply Nat.ltb_lt. exact Hi.
    + reflexivity.
Defined.

(* ===================================================================== *)
(** ** The batch of [crawlCategory]: further properties *)
(* ===================================================================== *)

(** The rows the loop collects: in the order of the titles, for this
    site and these selectors, each with a candidate of its own title as
    slug, and with identifiers that increase from row to row. *)
Lemma crawlCategory_loop_rows E fuel siteId data :
  forall titles acc h,
    Snowflake.inRange (snowflakeGenerator h) ->
    let '(r, h') := crawlCategory_loop E fuel siteId data titles acc h in
    match r with
    | Returned cats =>
        exists new ids,
          cats = acc ++ new /\
          subsequence (map cat_title new) titles /\
          Forall (fun c =>
                    cat_site_id c = siteId /\
                    cat_title_selector c = trim (title_selector data) /\
                    cat_link_selector c = trim (link_selector data) /\
                    exists k, cat_slug c = candidate E (cat_title c) k) new /\
          map cat_id new = map Js.bigint_toString ids /\
          StronglySorted Z.lt ids /\
          Forall (fun id => Snowflake.lastId (snowflakeGenerator h) < id) ids
    | _ => True
    end.
Proof.
  induction titles as [|title rest IH]; intros acc h R.
  - simpl. unfold ret. exists [], []. rewrite List.app_nil_r.
    repeat split; constructor.
  - cbn [crawlCategory_loop]. unfold bind at 1, lift at 1.
    rewrite generateUniqueSlug_eq. unfold bind at 1, lift at 1.
    destruct (slugLoop_spec E (SlugExistsForSite siteId) title 5 0
                (candidate E title (clockReads h)) (snd (now E h)) eq_refl)
      as (k & h2 & Hk & -> & _ & _ & _ & _ & _ & Hg & _).
    cbn [now snd clockReads queries warnings snowflakeGenerator inserted] in *.
    change (0 + k)%nat with k. unfold maxSlugAttempts.
    rewrite checked_candidate.
    destruct (Nat.leb_spec 5 k) as [Full|Free].
    + unfold bind at 1, lift at 1, console_warn at 1.
      match goal with
      | |- context [crawlCategory_loop E fuel siteId data rest acc ?h3] =>
          set (hw := h3)
      end.
      assert (Snowflake.inRange (snowflakeGenerator hw)) as Rw
          by (unfold hw; cbn [snowflakeGenerator]; now rewrite Hg).
      pose proof (IH acc hw Rw) as St.
      destruct (crawlCategory_loop E fuel siteId data rest acc hw)
        as [[cats|e|] h']; auto.
      destruct St as (new & ids & -> & Hsub & Hall & Hids & Hs & Hlow).
      exists new, ids. split; [reflexivity|].
      split; [now constructor|].
      unfold hw in Hlow. cbn [snowflakeGenerator] in Hlow. rewrite Hg in Hlow.
      auto.
    + assert (Snowflake.inRange (snowflakeGenerator h2)) as R2
          by now rewrite Hg.
      pose proof (generate_step E fuel h2 R2) as Sg.
      unfold bind at 1.
      destruct (Snowflake.generate E fuel h2) as [[id|e|] h3]; auto.
      destruct Sg as (-> & R3 & Hd & Hw & Hstep & _).
      pose proof (lastId_lt _ _ R2 R3 Hd Hw Hstep) as Lt. rewrite Hg in Lt.
      match goal with
      | |- context [crawlCategory_loop E fuel siteId data rest ?acc' h3] =>
          pose proof (IH acc' h3 R3) as St;
            destruct (crawlCategory_loop E fuel siteId data rest acc' h3)
            as [[cats|e|] h']; auto
      end.
      destruct St as (new & ids & -> & Hsub & Hall & Hids & Hs & Hlow).
      eexists (_ :: new). exists (Snowflake.lastId (snowflakeGenerator h3) :: ids).
      split; [now rewrite <- app_assoc|]. cbn [map cat_title cat_id].
      split; [now constructor|].
      split.
      { constructor; [|exact Hall]. cbn. repeat split. eauto. }
      split; [now rewrite Hids|].
      split.
      { constructor; assumption. }
      constructor; [exact Lt|].
      eapply Forall_impl; [|exact Hlow]. cbn. intros a Ha. lia.
Qed.

Lemma subsequence_nil_l {A : Type} (l : list A) : subsequence [] l.
Proof. induction l; now constructor. Qed.

(** X12.  The batch a crawl puts together follows the order of the
    scraped titles, with nothing added; each row belongs to the site,
    carries the selectors of the request and a candidate of its own
    title as slug; the identifiers are pairwise distinct, increase with
    the order of the rows and lie above the generator's last one.
    Whatever the call inserts is this batch, whole, and a response lists
    what the [SELECT] of [createBatch] answered for the identifiers of
    the batch, in the order the store chose. *)
Theorem crawlCategory_rows_follow_titles (E : Env) (fuel : nat)
        (siteId : string) (data : ICreateCategoryDTO) (titles : list string)
        (h : Heap) :
  Snowflake.inRange (snowflakeGenerator h) ->
  let '(r, h') := crawlCategory_batch E fuel siteId data titles h in
  exists rows ids,
    subsequence (map cat_title rows) titles /\
    Forall (fun c =>
              cat_site_id c = siteId /\
              cat_title_selector c = trim (title_selector data) /\
              cat_link_selector c = trim (link_selector data) /\
              exists k, cat_slug c = candidate E (cat_title c) k) rows /\
    map cat_id rows = map Js.bigint_toString ids /\
    StronglySorted Z.lt ids /\
    Forall (fun id => Snowflake.lastId (snowflakeGenerator h) < id) ids /\
    NoDup (map cat_id rows) /\
    (inserted h' = inserted h \/ inserted h' = inserted h ++ rows) /\
    forall resp,
      r = Returned resp ->
      rows <> [] /\
      execute_insert E (inserted h) rows = None /\
      inserted h' = inserted h ++ rows /\
      exists created,
        execute_select E (inserted h ++ rows) (map cat_id rows)
        = inr created /\
        site_id resp = siteId /\
        total_created resp = List.length created /\
        categories resp = map categoryItem created.
Proof.
  intros R. unfold crawlCategory_batch, bind.
  pose proof (crawlCategory_loop_rows E fuel siteId data titles [] h R) as St.
  pose proof (crawlCategory_loop_spec E fuel siteId data titles [] h R) as Fr.
  destruct (crawlCategory_loop E fuel siteId data titles [] h)
    as [[cats|e|] h1]; destruct Fr as (Hi & _).
  - destruct St as (new & ids & -> & Hsub & Hall & Hids & Hs & Hlow).
    cbn [app].
    assert (NoDup (map cat_id new)) as Hnd.
    { rewrite Hids. apply NoDup_map_injective.
      - apply bigint_toString_inj.
      - now apply StronglySorted_lt_NoDup. }
    destruct new as [|c new].
    + cbn [List.length Nat.eqb]. unfold throw. exists [], ids.
      do 6 (split; [assumption|]). split; [now left|]. discriminate.
    + cbn [List.length Nat.eqb].
      pose proof (createBatch_spec E (c :: new) h1 ltac:(discriminate)) as Cb.
      rewrite Hi in Cb.
      destruct (execute_insert E (inserted h) (c :: new)) as [error|] eqn:Ins.
      * rewrite Cb. exists (c :: new), ids.
        do 6 (split; [assumption|]). split; [now left|]. discriminate.
      * destruct Cb as (h2 & _ & _ & _ & _ & Hi2 & ->).
        destruct (execute_select E (inserted h ++ c :: new)
                    (map cat_id (c :: new))) as [error|created] eqn:Sel.
        -- exists (c :: new), ids.
           do 6 (split; [assumption|]). split; [now right|]. discriminate.
        -- unfold ret. exists (c :: new), ids.
           do 6 (split; [assumption|]). split; [now right|].
           intros resp [= <-].
           split; [discriminate|]. split; [exact Ins|].
           split; [exact Hi2|]. exists created. split; [exact Sel|].
           repeat split.
  - exists [], []. split; [apply subsequence_nil_l|].
    do 5 (split; [constructor|]). split; [now left|]. discriminate.
  - exists [], []. split; [apply subsequence_nil_l|].
    do 5 (split; [constructor|]). split; [now left|]. discriminate.
Qed.

Lemma crawlCategory_rows_follow_titles_witness :
  let '(r, h') :=
    crawlCategory_batch crowdedWorld 0 "7" selectors scrapedTitles
      (freshHeap generator11) in
  exists rows ids,
    subsequence (map cat_title rows) scrapedTitles /\
    map cat_id rows = map Js.bigint_toString ids /\
    StronglySorted Z.lt ids /\
    (inserted h' = [] \/ inserted h' = rows).
Proof.
  assert (Snowflake.inRange (snowflakeGenerator (freshHeap generator11))) as R
      by (repeat split; vm_compute; discriminate).
  pose proof (crawlCategory_rows_follow_titles crowdedWorld 0 "7" selectors
                scrapedTitles (freshHeap generator11) R) as T.
  destruct (crawlCategory_batch crowdedWorld 0 "7" selectors scrapedTitles
              (freshHeap generator11)) as [r h'].
  destruct T as (rows & ids & Hsub & _ & Hids & Hs & _ & _ & Hins & _).
  exists rows, ids. repeat split; assumption.
Defined.

(** The run of the witness: one row, for "Sport", inserted and read
    back. *)
Example crawlCategory_rows_run :
  fst (crawlCategory_batch crowdedWorld 0 "7" selectors scrapedTitles
         (freshHeap generator11))
  = Returned
      {| site_id := "7"; total_created := 1;
         categories :=
           [{| item_id := "379755639632695296"; item_title := "Sport";
               item_slug := "sport-loyw3v2e";
               item_title_selector := "h2.category-title";
               item_link_selector := "a.category-link" |}] |}.
Proof. vm_compute. reflexivity. Qed.

Lemma crawlCategory_loop_all_taken E fuel siteId data :
  (forall k s, store E k (SlugExistsForSite siteId) s = true) ->
  forall titles acc h,
    exists h',
      crawlCategory_loop E fuel siteId data titles acc h = (Returned acc, h') /\
      warnings h' = warnings h ++ map skipWarning titles /\
      List.length (queries h')
      = (List.length (queries h) + 6 * List.length titles)%nat /\
      snowflakeGenerator h' = snowflakeGenerator h /\
      inserted h' = inserted h.
Proof.
  intros Taken. induction titles as [|title rest IH]; intros acc h.
  - exists h. simpl. unfold ret. rewrite List.app_nil_r.
    repeat split; auto; lia.
  - cbn [crawlCategory_loop]. unfold bind at 1, lift at 1.
    rewrite generateUniqueSlug_eq. unfold bind at 1, lift at 1.
    destruct (slugLoop_spec E (SlugExistsForSite siteId) title 5 0
                (candidate E title (clockReads h)) (snd (now E h)) eq_refl)
      as (k & h2 & Hk & -> & _ & Hq & _ & Hf & Hw & Hg & Hi).
    cbn [now snd clockReads queries warnings snowflakeGenerator inserted] in *.
    assert (k = 5)%nat as ->.
    { destruct (Nat.eq_dec k 5) as [|Ne]; [assumption|].
      specialize (Hf ltac:(lia)). rewrite Taken in Hf. discriminate. }
    cbn [Nat.add Nat.leb maxSlugAttempts].
    unfold bind at 1, lift at 1, console_warn at 1.
    match goal with
    | |- context [crawlCategory_loop E fuel siteId data rest acc ?h3] =>
        destruct (IH acc h3) as (h' & -> & Hw' & Hq' & Hg' & Hi')
    end.
    cbn [clockReads queries warnings snowflakeGenerator inserted] in *.
    exists h'. split; [reflexivity|].
    split.
    { rewrite Hw', Hw, <- app_assoc. reflexivity. }
    split.
    { rewrite Hq', Hq, length_app, length_map, length_seq. simpl. lia. }
    split; congruence.
Qed.

(** X13.  When the store finds every candidate taken, a crawl creates
    nothing: each title costs six existence queries and one warning, no
    identifier is drawn from the generator, nothing is inserted, and the
    call throws. *)
Theorem crawlCategory_nothing_free (E : Env) (fuel : nat) (siteId : string)
        (data : ICreateCategoryDTO) (titles : list string) (h : Heap) :
  (forall k s, store E k (SlugExistsForSite siteId) s = true) ->
  exists h',
    crawlCategory_batch E fuel siteId data titles h
    = (Thrown "Failed to generate slugs for any category. Please try again.",
       h') /\
    warnings h' = warnings h ++ map skipWarning titles /\
    List.length (queries h')
    = (List.length (queries h) + 6 * List.length titles)%nat /\
    snowflakeGenerator h' = snowflakeGenerator h /\
    inserted h' = inserted h.
Proof.
  intros Taken. unfold crawlCategory_batch, bind.
  destruct (crawlCategory_loop_all_taken E fuel siteId data Taken titles [] h)
    as (h' & -> & Hrest).
  exists h'. split; [reflexivity | exact Hrest].
Qed.

Lemma crawlCategory_nothing_free_witness :
  exists h',
    crawlCategory_batch (world (tickingClock 1700000000000) (fun _ _ _ => true))
      0 "7" selectors scrapedTitles (freshHeap generator11)
    = (Thrown "Failed to generate slugs for any category. Please try again.",
       h') /\
    warnings h' = map skipWarning scrapedTitles.
Proof.
  destruct (crawlCategory_nothing_free
              (world (tickingClock 1700000000000) (fun _ _ _ => true))
              0 "7" selectors scrapedTitles (freshHeap generator11))
    as (h' & Hr & Hw & _).
  - intros k s. reflexivity.
  - exists h'. split; [exact Hr | exact Hw].
Defined.

(** [tableInsert] keeps [unique_slug_per_site]. *)
Lemma keysClash_pair (pre mid post : list Category) (a b : Category) :
  sameKey a b = true -> keysClash (pre ++ a :: mid ++ b :: post) = true.
Proof.
  intros K. induction pre as [|x pre IH]; cbn [app keysClash].
  - rewrite existsb_app. cbn [existsb]. rewrite K.
    now rewrite orb_true_r.
  - rewrite IH. apply orb_true_r.
Qed.

Lemma world_keepsUniqueSlugPerSite clock st :
  keepsUniqueSlugPerSite (world clock st).
Proof.
  intros table pre a mid b post Hs Hg. cbn [execute_insert world].
  unfold tableInsert. rewrite app_assoc, keysClash_pair.
  - eexists. split; reflexivity.
  - unfold sameKey. rewrite Hs, Hg, !String.eqb_refl. apply orb_true_r.
Qed.

(** Under a standing clock and against a store that finds every slug
    free, the loop keeps every title, each after one query, with the
    slug its title gives in that millisecond. *)
Lemma crawlCategory_loop_all_free E fuel siteId data t :
  (forall k, Date_now E k = t) ->
  (forall k s, store E k (SlugExistsForSite siteId) s = false) ->
  forall titles acc h,
    Snowflake.inRange (snowflakeGenerator h) ->
    (lastTimestamp (snowflakeGenerator h) < t /\
     (List.length titles <= 4096)%nat
     \/ lastTimestamp (snowflakeGenerator h) = t /\
        sequence (snowflakeGenerator h) + Z.of_nat (List.length titles)
        <= 4095) ->
    exists new h',
      crawlCategory_loop E fuel siteId data titles acc h
      = (Returned (acc ++ new), h') /\
      map cat_title new = titles /\
      Forall (fun c =>
                cat_site_id c = siteId /\
                cat_slug c
                = (slugify E (cat_title c) ++ "-" ++ Js.toString36 t)%string)
             new /\
      inserted h' = inserted h /\ warnings h' = warnings h /\
      List.length (queries h')
      = (List.length (queries h) + List.length titles)%nat.
Proof.
  intros Frozen Free.
  induction titles as [|title rest IH]; intros acc h R Inv.
  - exists [], h. simpl. unfold ret. rewrite List.app_nil_r.
    repeat split; auto.
  - cbn [crawlCategory_loop]. unfold bind at 1, lift at 1.
    rewrite generateUniqueSlug_eq. unfold bind at 1, lift at 1.
    destruct (slugLoop_spec E (SlugExistsForSite siteId) title 5 0
                (candidate E title (clockReads h)) (snd (now E h)) eq_refl)
      as (k & h2 & Hk & -> & _ & Hq & Ht & _ & Hw & Hg & Hi).
    cbn [now snd clockReads queries warnings snowflakeGenerator inserted] in *.
    assert (k = 0)%nat as ->.
    { destruct k as [|k]; [reflexivity|].
      specialize (Ht 0%nat ltac:(lia)). rewrite Free in Ht. discriminate. }
    cbn [Nat.add Nat.leb maxSlugAttempts checked].
    assert (Snowflake.inRange (snowflakeGenerator h2)) as R2
        by now rewrite Hg.
    pose proof (generate_step E fuel h2 R2) as Sg.
    unfold bind at 1.
    cbn [List.length] in Inv.
    destruct (Snowflake.generate E fuel h2) as [[id|e|] h3].
    + destruct Sg as (_ & R3 & _ & _ & Hstep & (j & _ & Hj) & Hq3 & Hw3 & Hi3).
      rewrite Frozen in Hj. rewrite Hg in Hstep.
      match goal with
      | |- context [crawlCategory_loop E fuel siteId data rest ?acc' h3] =>
          destruct (IH acc' h3 R3) as (new & h' & -> & Hm & Hall & Hi' & Hw' & Hq')
      end.
      { right. split; [exact Hj|].
        destruct Hstep as [(Lt & ->)|(Eq & ->)]; lia. }
      eexists (_ :: new), h'. split; [now rewrite <- app_assoc|].
      cbn [map cat_title]. split; [now rewrite Hm|].
      split.
      { constructor; [|exact Hall]. cbn. split; [reflexivity|].
        unfold candidate. now rewrite Frozen. }
      split; [congruence|]. split; [congruence|].
      rewrite Hq', Hq3, Hq, length_app. cbn [map seq List.length]. lia.
    + destruct Sg as (_ & Lt & _). rewrite Frozen, Hg in Lt. lia.
    + destruct Sg as (Eq & Full & _). rewrite Frozen, Hg in Eq.
      rewrite Hg in Full. change Snowflake.maxSequence with 4095 in Full. lia.
Qed.

(** X14.  While the clock stands at one millisecond the slug of a row is
    fixed by its title, and the existence check looks at the store, not
    at the batch.  So when the store finds every slug free and a title
    occurs twice among the scraped titles, the batch holds two rows with
    one slug for one site: a store that keeps [unique_slug_per_site]
    refuses the [INSERT], and the crawl throws the duplicate error of
    [createBatch] with nothing inserted and nothing logged, after one
    query per title.  The error handler answers it with 500, since the
    message says "already exist" and the handler looks for "already
    exists". *)
Theorem crawlCategory_repeated_title_refused (E : Env) (fuel : nat)
        (siteId : string) (data : ICreateCategoryDTO)
        (pre mid post : list string) (title : string) (t : Z) (h : Heap) :
  let titles := pre ++ title :: mid ++ title :: post in
  (forall k, Date_now E k = t) ->
  (forall k s, store E k (SlugExistsForSite siteId) s = false) ->
  keepsUniqueSlugPerSite E ->
  Snowflake.inRange (snowflakeGenerator h) ->
  lastTimestamp (snowflakeGenerator h) < t ->
  (List.length titles <= 4096)%nat ->
  exists h',
    crawlCategory_batch E fuel siteId data titles h
    = (Thrown "One or more category slugs already exist for this site. Please try again.",
       h') /\
    inserted h' = inserted h /\ warnings h' = warnings h /\
    roundTrips h h' = List.length titles /\
    statusCode
      (errorHandler
         "One or more category slugs already exist for this site. Please try again.")
    = 500.
Proof.
  intros titles Frozen Free Keeps R Lt Len.
  unfold crawlCategory_batch, bind.
  destruct (crawlCategory_loop_all_free E fuel siteId data t Frozen Free
              titles [] h R) as (new & h1 & -> & Hm & Hall & Hi & Hw & Hq).
  { left. split; assumption. }
  cbn [app].
  unfold titles in Hm.
  apply map_eq_app in Hm. destruct Hm as (pre' & r1 & -> & _ & Hm).
  apply map_eq_cons in Hm. destruct Hm as (a & r2 & -> & Ha & Hm).
  apply map_eq_app in Hm. destruct Hm as (mid' & r3 & -> & _ & Hm).
  apply map_eq_cons in Hm. destruct Hm as (b & post' & -> & Hb & _).
  assert (cat_site_id a = cat_site_id b /\ cat_slug a = cat_slug b)
    as (Hsite & Hslug).
  { rewrite Forall_forall in Hall.
    destruct (Hall a) as (Sa & Ga); [apply in_or_app; right; now left|].
    destruct (Hall b) as (Sb & Gb).
    { apply in_or_app. right. right. apply in_or_app. right. now left. }
    split; congruence. }
  destruct (Keeps (inserted h1) pre' a mid' b post' Hsite Hslug)
    as (error & Ins & Code).
  pose proof (createBatch_spec E (pre' ++ a :: mid' ++ b :: post') h1) as Cb.
  rewrite Ins in Cb.
  destruct (Nat.eqb (List.length (pre' ++ a :: mid' ++ b :: post')) 0) eqn:L.
  { apply Nat.eqb_eq in L. rewrite length_app in L. simpl in L. lia. }
  rewrite Cb by (destruct pre'; discriminate).
  unfold batchError. rewrite Code. cbn [String.eqb Ascii.eqb Bool.eqb].
  exists h1. split; [reflexivity|]. split; [exact Hi|]. split; [exact Hw|].
  split; [unfold roundTrips; rewrite Hq; lia|].
  vm_compute. reflexivity.
Qed.

Lemma crawlCategory_repeated_title_refused_witness :
  exists h',
    crawlCategory_batch (world (frozenClock 1700000000000) emptyStore)
      0 "7" selectors ["News"; "News"] (freshHeap generator11)
    = (Thrown "One or more category slugs already exist for this site. Please try again.",
       h') /\
    inserted h' = [] /\ roundTrips (freshHeap generator11) h' = 2%nat.
Proof.
  destruct (crawlCategory_repeated_title_refused
              (world (frozenClock 1700000000000) emptyStore)
              0 "7" selectors [] [] [] "News" 1700000000000
              (freshHeap generator11))
    as (h' & Hr & Hi & _ & Hq & _).
  - intros k. reflexivity.
  - intros k s. reflexivity.
  - apply world_keepsUniqueSlugPerSite.
  - repeat split; vm_compute; discriminate.
  - vm_compute. reflexivity.
  - simpl. lia.
  - exists h'. split; [exact Hr|]. split; [exact Hi | exact Hq].
Defined.

(** The batch of the witness, as the loop hands it to [createBatch]: two
    rows with one slug. *)
Example crawlCategory_duplicate_slugs_run :
  match crawlCategory_loop (world (frozenClock 1700000000000) emptyStore)
          0 "7" selectors ["News"; "News"] [] (freshHeap generator11) with
  | (Returned rows, _) =>
      map cat_slug rows = ["news-loyw3v28"; "news-loyw3v28"] /\
      map cat_id rows = ["379755639603335168"; "379755639603335169"]
  | _ => False
  end.
Proof. vm_compute. split; reflexivity. Qed.

(* ===================================================================== *)
(** ** The error handler *)
(* ===================================================================== *)

Lemma includes_prefix (s k : string) :
  String.prefix k s = true -> includes s k = true.
Proof. intros H. destruct s; cbn [includes]; now rewrite H. Qed.

Lemma includes_app (pre k post : string) :
  includes (pre ++ k ++ post) k = true.
Proof.
  induction pre as [|c pre IH].
  - change (includes (k ++ post) k = true).
    apply includes_prefix, prefix_append.
  - change (includes (String c (pre ++ k ++ post)) k = true).
    cbn [includes]. rewrite IH. apply orb_true_r.
Qed.




(** X16.  The handler answers with one of four status codes and the
    label that goes with it, never with an empty message, and a message
    that mentions "not found" anywhere is answered 404 whatever else it
    says, also when it mentions "required" or "Invalid". *)
Theorem errorHandler_classification (msg pre post : string) :
  ((statusCode (errorHandler msg), error (errorHandler msg)) = (404, "Not Found")
   \/ (statusCode (errorHandler msg), error (errorHandler msg)) = (400, "Bad Request")
   \/ (statusCode (errorHandler msg), error (errorHandler msg)) = (409, "Conflict")
   \/ (statusCode (errorHandler msg), error (errorHandler msg))
      = (500, "Internal Server Error")) /\
  success (errorHandler msg) = false /\
  message (errorHandler msg) <> "" /\
  message (errorHandler "") = "An unexpected error occurred" /\
  statusCode (errorHandler (pre ++ "not found" ++ post)) = 404.
Proof.
  split.
  { unfold errorHandler.
    destruct (includes msg "not found" || includes msg "Not Found")%bool;
      [auto|].
    destruct (includes msg "required" || includes msg "Invalid"
              || includes msg "must be" || includes msg "Validation")%bool;
      [auto|].
    destruct (includes msg "already exists" || includes msg "duplicate")%bool;
      auto. }
  split.
  { unfold errorHandler.
    destruct (includes msg "not found" || includes msg "Not Found")%bool;
      [reflexivity|].
    destruct (includes msg "required" || includes msg "Invalid"
              || includes msg "must be" || includes msg "Validation")%bool;
      [reflexivity|].
    destruct (includes msg "already exists" || includes msg "duplicate")%bool;
      reflexivity. }
  split.
  { unfold errorHandler.
    destruct (includes msg "not found" || includes msg "Not Found")%bool;
      [|destruct (includes msg "required" || includes msg "Invalid"
                  || includes msg "must be" || includes msg "Validation")%bool;
        [|destruct (includes msg "already exists"
                    || includes msg "duplicate")%bool]];
      simpl; destruct msg; simpl; discriminate. }
  split; [reflexivity|].
  unfold errorHandler. now rewrite includes_app.
Qed.

(* ===================================================================== *)
(** ** Creating and modifying a task *)
(* ===================================================================== *)

Lemma nonEmpty_false (x : string) : nonEmpty x = false <-> x = "".
Proof. destruct x; simpl; split; congruence. Qed.

Lemma isLinkType_nonEmpty (x : string) : isLinkType x = true -> nonEmpty x = true.
Proof.
  unfold isLinkType. simpl. rewrite orb_false_r.
  intros H. apply orb_true_iff in H.
  destruct H as [H|H]; apply String.eqb_eq in H; now subst.
Qed.

(** A string that is empty has nothing left after [trim]. *)
Lemma nonEmpty_of_trimmed (x : string) :
  (0 < Js.length (trim x))%nat -> nonEmpty x = true.
Proof. destruct x; [vm_compute; lia | reflexivity]. Qed.

Lemma validateCreateCrawlData_accepts (data : ICreateCrawlDTO) :
  validateCreateCrawlData data = Returned tt <->
  isLinkType (c_link_type data) = true /\
  (0 < Js.length (trim (c_title data)) <= 255)%nat /\
  (0 < Js.length (trim (c_crawl_link data)))%nat.
Proof.
  unfold validateCreateCrawlData.
  destruct (isLinkType (c_link_type data)) eqn:L.
  - rewrite (isLinkType_nonEmpty _ L). cbn [negb orb].
    destruct (Nat.eqb_spec (Js.length (trim (c_title data))) 0) as [T0|T0].
    + rewrite orb_true_r. split; [discriminate|]. intros (_ & Ht & _). lia.
    + rewrite nonEmpty_of_trimmed by lia. cbn [negb orb].
      destruct (Nat.ltb_spec 255 (Js.length (trim (c_title data)))).
      * split; [discriminate|]. intros (_ & Ht & _). lia.
      * destruct (Nat.eqb_spec (Js.length (trim (c_crawl_link data))) 0)
          as [C0|C0].
        -- rewrite orb_true_r. split; [discriminate|]. intros (_ & _ & Hc). lia.
        -- rewrite nonEmpty_of_trimmed by lia. cbn [negb orb].
           split; [|reflexivity]. intros _. repeat split; lia.
  - rewrite orb_true_r. split; [discriminate|]. intros (Hl & _). discriminate.
Qed.

(** X17.  [initializeCrawl] accepts a request exactly when the link type
    is "URL" or "API", the trimmed title has between 1 and 255 UTF-16
    code units, and the trimmed link has at least one; a request it
    rejects is thrown back before anything is touched: no identifier is
    drawn, the clock is not read, the store is not asked.  The handler
    answers the rejection with 400, except for the title that is too
    long, which it answers with 500. *)
Theorem initializeCrawl_validates_first (E : Env) (B : Backend) (fuel : nat)
        (data : ICreateCrawlDTO) (h : Heap) :
  (validateCreateCrawlData data = Returned tt <->
   isLinkType (c_link_type data) = true /\
   (0 < Js.length (trim (c_title data)) <= 255)%nat /\
   (0 < Js.length (trim (c_crawl_link data)))%nat) /\
  (validateCreateCrawlData data <> Returned tt ->
   exists e,
     initializeCrawl E B fuel data h = (Thrown e, h) /\
     (statusCode (errorHandler e) = 400 \/
      e = "Title must not exceed 255 characters." /\
      statusCode (errorHandler e) = 500 /\
      (255 < Js.length (trim (c_title data)))%nat)).
Proof.
  split; [apply validateCreateCrawlData_accepts|].
  intros Rej. unfold initializeCrawl, bind at 1, of_outcome at 1.
  unfold validateCreateCrawlData in *.
  destruct (negb (nonEmpty (c_link_type data))
            || negb (isLinkType (c_link_type data)))%bool;
    [eexists; split; [reflexivity | left; reflexivity]|].
  destruct (negb (nonEmpty (c_title data))
            || Nat.eqb (Js.length (trim (c_title data))) 0)%bool;
    [eexists; split; [reflexivity | left; reflexivity]|].
  destruct (Nat.ltb_spec 255 (Js.length (trim (c_title data))));
    [eexists; split; [reflexivity | right; repeat split; assumption]|].
  destruct (negb (nonEmpty (c_crawl_link data))
            || Nat.eqb (Js.length (trim (c_crawl_link data))) 0)%bool;
    [eexists; split; [reflexivity | left; reflexivity]|].
  now elim Rej.
Qed.

Lemma initializeCrawl_validates_first_witness :
  exists e,
    initializeCrawl (world (tickingClock 1700000000000) emptyStore)
      oneTaskBackend 0
      {| c_link_type := "URL"; c_title := noBreakSpace;
         c_crawl_link := "https://example.com" |}
      (freshHeap generator11)
    = (Thrown e, freshHeap generator11).
Proof.
  destruct (proj2 (initializeCrawl_validates_first
                     (world (tickingClock 1700000000000) emptyStore)
                     oneTaskBackend 0
                     {| c_link_type := "URL"; c_title := noBreakSpace;
                        c_crawl_link := "https://example.com" |}
                     (freshHeap generator11))) as (e & He & _).
  - vm_compute. discriminate.
  - exists e. exact He.
Defined.

(** Titles that tell code units from bytes and [trim] from its ASCII
    part: 128 times "é" is 256 bytes and 128 code units, and is
    accepted; a title that is one no-break space is refused as empty; a
    title of 256 letters is refused as too long. *)
Example validateCreateCrawlData_counts_code_units :
  validateCreateCrawlData
    {| c_link_type := "URL"; c_title := times 128 "é";
       c_crawl_link := "https://example.com" |} = Returned tt /\
  String.length (times 128 "é") = 256%nat /\
  validateCreateCrawlData
    {| c_link_type := "URL"; c_title := noBreakSpace;
       c_crawl_link := "https://example.com" |}
  = Thrown "Title is required and must be a non-empty string." /\
  validateCreateCrawlData
    {| c_link_type := "URL"; c_title := times 256 "e";
       c_crawl_link := "https://example.com" |}
  = Thrown "Title must not exceed 255 characters." /\
  trim (noBreakSpace ++ " Example Site" ++ bytes [227; 128; 128; 10]%nat)%string
  = "Example Site".
Proof. vm_compute. repeat split. Qed.



(** X19.  A valid request whose first candidate the store finds free:
    the row handed to [create] carries the identifier just drawn, the
    trimmed title and link, the first candidate as slug, status INIT and
    no categories; and the link is only checked at this point, so a link
    that does not parse is refused after the identifier was drawn and the
    store was asked. *)
Theorem initializeCrawl_first_candidate (E : Env) (B : Backend) (fuel : nat)
        (data : ICreateCrawlDTO) (h h1 : Heap) (taskId : string) :
  validateCreateCrawlData data = Returned tt ->
  Snowflake.generate E fuel h = (Returned taskId, h1) ->
  answer E SlugExists (c_title data) h1 0 = false ->
  exists h',
    initializeCrawl E B fuel data h
    = ((if isHttpUrl B (trim (c_crawl_link data)) then
          sites_create B
            {| cs_id := taskId;
               cs_link_type := c_link_type data;
               cs_title := trim (c_title data);
               cs_crawl_link := trim (c_crawl_link data);
               cs_slug := candidate E (c_title data) (clockReads h1);
               cs_status := INIT;
               cs_categories := None;
               cs_sub_categories := None |}
        else
          Thrown ("Invalid " ++ c_link_type data
                  ++ " format. Please provide a valid URL.")%string), h') /\
    snowflakeGenerator h' = snowflakeGenerator h1 /\
    queries h' =
    queries h1 ++ [(SlugExists, candidate E (c_title data) (clockReads h1))].
Proof.
  intros V G Free.
  destruct (resolveSlug_spec E SlugExists
              "Failed to generate unique slug. Please try a different title."
              (c_title data) h1)
    as (k & h' & _ & Hr & _ & Hq & Hkt & _ & _ & Hg & _).
  assert (k = 0)%nat as ->.
  { destruct k as [|k]; [reflexivity|].
    specialize (Hkt 0%nat ltac:(lia)). congruence. }
  rewrite Nat.add_0_r in Hr. cbn [seq map] in Hq. rewrite Nat.add_0_r in Hq.
  exists h'. unfold initializeCrawl, bind, of_outcome.
  rewrite V, G. unfold initializeCrawl_slug. rewrite Hr. cbn [Nat.ltb Nat.leb].
  split; [|split; assumption].
  apply validateCreateCrawlData_accepts in V. destruct V as (L & _).
  unfold isValidCrawlLink. cbn [cs_link_type cs_crawl_link].
  unfold isLinkType in L. simpl in L. rewrite orb_false_r in L.
  destruct (String.eqb (c_link_type data) "URL") eqn:U.
  - destruct (isHttpUrl B (trim (c_crawl_link data))); reflexivity.
  - simpl in L. rewrite L.
    destruct (isHttpUrl B (trim (c_crawl_link data))); reflexivity.
Qed.

Lemma initializeCrawl_first_candidate_witness :
  exists h',
    initializeCrawl (world (tickingClock 1700000000000) emptyStore)
      oneTaskBackend 0
      {| c_link_type := "URL"; c_title := "  Example Site ";
         c_crawl_link := (noBreakSpace ++ "https://example.com")%string |}
      (freshHeap generator11)
    = (Returned
         {| row := {| cs_id := "379755639603335168"; cs_link_type := "URL";
                      cs_title := "Example Site";
                      cs_crawl_link := "https://example.com";
                      cs_slug := "example-site-loyw3v29";
                      cs_status := INIT; cs_categories := None;
                      cs_sub_categories := None |};
            created_at := 1700000000001; updated_at := 1700000000001 |}, h').
Proof.
  destruct (initializeCrawl_first_candidate
              (world (tickingClock 1700000000000) emptyStore)
              oneTaskBackend 0
              {| c_link_type := "URL"; c_title := "  Example Site ";
                 c_crawl_link := (noBreakSpace ++ "https://example.com")%string |}
              (freshHeap generator11)
              (snd (Snowflake.generate
                      (world (tickingClock 1700000000000) emptyStore) 0
                      (freshHeap generator11)))
              "379755639603335168")
    as (h' & Hr & _).
  - vm_compute. reflexivity.
  - vm_compute. reflexivity.
  - reflexivity.
  - exists h'. exact Hr.
Defined.

(** X20.  [modifyCrawl] cannot change a title: for a task that exists,
    every request that carries a title, valid or not, is thrown back with
    "Invalid link_type. Must be either URL or API." (answered 400), since
    the title is validated in an object that has no link type; no slug is
    generated, the store is not asked and nothing is updated. *)
Theorem modifyCrawl_title_always_rejected (E : Env) (B : Backend)
        (siteId title : string) (data : IModifyCrawlDTO)
        (existingTask : CrawlSiteModel) (h : Heap) :
  sites_findById B siteId = Some existingTask ->
  m_title data = Some title ->
  modifyCrawl E B siteId data h
  = (Thrown "Invalid link_type. Must be either URL or API.", h) /\
  statusCode (errorHandler "Invalid link_type. Must be either URL or API.") = 400.
Proof.
  intros F T. unfold modifyCrawl. rewrite F, T. split; reflexivity.
Qed.

Lemma modifyCrawl_title_always_rejected_witness :
  modifyCrawl (world (tickingClock 1700000000000) emptyStore) oneTaskBackend
    "42"
    {| m_link_type := Some "URL"; m_title := Some "A new title";
       m_crawl_link := Some "https://example.com" |}
    (freshHeap generator11)
  = (Thrown "Invalid link_type. Must be either URL or API.",
     freshHeap generator11).
Proof.
  apply (modifyCrawl_title_always_rejected
           (world (tickingClock 1700000000000) emptyStore) oneTaskBackend
           "42" "A new title"
           {| m_link_type := Some "URL"; m_title := Some "A new title";
              m_crawl_link := Some "https://example.com" |}
           storedTask (freshHeap generator11)); reflexivity.
Defined.

(** X21.  [modifyCrawl] without a title: an unknown id is answered
    "Crawl task not found."; for a known task the row handed to [update]
    keeps id, title and slug, takes the link type and the trimmed link of
    the request where given, and resets the status to INIT and the
    categories to none; a link that does not parse for the resulting
    link type is refused, naming the link type of the request, which
    reads "undefined" when the request has none.  The heap is never
    touched. *)
Theorem modifyCrawl_without_title (E : Env) (B : Backend) (siteId : string)
        (data : IModifyCrawlDTO) (h : Heap) :
  m_title data = None ->
  modifyCrawl E B siteId data h =
  (match sites_findById B siteId with
   | None => Thrown "Crawl task not found."
   | Some existingTask =>
       let link_type :=
         match m_link_type data with
         | Some x => x
         | None => cs_link_type (row existingTask)
         end in
       let crawl_link :=
         match m_crawl_link data with
         | Some x => trim x
         | None => cs_crawl_link (row existingTask)
         end in
       if (isLinkType link_type && isHttpUrl B crawl_link)%bool then
         sites_update B siteId
           {| cs_id := siteId;
              cs_link_type := link_type;
              cs_title := cs_title (row existingTask);
              cs_crawl_link := crawl_link;
              cs_slug := cs_slug (row existingTask);
              cs_status := INIT;
              cs_categories := None;
              cs_sub_categories := None |}
       else
         Thrown ("Invalid " ++ match m_link_type data with
                               | Some x => x
                               | None => "undefined"
                               end
                 ++ " format. Please provide a valid URL.")%string
   end, h).
Proof.
  intros T. unfold modifyCrawl. rewrite T.
  destruct (sites_findById B siteId) as [existingTask|]; [|reflexivity].
  unfold bind, ret, of_outcome, throw, isValidCrawlLink, orElse, template,
    isLinkType.
  cbn [cs_link_type cs_crawl_link existsb].
  destruct (m_link_type data) as [lt|], (m_crawl_link data) as [cl|];
    cbn [option_map];
    match goal with
    | |- context [String.eqb ?x "URL"] =>
        destruct (String.eqb x "URL"); cbn [orb andb negb];
          [|destruct (String.eqb x "API"); cbn [orb andb negb]]
    end;
    try reflexivity;
    match goal with
    | |- context [isHttpUrl B ?l] => destruct (isHttpUrl B l); reflexivity
    end.
Qed.

Lemma modifyCrawl_without_title_witness :
  modifyCrawl (world (tickingClock 1700000000000) emptyStore) oneTaskBackend
    "42"
    {| m_link_type := None; m_title := None;
       m_crawl_link := Some "ftp://example.com " |}
    (freshHeap generator11)
  = (Thrown "Invalid undefined format. Please provide a valid URL.",
     freshHeap generator11).
Proof.
  apply (modifyCrawl_without_title
           (world (tickingClock 1700000000000) emptyStore) oneTaskBackend
           "42"
           {| m_link_type := None; m_title := None;
              m_crawl_link := Some "ftp://example.com " |}
           (freshHeap generator11)).
  reflexivity.
Defined.

(* ===================================================================== *)
(** ** Picking the category titles *)
(* ===================================================================== *)

Lemma prefix_refl (k : string) : String.prefix k k = true.
Proof.
  induction k as [|c k IH]; simpl; [reflexivity|].
  destruct (ascii_dec c c); [exact IH | congruence].
Qed.

Lemma existsb_pointwise {A : Type} (f g : A -> bool) (l : list A) :
  (forall x, f x = g x) -> existsb f l = existsb g l.
Proof. intros H. induction l as [|x l IH]; simpl; [reflexivity|]. now rewrite H, IH. Qed.

Lemma isHomeKeyword_includes (t : string) :
  isHomeKeyword t = existsb (includes t) homeKeywords.
Proof.
  unfold isHomeKeyword. apply existsb_pointwise.
  intros k. destruct (String.eqb_spec t k) as [->|Ne]; [|reflexivity].
  cbn [orb]. symmetry. apply includes_prefix, prefix_refl.
Qed.

Lemma split_not_nil (sep : ascii) (s : string) : split sep s <> [].
Proof.
  destruct s as [|c s]; simpl; [discriminate|].
  destruct (Ascii.eqb c sep); [discriminate|].
  destruct (split sep s); discriminate.
Qed.

Lemma no_piece_iff_onlySlashes (s : string) :
  Nat.eqb (List.length (filter nonEmpty (split "/" s))) 0 = onlySlashes s.
Proof.
  induction s as [|c s IH]; [reflexivity|].
  cbn [split onlySlashes].
  destruct (Ascii.eqb c "/"); cbn [andb].
  - cbn [filter nonEmpty]. exact IH.
  - pose proof (split_not_nil "/" s) as Hn.
    destruct (split "/" s) as [|piece pieces]; [now elim Hn|].
    reflexivity.
Qed.

Lemma onlySlashes_endsWith (s : string) :
  onlySlashes s = true -> s <> "" -> endsWithChar s "/" = true.
Proof.
  induction s as [|c s IH]; [intros _ H; now elim H|].
  cbn [onlySlashes]. intros H _. apply andb_true_iff in H. destruct H as [Hc Hs].
  destruct s as [|c' s']; [exact Hc|].
  change (endsWithChar (String c' s') "/" = true). apply IH; [exact Hs|discriminate].
Qed.

Lemma isRootPath_onlySlashes (href : string) :
  isRootPath href = (String.eqb href "#" || onlySlashes href)%bool.
Proof.
  unfold isRootPath. rewrite no_piece_iff_onlySlashes.
  destruct (onlySlashes href) eqn:S.
  - destruct (String.eqb_spec href "") as [->|Ne]; [reflexivity|].
    rewrite (onlySlashes_endsWith href S Ne).
    cbn [andb]. now rewrite !orb_true_r.
  - rewrite andb_false_r, !orb_false_r.
    destruct (String.eqb_spec href "/") as [->|_]; [discriminate S|].
    destruct (String.eqb_spec href "") as [->|_]; [discriminate S|].
    now rewrite orb_false_r.
Qed.


Lemma skip_iff_not_kept (toLowerCase : string -> string) (e : ElementData) :
  nonEmpty (el_text e) = true ->
  (isHomeKeyword (toLowerCase (el_text e)) || isRootPath (toLowerCase (el_href e)))%bool
  = negb (keepsElement toLowerCase e).
Proof.
  intros Ht. unfold keepsElement.
  rewrite Ht, isHomeKeyword_includes, isRootPath_onlySlashes.
  destruct (existsb _ homeKeywords), (String.eqb _ "#"), (onlySlashes _);
    reflexivity.
Qed.

Lemma collectTitles_spec (toLowerCase : string -> string) :
  forall elements acc,
    collectTitles toLowerCase elements acc
    = acc ++ map el_text (filter (keepsElement toLowerCase) elements).
Proof.
  induction elements as [|e rest IH]; intros acc.
  - simpl. now rewrite List.app_nil_r.
  - cbn [collectTitles filter].
    destruct (nonEmpty (el_text e)) eqn:Ht; cbn [negb].
    + rewrite skip_iff_not_kept by exact Ht.
      destruct (keepsElement toLowerCase e); cbn [negb map].
      * now rewrite IH, <- app_assoc.
      * apply IH.
    + assert (keepsElement toLowerCase e = false) as ->
          by (unfold keepsElement; now rewrite Ht).
      apply IH.
Qed.

Lemma firstValidTitle_spec (toLowerCase : string -> string) :
  forall elements,
    firstValidTitle toLowerCase elements
    = hd "" (map el_text (filter (keepsElement toLowerCase) elements)).
Proof.
  induction elements as [|e rest IH]; [reflexivity|].
  cbn [firstValidTitle filter].
  destruct (nonEmpty (el_text e)) eqn:Ht; cbn [negb].
  - rewrite skip_iff_not_kept by exact Ht.
    destruct (keepsElement toLowerCase e); cbn [negb map hd]; [reflexivity|].
    apply IH.
  - assert (keepsElement toLowerCase e = false) as ->
        by (unfold keepsElement; now rewrite Ht).
    apply IH.
Qed.

Lemma kept_texts_nonEmpty (toLowerCase : string -> string) elements :
  Forall (fun t => nonEmpty t = true)
         (map el_text (filter (keepsElement toLowerCase) elements)).
Proof.
  apply Forall_map, Forall_forall. intros e He.
  apply filter_In in He. destruct He as (_ & K).
  unfold keepsElement in K.
  destruct (nonEmpty (el_text e)); [reflexivity|discriminate].
Qed.

Lemma filter_subsequence {A : Type} (f : A -> bool) (l : list A) :
  subsequence (filter f l) l.
Proof.
  induction l as [|x l IH]; simpl; [constructor|].
  destruct (f x); now constructor.
Qed.

Lemma map_subsequence {A B : Type} (f : A -> B) (l l' : list A) :
  subsequence l l' -> subsequence (map f l) (map f l').
Proof. induction 1; simpl; now constructor. Qed.

(** X22.  The titles [crawlCategory] takes from a page are the texts, in
    page order, of exactly the elements whose text is not empty and holds
    no keyword once lower-cased, and whose lower-cased [href] is neither
    "#" nor made of slashes only (a missing [href] counts as such); with
    no element matched, or none kept, the crawl fails with the message of
    that case behind "Crawl failed: ". *)
Theorem crawlCategory_titles_are_the_kept_elements
        (toLowerCase : string -> string) (title_selector : string)
        (elements : list ElementData) :
  let kept := map el_text (filter (keepsElement toLowerCase) elements) in
  collectTitles toLowerCase elements [] = kept /\
  subsequence kept (map el_text elements) /\
  crawlCategory_titles toLowerCase title_selector elements =
  match elements, kept with
  | [], _ =>
      Thrown ("Crawl failed: No element found for selector: "
              ++ title_selector)%string
  | _, [] =>
      Thrown "Crawl failed: No valid category found - all elements are home page links or empty"
  | _, _ => Returned kept
  end.
Proof.
  intros kept.
  assert (collectTitles toLowerCase elements [] = kept) as Hc
      by apply collectTitles_spec.
  split; [exact Hc|]. split.
  { apply map_subsequence, filter_subsequence. }
  unfold crawlCategory_titles. rewrite Hc.
  destruct elements as [|e rest]; [reflexivity|].
  cbn [List.length Nat.eqb]. destruct kept; reflexivity.
Qed.

(** X23.  [updateCategory] takes as title the first of the titles
    [crawlCategory] would take from the same elements, and fails with the
    same error when [crawlCategory] fails. *)
Theorem updateCategory_title_is_first_crawled
        (toLowerCase : string -> string) (title_selector : string)
        (elements : list ElementData) :
  updateCategory_title toLowerCase title_selector elements =
  match crawlCategory_titles toLowerCase title_selector elements with
  | Returned titles => Returned (hd "" titles)
  | Thrown m => Thrown m
  | Diverged => Diverged
  end /\
  (forall titles,
      crawlCategory_titles toLowerCase title_selector elements = Returned titles ->
      titles <> []).
Proof.
  unfold updateCategory_title, crawlCategory_titles.
  rewrite firstValidTitle_spec, collectTitles_spec. cbn [app].
  pose proof (kept_texts_nonEmpty toLowerCase elements) as Hne.
  destruct elements as [|e rest]; [split; [reflexivity|discriminate]|].
  cbn [List.length Nat.eqb].
  destruct (map el_text (filter (keepsElement toLowerCase) (e :: rest)))
    as [|t ts].
  - split; [reflexivity|discriminate].
  - inversion Hne as [|? ? Ht _]; subst. cbn [hd List.length Nat.eqb crawlFailed].
    rewrite Ht. split; [reflexivity|]. intros titles [= <-]. discriminate.
Qed.

(** An element without [href], or whose lower-cased text holds a
    keyword, is not kept. *)
Lemma dropped_element (toLowerCase : string -> string) (e : ElementData) :
  toLowerCase "" = "" ->
  (el_href e = "" \/
   exists a keyword b,
     In keyword homeKeywords /\
     toLowerCase (el_text e) = (a ++ keyword ++ b)%string) ->
  keepsElement toLowerCase e = false.
Proof.
  intros Hlow [Hh|(a & kw & b & Hin & Ht)]; unfold keepsElement.
  - rewrite Hh, Hlow. cbn [onlySlashes negb]. now rewrite andb_false_r.
  - assert (existsb (includes (toLowerCase (el_text e))) homeKeywords = true)
      as ->.
    { apply existsb_exists. exists kw. split; [exact Hin|].
      rewrite Ht. apply includes_app. }
    cbn [negb]. now rewrite andb_false_r.
Qed.

(** X24.  An element is never taken as a category when it has no [href]
    (given that lower-casing keeps the empty string empty) or when its
    lower-cased text contains a keyword, be it inside a longer word:
    wherever it stands on the page, both crawls give what they give for
    the page without it, as long as another element is matched; and a
    page on which every matched element is of that kind makes both
    crawls fail. *)
Theorem elements_without_link_or_with_keyword_are_dropped
        (toLowerCase : string -> string) (title_selector : string)
        (before after : list ElementData) (e : ElementData) :
  toLowerCase "" = "" ->
  (el_href e = "" \/
   exists a keyword b,
     In keyword homeKeywords /\
     toLowerCase (el_text e) = (a ++ keyword ++ b)%string) ->
  collectTitles toLowerCase (before ++ e :: after) []
  = collectTitles toLowerCase (before ++ after) [] /\
  firstValidTitle toLowerCase (before ++ e :: after)
  = firstValidTitle toLowerCase (before ++ after) /\
  (before ++ after <> [] ->
   crawlCategory_titles toLowerCase title_selector (before ++ e :: after)
   = crawlCategory_titles toLowerCase title_selector (before ++ after) /\
   updateCategory_title toLowerCase title_selector (before ++ e :: after)
   = updateCategory_title toLowerCase title_selector (before ++ after)) /\
  (forall titles,
      crawlCategory_titles toLowerCase title_selector (before ++ e :: after)
      = Returned titles ->
      titles = map el_text (filter (keepsElement toLowerCase) (before ++ after))) /\
  (forall elements,
      elements <> [] ->
      (forall e', In e' elements ->
                  el_href e' = "" \/
                  exists a keyword b,
                    In keyword homeKeywords /\
                    toLowerCase (el_text e') = (a ++ keyword ++ b)%string) ->
      crawlCategory_titles toLowerCase title_selector elements
      = Thrown "Crawl failed: No valid category found - all elements are home page links or empty"
      /\
      updateCategory_title toLowerCase title_selector elements
      = Thrown "Crawl failed: No valid category found - all elements are home page links or empty").
Proof.
  intros Hlow Hdrop.
  pose proof (dropped_element toLowerCase e Hlow Hdrop) as He.
  assert (filter (keepsElement toLowerCase) (before ++ e :: after)
          = filter (keepsElement toLowerCase) (before ++ after)) as Hf.
  { rewrite !filter_app. cbn [filter]. now rewrite He. }
  assert (collectTitles toLowerCase (before ++ e :: after) []
          = collectTitles toLowerCase (before ++ after) []) as Hc
      by (rewrite !collectTitles_spec; now rewrite Hf).
  assert (firstValidTitle toLowerCase (before ++ e :: after)
          = firstValidTitle toLowerCase (before ++ after)) as Hv
      by (rewrite !firstValidTitle_spec; now rewrite Hf).
  split; [exact Hc|]. split; [exact Hv|]. split; [|split].
  - intros Hne. unfold crawlCategory_titles, updateCategory_title.
    rewrite Hc, Hv.
    assert (Nat.eqb (List.length (before ++ e :: after)) 0 = false) as ->
        by (destruct before; reflexivity).
    assert (Nat.eqb (List.length (before ++ after)) 0 = false) as ->
        by (destruct (before ++ after); [now elim Hne | reflexivity]).
    split; reflexivity.
  - intros titles. unfold crawlCategory_titles.
    assert (Nat.eqb (List.length (before ++ e :: after)) 0 = false) as ->
        by (destruct before; reflexivity).
    rewrite Hc, collectTitles_spec. cbn [app].
    destruct (Nat.eqb (List.length
                         (map el_text
                              (filter (keepsElement toLowerCase)
                                      (before ++ after)))) 0);
      cbn [crawlFailed]; [discriminate|].
    now intros [= <-].
  - intros elements Hne Hall.
    assert (filter (keepsElement toLowerCase) elements = []) as Hnone.
    { clear Hne. induction elements as [|e0 rest IH]; [reflexivity|].
      cbn [filter].
      rewrite (dropped_element toLowerCase e0 Hlow (Hall e0 (or_introl eq_refl))).
      apply IH. intros e1 H1. apply Hall. now right. }
    unfold crawlCategory_titles, updateCategory_title.
    rewrite firstValidTitle_spec, collectTitles_spec, Hnone.
    destruct elements as [|e0 rest]; [now elim Hne|]. split; reflexivity.
Qed.

Lemma elements_without_link_or_with_keyword_are_dropped_witness :
  crawlCategory_titles asciiLower "h2.category-title"
    [{| el_text := "Sport"; el_href := "/sport" |};
     {| el_text := "Home & Garden"; el_href := "/garden" |};
     {| el_text := "World"; el_href := "/world" |}]
  = crawlCategory_titles asciiLower "h2.category-title"
      [{| el_text := "Sport"; el_href := "/sport" |};
       {| el_text := "World"; el_href := "/world" |}].
Proof.
  apply (elements_without_link_or_with_keyword_are_dropped
           asciiLower "h2.category-title"
           [{| el_text := "Sport"; el_href := "/sport" |}]
           [{| el_text := "World"; el_href := "/world" |}]
           {| el_text := "Home & Garden"; el_href := "/garden" |}).
  - reflexivity.
  - right. exists "", "home", " & garden". split; [simpl; auto | reflexivity].
  - discriminate.
Defined.

(** The two pages of the witness give "Sport" and "World"; a page of
    such elements only gives nothing. *)
Example crawlCategory_titles_run :
  crawlCategory_titles asciiLower "h2.category-title"
    [{| el_text := "Sport"; el_href := "/sport" |};
     {| el_text := "Home & Garden"; el_href := "/garden" |};
     {| el_text := "World"; el_href := "/world" |}]
  = Returned ["Sport"; "World"] /\
  crawlCategory_titles asciiLower "h2.category-title"
    [{| el_text := "Technology"; el_href := "" |};
     {| el_text := "Home & Garden"; el_href := "/garden" |};
     {| el_text := "Index Funds"; el_href := "/funds" |}]
  = Thrown "Crawl failed: No valid category found - all elements are home page links or empty".
Proof. vm_compute. split; reflexivity. Qed.

(* ===================================================================== *)
(** ** Listing the sites, and the request validator *)
(* ===================================================================== *)


(** X26.  On a body whose three fields are strings, the validator of the
    route lets a request through exactly when the validation inside
    [initializeCrawl] accepts it; whatever the body, strings or fields
    missing, a response of the validator is 400 "Validation Error"; and a
    body with any one of the three fields missing is answered by the
    validator, whatever the other two are. *)
Theorem route_validator_agrees_with_service (link_type title crawl_link : string) :
  (validateInitializeCrawl (Some link_type) (Some title) (Some crawl_link) = None
   <-> validateCreateCrawlData
         {| c_link_type := link_type; c_title := title;
            c_crawl_link := crawl_link |} = Returned tt) /\
  (forall a b c resp,
      validateInitializeCrawl a b c = Some resp ->
      statusCode resp = 400 /\ error resp = "Validation Error" /\
      success resp = false) /\
  (forall b c, validateInitializeCrawl None b c <> None) /\
  (forall a c, validateInitializeCrawl a None c <> None) /\
  (forall a b, validateInitializeCrawl a b None <> None).
Proof.
  split.
  { unfold validateInitializeCrawl, validateCreateCrawlData. cbn [c_link_type c_title c_crawl_link].
    assert (forall x, Js.truthy (Some x) = nonEmpty x) as Tr
        by (intros [|? ?]; reflexivity).
    rewrite !Tr.
    destruct (nonEmpty link_type); cbn [negb orb];
      [destruct (isLinkType link_type); cbn [negb orb]|];
      (destruct (nonEmpty title); cbn [negb orb];
       [destruct (Nat.eqb (Js.length (trim title)) 0);
        [|destruct (Nat.ltb 255 (Js.length (trim title)))]|]);
      (destruct (nonEmpty crawl_link); cbn [negb orb];
       [destruct (Nat.eqb (Js.length (trim crawl_link)) 0)|]);
      cbn; split; intros H; try discriminate H; reflexivity. }
  split.
  { unfold validateInitializeCrawl. intros a b c resp.
    match goal with
    | |- (if ?c then _ else _) = _ -> _ => destruct c
    end; [|discriminate].
    intros [= <-]. repeat split. }
  unfold validateInitializeCrawl.
  assert (forall (x y z : list string),
             (0 < List.length x + List.length y + List.length z)%nat ->
             Nat.ltb 0 (List.length (x ++ y ++ z)) = true) as Pos
      by (intros x y z H; apply Nat.ltb_lt; rewrite !length_app; lia).
  split; [|split].
  - intros b c. rewrite Pos; [discriminate|]. cbn [List.length]. lia.
  - intros a c. rewrite Pos; [discriminate|]. cbn [List.length]. lia.
  - intros a b. rewrite Pos; [discriminate|]. cbn [List.length]. lia.
Qed.
